(** * superneuromat: a shallow embedding of the LIF simulation engine

    Sources embedded here:
    - [src/superneuromat/numba_jit.py]: [apply_leak_jit] and the
      signature of [lif_jit];
    - [src/superneuromat/neuromorphicmodel.py]: [is_intlike], [resize_vec],
      [create_neuron], [create_synapse], [add_spike], the [apos] setter,
      [stdp_time_steps], [weight_mat], [stdp_enabled_mat], [_setup],
      [setup_input_spikes], [consume_input_spikes], [devec],
      [stdp_setup], [recommend], [simulate], [simulate_cpu],
      [simulate_cpu_jit] and the write-back of [simulate_gpu];
    - Python's [int(s)] and [float(s)] on strings.

    Numpy arrays of dtype float64 are lists over a numeric interface
    [Num]; the interface is instantiated with IEEE-754 binary64
    ([Stdlib.Floats.SpecFloat] with prec 53 and emax 1024, the arithmetic
    the code runs on) and with [Z] (exact arithmetic).  Boolean spike
    vectors (int8 0/1 arrays) are [list bool].  Refractory counters are
    float64 arrays holding integer values (they come from int-validated
    parameters and are only decremented by 1 or reset to their period):
    they are modelled as the integers [Z] these floats hold, every store
    into the float64 array rounded to binary64 ([f64_int]).

    [simulate_cpu_jit] calls [lif_jit] with 10 of its 14 parameters, none
    of which has a default: numba's dispatcher raises TypeError at the
    first tick, and the jit kernels after that call are never reached. *)

From Stdlib Require Import String Ascii.
From Stdlib Require Import ZArith List Bool Lia Ring.
From Stdlib Require Import Floats.SpecFloat.
Import ListNotations.

(** ** Numeric interface of a float64 array element *)

Class Num (R : Type) := {
  nzero : R;
  none : R;
  nadd : R -> R -> R;
  nsub : R -> R -> R;
  nmul : R -> R -> R;
  ngt : R -> R -> bool;     (* [a > b] *)
  nlt : R -> R -> bool;     (* [a < b] *)
  nge : R -> R -> bool;     (* [a >= b] *)
  nle : R -> R -> bool;     (* [a <= b] *)
  nisnan : R -> bool;
  ntruthy : R -> bool       (* [bool(x)] *)
}.

(** Exact arithmetic: the commutative-semiring laws the two backends'
    different evaluation orders need in order to agree. *)
Class ExactNum (R : Type) `{Num R} : Prop := {
  nadd_assoc : forall x y z, nadd x (nadd y z) = nadd (nadd x y) z;
  nadd_comm : forall x y, nadd x y = nadd y x;
  nadd_0_r : forall x, nadd x nzero = x;
  nmul_assoc : forall x y z, nmul x (nmul y z) = nmul (nmul x y) z;
  nmul_comm : forall x y, nmul x y = nmul y x;
  nmul_0_l : forall x, nmul nzero x = nzero;
  nmul_1_l : forall x, nmul none x = x;
  nmul_add_distr_r : forall x y z, nmul (nadd x y) z = nadd (nmul x z) (nmul y z);
  ntruthy_false : forall x, ntruthy x = false -> x = nzero
}.

(** *** binary64 *)

Definition F64 := spec_float.
Definition prec := 53%Z.
Definition emax := 1024%Z.

Definition f64_add : F64 -> F64 -> F64 := SFadd prec emax.
Definition f64_sub : F64 -> F64 -> F64 := SFsub prec emax.
Definition f64_mul : F64 -> F64 -> F64 := SFmul prec emax.
Definition f64_div : F64 -> F64 -> F64 := SFdiv prec emax.

(** [float(z)] for a Python int: round to nearest, ties to even. *)
Definition f64_of_Z (z : Z) : F64 := binary_normalize prec emax z 0 false.

(** The float nearest to the decimal [(-1)^neg * n * 10^e] ([n >= 0],
    ties to even), as Python's string-to-float conversion rounds it; it
    overflows to an infinity and underflows to a signed zero.  For [e < 0]
    the quotient [q] of [n * 2^s] by [10^-e] is taken with [s] large enough
    for more than 53 significant bits, and the remainder tells where the
    exact value lies between [q] and [q + 1]. *)
Definition f64_of_decimal (neg : bool) (n e : Z) : F64 :=
  if (n =? 0)%Z then S754_zero neg
  else if (0 <=? e)%Z then binary_normalize prec emax (cond_Zopp neg (n * 10 ^ e)) 0 neg
  else
    let D := (10 ^ (- e))%Z in
    let s := (54 + 4 * (- e))%Z in
    let q := (n * 2 ^ s / D)%Z in
    let r := (n * 2 ^ s mod D)%Z in
    binary_round_aux prec emax neg q (- s)
      (if (r =? 0)%Z then loc_Exact else loc_Inexact (Z.compare (2 * r) D)).

(** A Python float literal [m * 10^-k]. *)
Definition f64_lit (m : Z) (k : nat) : F64 := f64_of_decimal false m (- Z.of_nat k).

(** The integer a float holds, for a zero or a finite float of integer
    value. *)
Definition f64_int_value (f : F64) : option Z :=
  match f with
  | S754_zero _ => Some 0%Z
  | S754_finite s m e =>
      Some (cond_Zopp s (if (0 <=? e)%Z then Z.pos m * 2 ^ e else Z.pos m / 2 ^ (- e)))
  | _ => None
  end.

(** An integer stored into a float64 array (by [np.asarray(ints, float64)],
    or as the exact result of a float64 operation on integer values): the
    integer the rounded float holds; [None] when it rounds to an infinity,
    where [np.asarray] raises OverflowError. *)
Definition f64_int (z : Z) : option Z := f64_int_value (f64_of_Z z).

(** [c -= 1] on a float64 element holding the integer [c > 0]: the
    difference rounded to binary64.  [c - 1] lies between 0 and the finite
    [c], so it never rounds to an infinity; the second branch is not
    reached. *)
Definition f64_pred_int (c : Z) : Z :=
  match f64_int (c - 1) with Some v => v | None => (c - 1)%Z end.

Definition f64_inf : F64 := S754_infinity false.   (* np.inf *)
Definition f64_zero : F64 := S754_zero false.      (* 0.0 *)
Definition f64_one : F64 := f64_of_Z 1.            (* 1.0 *)

Definition f64_isnan (x : F64) : bool :=
  match x with S754_nan => true | _ => false end.

#[export] Instance Num_F64 : Num F64 := {
  nzero := f64_zero;
  none := f64_one;
  nadd := f64_add;
  nsub := f64_sub;
  nmul := f64_mul;
  ngt := fun a b => SFltb b a;
  nlt := fun a b => SFltb a b;
  nge := fun a b => SFleb b a;
  nle := fun a b => SFleb a b;
  nisnan := f64_isnan;
  ntruthy := fun x => negb (SFeqb x f64_zero)
}.

(** *** exact integers *)

#[export] Instance Num_Z : Num Z := {
  nzero := 0%Z;
  none := 1%Z;
  nadd := Z.add;
  nsub := Z.sub;
  nmul := Z.mul;
  ngt := Z.gtb;
  nlt := Z.ltb;
  nge := Z.geb;
  nle := Z.leb;
  nisnan := fun _ => false;
  ntruthy := fun x => negb (Z.eqb x 0)
}.

#[export] Instance ExactNum_Z : ExactNum Z.
Proof.
  split; intros; cbn - [Z.add Z.mul Z.eqb] in *; try lia.
  all: match goal with
       | H : negb (Z.eqb ?x 0) = false |- _ =>
           destruct (Z.eqb_spec x 0); [assumption | discriminate]
       | _ => idtac
       end.
Qed.

(** ** The engine: dense working arrays and one tick *)

Module Engine.
Section Engine.
Context {R : Type} `{Num R}.

Definition of_bool (b : bool) : R := if b then none else nzero.

(** [np.maximum] / [np.minimum]: [in1 >= in2 || isnan(in1) ? in1 : in2]. *)
Definition np_maximum (a b : R) : R := if nge a b || nisnan a then a else b.
Definition np_minimum (a b : R) : R := if nle a b || nisnan a then a else b.

(** Leak of one neuron ([simulate_cpu] lines 916-926, [apply_leak_jit]):
    the second mask is computed on the states the first one updated. *)
Definition leak_elem (s leak r : R) : R :=
  let s1 := if ngt s r then np_maximum (nsub s leak) r else s in
  if nlt s1 r then np_minimum (nadd s1 leak) r else s1.

(** Integrate of one neuron in [simulate_cpu]:
    [self._internal_states + self._input_spikes[tick] + (W.T @ spikes)],
    evaluated left to right. *)
Definition integrate_cpu (s inp syn : R) : R := nadd (nadd s inp) syn.

(** Fire, refractory gate, re-arm and reset of one neuron; returns the
    new internal state, the new refractory counter and the spike. *)
Definition fire_elem (s thr reset : R) (refr orig : Z) : R * Z * bool :=
  let raw := ngt s thr in                         (* np.greater(states, thresholds) *)
  let gated := Z.gtb refr 0 in                    (* refractory_periods > 0 *)
  let spike := if gated then false else raw in    (* spikes[indices] = 0 *)
  let refr1 := if gated then f64_pred_int refr else refr in   (* refr[indices] -= 1 *)
  let refr2 := if spike then orig else refr1 in   (* refr[mask] = original[mask] *)
  let s' := if spike then reset else s in         (* states[mask] = reset[mask] *)
  (s', refr2, spike).

(** [W.T @ spikes]: entry [j] is the dot product of column [j] with the
    previous fired vector. *)
Definition dot (xs ys : list R) : R :=
  fold_left (fun acc p => nadd acc (nmul (fst p) (snd p))) (combine xs ys) nzero.

Definition column (W : list (list R)) (j : nat) : list R :=
  map (fun row => nth j row nzero) W.

Definition matvecT (W : list (list R)) (s : list bool) : list R :=
  map (fun j => dot (column W j) (map of_bool s)) (seq 0 (length s)).

(** Working arrays that stay fixed during a run. *)
Record Params := {
  neuron_thresholds : list R;
  neuron_leaks : list R;
  neuron_reset_states : list R;
  neuron_refractory_periods_original : list Z;
  stdp_enabled_synapses : list (list R);
  stdp_Apos : list R;
  stdp_Aneg : list R;
  stdp_positive_update : bool;   (* model flags read by [stdp_time_steps] *)
  stdp_negative_update : bool;
  do_positive_update : bool;
  do_negative_update : bool
}.

(** Working arrays a tick updates, and the spike-train log. *)
Record Dyn := {
  internal_states : list R;
  neuron_refractory_periods : list Z;
  spikes : list bool;
  weights : list (list R);
  spike_train : list (list bool)
}.

Definition nthR (l : list R) (j : nat) : R := nth j l nzero.
Definition nthZ (l : list Z) (j : nat) : Z := nth j l 0%Z.

(** Leak stage over all neurons. *)
Definition leak_stage (p : Params) (d : Dyn) : list R :=
  map (fun j => leak_elem (nthR (internal_states d) j) (nthR (neuron_leaks p) j)
                          (nthR (neuron_reset_states p) j))
      (seq 0 (length (internal_states d))).

(** Integrate stage over all neurons, with the backend's summation. *)
Definition integrate_stage (integrate : R -> R -> R -> R) (p : Params)
    (inrow : list R) (d : Dyn) : list R :=
  let s1 := leak_stage p d in
  let syn := matvecT (weights d) (spikes d) in
  map (fun j => integrate (nthR s1 j) (nthR inrow j) (nthR syn j)) (seq 0 (length s1)).

(** Fire / refractory / reset stages over all neurons. *)
Definition lif (integrate : R -> R -> R -> R) (p : Params) (inrow : list R) (d : Dyn)
    : list (R * Z * bool) :=
  let s2 := integrate_stage integrate p inrow d in
  map (fun j => fire_elem (nthR s2 j) (nthR (neuron_thresholds p) j)
                          (nthR (neuron_reset_states p) j)
                          (nthZ (neuron_refractory_periods d) j)
                          (nthZ (neuron_refractory_periods_original p) j))
      (seq 0 (length s2)).

Definition res_state (x : R * Z * bool) : R := fst (fst x).
Definition res_refr (x : R * Z * bool) : Z := snd (fst x).
Definition res_spike (x : R * Z * bool) : bool := snd x.

(** [stdp_time_steps] (property); [None] is the AssertionError it raises
    when both updates are enabled and the kernels differ in length. *)
Definition stdp_time_steps (p : Params) : option nat :=
  if stdp_positive_update p && stdp_negative_update p
     && negb (Nat.eqb (length (stdp_Apos p)) (length (stdp_Aneg p))) then None
  else if stdp_positive_update p then Some (length (stdp_Apos p))
  else if stdp_negative_update p then Some (length (stdp_Aneg p))
  else Some 0.

Definition mat_entry (W : list (list R)) (a b : nat) : R := nth b (nth a W []) nzero.

(** Elementwise update of the N x N weight matrix. *)
Definition mat_update (W : list (list R)) (f : nat -> nat -> R -> R) : list (list R) :=
  map (fun a => map (fun b => f a b (mat_entry W a b)) (seq 0 (length W))) (seq 0 (length W)).

(** [np.outer(pre, now)[a][b]] of two 0/1 spike vectors. *)
Definition outer_at (pre now : list bool) (a b : nat) : bool :=
  nth a pre false && nth b now false.

(** numpy [x.sum(axis=0)]: adds the slices in order, from the first. *)
Definition sum_axis0 (xs : list R) : R :=
  match xs with [] => nzero | x :: r => fold_left nadd r x end.

(** STDP of [simulate_cpu] (lines 958-975), run when [t > 0]:
    [update_synapses[j] = outer(spike_train[-t-1:-1][j], spike_train[-1])]
    weighted by [_stdp_Apos[0:t][::-1]], summed over [j], masked, added.
    [1 - update_synapses] on 0/1 int8 values is the negated coincidence. *)
Definition stdp_cpu (p : Params) (t : nat) (train : list (list bool))
    (W : list (list R)) : list (list R) :=
  let hist := firstn t (skipn (length train - t - 1) train) in
  let now := last train [] in
  let apos_rev := rev (firstn t (stdp_Apos p)) in
  let aneg_rev := rev (firstn t (stdp_Aneg p)) in
  let mask := stdp_enabled_synapses p in
  let W1 :=
    if do_positive_update p then
      mat_update W (fun a b w =>
        nadd w (nmul (sum_axis0 (map (fun hc => nmul (of_bool (outer_at (fst hc) now a b)) (snd hc))
                                     (combine hist apos_rev)))
                     (mat_entry mask a b)))
    else W in
  if do_negative_update p then
    mat_update W1 (fun a b w =>
      nadd w (nmul (sum_axis0 (map (fun hc => nmul (of_bool (negb (outer_at (fst hc) now a b))) (snd hc))
                                   (combine hist aneg_rev)))
                   (mat_entry mask a b)))
  else W1.

(** One iteration of the tick loop of [simulate_cpu]. *)
Definition tick_cpu (p : Params) (inp : list (list R)) (d : Dyn) (tick : nat) : option Dyn :=
  let res := lif integrate_cpu p (nth tick inp []) d in
  let sp := map res_spike res in
  let train := spike_train d ++ [sp] in
  match stdp_time_steps p with
  | None => None
  | Some K =>
      let t := Nat.min K (length train - 1) in
      let W := if (do_positive_update p || do_negative_update p) && (0 <? t)%nat
               then stdp_cpu p t train (weights d) else weights d in
      Some {| internal_states := map res_state res;
              neuron_refractory_periods := map res_refr res;
              spikes := sp; weights := W; spike_train := train |}
  end.

(** [for tick in range(time_steps)]. *)
Fixpoint run (step : Params -> list (list R) -> Dyn -> nat -> option Dyn)
    (p : Params) (inp : list (list R)) (d : Dyn) (ticks : list nat) : option Dyn :=
  match ticks with
  | [] => Some d
  | tk :: rest =>
      match step p inp d tk with
      | None => None
      | Some d' => run step p inp d' rest
      end
  end.

Definition run_cpu p inp d (T : nat) : option Dyn := run tick_cpu p inp d (seq 0 T).

(** The STDP rule as the specification states it (section 4.3), one lag
    after the other: lag [i] pairs the tick logged [i + 1] ticks before the
    newest one with the newest one; the positive update is applied when it
    is enabled, then the negative one. *)
Definition stdp_rule_spec (p : Params) (t : nat) (train : list (list bool))
    (W : list (list R)) : list (list R) :=
  let now := last train [] in
  let mask := stdp_enabled_synapses p in
  fold_left (fun W i =>
      let lagged := nth (length train - 2 - i) train [] in
      let W1 :=
        if do_positive_update p then
          mat_update W (fun a b w =>
            nadd w (nmul (nmul (nthR (stdp_Apos p) i) (of_bool (outer_at lagged now a b)))
                         (mat_entry mask a b)))
        else W in
      if do_negative_update p then
        mat_update W1 (fun a b w =>
          nadd w (nmul (nmul (nthR (stdp_Aneg p) i) (of_bool (negb (outer_at lagged now a b))))
                       (mat_entry mask a b)))
      else W1)
    (seq 0 t) W.

(** A square matrix: every row as long as the number of rows. *)
Definition is_square (W : list (list R)) : bool :=
  forallb (fun row => Nat.eqb (length row) (length W)) W.


(** Sum of a list, from the right. *)
Definition sumR (xs : list R) : R := fold_right nadd nzero xs.

(** The term lag [i] contributes to entry [(a, b)] in the rule of
    [stdp_rule_spec]: [Apos[i] * outer * mask] ([pos]) or
    [Aneg[i] * (1 - outer) * mask]. *)
Definition stdp_term (p : Params) (train : list (list bool)) (pos : bool) (i a b : nat) : R :=
  let lagged := nth (length train - 2 - i) train [] in
  let o := outer_at lagged (last train []) a b in
  nmul (nmul (nthR (if pos then stdp_Apos p else stdp_Aneg p) i)
             (of_bool (if pos then o else negb o)))
       (mat_entry (stdp_enabled_synapses p) a b).

(** Entry [(a, b)] after the rule over lags [0 .. t-1], in closed form:
    the old weight plus the positive and the negative sums. *)
Definition stdp_entry (p : Params) (t : nat) (train : list (list bool)) (a b : nat) (w : R) : R :=
  nadd (nadd w (if do_positive_update p
                then sumR (map (fun i => stdp_term p train true i a b) (seq 0 t)) else nzero))
       (if do_negative_update p
        then sumR (map (fun i => stdp_term p train false i a b) (seq 0 t)) else nzero).

(** Modelled from the spec: the refractory stages (section 4.2, steps 3-6)
    of one thread of the CUDA kernel [gpu.lif] (module
    [superneuromat.gpu.cuda], not among the embedded sources). *)
Definition gpu_fire_elem (s thr reset : R) (refr period : Z) : R * Z * bool :=
  let fired := ngt s thr in
  let fired' := if Z.gtb refr 0 then false else fired in
  let refr' := if Z.gtb refr 0 then (refr - 1)%Z else refr in
  let refr'' := if fired' then period else refr' in
  ((if fired' then reset else s), refr'', fired').

End Engine.
End Engine.
(** ** The model object [NeuromorphicModel] *)

(** Python values reaching the construction API. [PyNeuron i] is a
    [Neuron] accessor object, which the API unwraps to its index [i]. *)
Inductive PyVal :=
| PyInt (z : Z)
| PyFloat (f : F64)
| PyBool (b : bool)
| PyStr (s : string)
| PyNone
| PyNeuron (idx : Z).

Inductive PyExc :=
  TypeError | ValueError | OverflowError | IndexError | AssertionError | RuntimeError.

(** Attributes of the model (the [_stdp_Apos] / [_stdp_Aneg] kernels are
    kept as float arrays).  [input_spikes] is the dict, in insertion order,
    from a tick to its ["nids"] and ["values"] lists. *)
Record Model := {
  neuron_thresholds : list F64;
  neuron_leaks : list F64;
  neuron_states : list F64;
  neuron_reset_states : list F64;
  neuron_refractory_periods : list Z;
  neuron_refractory_periods_state : list Z;
  pre_synaptic_neuron_ids : list Z;
  post_synaptic_neuron_ids : list Z;
  synaptic_weights : list PyVal;
  synaptic_delays : list Z;
  enable_stdp : list PyVal;
  input_spikes : list (Z * (list Z * list PyVal));
  spike_train : list (list bool);
  stdp : bool;
  stdp_Apos : list F64;
  stdp_Aneg : list F64;
  stdp_positive_update : bool;
  stdp_negative_update : bool
}.

Definition set_neuron_thresholds (v : list F64) (m : Model) : Model :=
  Build_Model v (neuron_leaks m) (neuron_states m) (neuron_reset_states m) (neuron_refractory_periods m) (neuron_refractory_periods_state m) (pre_synaptic_neuron_ids m) (post_synaptic_neuron_ids m) (synaptic_weights m) (synaptic_delays m) (enable_stdp m) (input_spikes m) (spike_train m) (stdp m) (stdp_Apos m) (stdp_Aneg m) (stdp_positive_update m) (stdp_negative_update m).

Definition set_neuron_leaks (v : list F64) (m : Model) : Model :=
  Build_Model (neuron_thresholds m) v (neuron_states m) (neuron_reset_states m) (neuron_refractory_periods m) (neuron_refractory_periods_state m) (pre_synaptic_neuron_ids m) (post_synaptic_neuron_ids m) (synaptic_weights m) (synaptic_delays m) (enable_stdp m) (input_spikes m) (spike_train m) (stdp m) (stdp_Apos m) (stdp_Aneg m) (stdp_positive_update m) (stdp_negative_update m).

Definition set_neuron_states (v : list F64) (m : Model) : Model :=
  Build_Model (neuron_thresholds m) (neuron_leaks m) v (neuron_reset_states m) (neuron_refractory_periods m) (neuron_refractory_periods_state m) (pre_synaptic_neuron_ids m) (post_synaptic_neuron_ids m) (synaptic_weights m) (synaptic_delays m) (enable_stdp m) (input_spikes m) (spike_train m) (stdp m) (stdp_Apos m) (stdp_Aneg m) (stdp_positive_update m) (stdp_negative_update m).

Definition set_neuron_reset_states (v : list F64) (m : Model) : Model :=
  Build_Model (neuron_thresholds m) (neuron_leaks m) (neuron_states m) v (neuron_refractory_periods m) (neuron_refractory_periods_state m) (pre_synaptic_neuron_ids m) (post_synaptic_neuron_ids m) (synaptic_weights m) (synaptic_delays m) (enable_stdp m) (input_spikes m) (spike_train m) (stdp m) (stdp_Apos m) (stdp_Aneg m) (stdp_positive_update m) (stdp_negative_update m).

Definition set_neuron_refractory_periods (v : list Z) (m : Model) : Model :=
  Build_Model (neuron_thresholds m) (neuron_leaks m) (neuron_states m) (neuron_reset_states m) v (neuron_refractory_periods_state m) (pre_synaptic_neuron_ids m) (post_synaptic_neuron_ids m) (synaptic_weights m) (synaptic_delays m) (enable_stdp m) (input_spikes m) (spike_train m) (stdp m) (stdp_Apos m) (stdp_Aneg m) (stdp_positive_update m) (stdp_negative_update m).

Definition set_neuron_refractory_periods_state (v : list Z) (m : Model) : Model :=
  Build_Model (neuron_thresholds m) (neuron_leaks m) (neuron_states m) (neuron_reset_states m) (neuron_refractory_periods m) v (pre_synaptic_neuron_ids m) (post_synaptic_neuron_ids m) (synaptic_weights m) (synaptic_delays m) (enable_stdp m) (input_spikes m) (spike_train m) (stdp m) (stdp_Apos m) (stdp_Aneg m) (stdp_positive_update m) (stdp_negative_update m).

Definition set_pre_synaptic_neuron_ids (v : list Z) (m : Model) : Model :=
  Build_Model (neuron_thresholds m) (neuron_leaks m) (neuron_states m) (neuron_reset_states m) (neuron_refractory_periods m) (neuron_refractory_periods_state m) v (post_synaptic_neuron_ids m) (synaptic_weights m) (synaptic_delays m) (enable_stdp m) (input_spikes m) (spike_train m) (stdp m) (stdp_Apos m) (stdp_Aneg m) (stdp_positive_update m) (stdp_negative_update m).

Definition set_post_synaptic_neuron_ids (v : list Z) (m : Model) : Model :=
  Build_Model (neuron_thresholds m) (neuron_leaks m) (neuron_states m) (neuron_reset_states m) (neuron_refractory_periods m) (neuron_refractory_periods_state m) (pre_synaptic_neuron_ids m) v (synaptic_weights m) (synaptic_delays m) (enable_stdp m) (input_spikes m) (spike_train m) (stdp m) (stdp_Apos m) (stdp_Aneg m) (stdp_positive_update m) (stdp_negative_update m).

Definition set_synaptic_weights (v : list PyVal) (m : Model) : Model :=
  Build_Model (neuron_thresholds m) (neuron_leaks m) (neuron_states m) (neuron_reset_states m) (neuron_refractory_periods m) (neuron_refractory_periods_state m) (pre_synaptic_neuron_ids m) (post_synaptic_neuron_ids m) v (synaptic_delays m) (enable_stdp m) (input_spikes m) (spike_train m) (stdp m) (stdp_Apos m) (stdp_Aneg m) (stdp_positive_update m) (stdp_negative_update m).

Definition set_synaptic_delays (v : list Z) (m : Model) : Model :=
  Build_Model (neuron_thresholds m) (neuron_leaks m) (neuron_states m) (neuron_reset_states m) (neuron_refractory_periods m) (neuron_refractory_periods_state m) (pre_synaptic_neuron_ids m) (post_synaptic_neuron_ids m) (synaptic_weights m) v (enable_stdp m) (input_spikes m) (spike_train m) (stdp m) (stdp_Apos m) (stdp_Aneg m) (stdp_positive_update m) (stdp_negative_update m).

Definition set_enable_stdp (v : list PyVal) (m : Model) : Model :=
  Build_Model (neuron_thresholds m) (neuron_leaks m) (neuron_states m) (neuron_reset_states m) (neuron_refractory_periods m) (neuron_refractory_periods_state m) (pre_synaptic_neuron_ids m) (post_synaptic_neuron_ids m) (synaptic_weights m) (synaptic_delays m) v (input_spikes m) (spike_train m) (stdp m) (stdp_Apos m) (stdp_Aneg m) (stdp_positive_update m) (stdp_negative_update m).

Definition set_input_spikes (v : list (Z * (list Z * list PyVal))) (m : Model) : Model :=
  Build_Model (neuron_thresholds m) (neuron_leaks m) (neuron_states m) (neuron_reset_states m) (neuron_refractory_periods m) (neuron_refractory_periods_state m) (pre_synaptic_neuron_ids m) (post_synaptic_neuron_ids m) (synaptic_weights m) (synaptic_delays m) (enable_stdp m) v (spike_train m) (stdp m) (stdp_Apos m) (stdp_Aneg m) (stdp_positive_update m) (stdp_negative_update m).

Definition set_spike_train (v : list (list bool)) (m : Model) : Model :=
  Build_Model (neuron_thresholds m) (neuron_leaks m) (neuron_states m) (neuron_reset_states m) (neuron_refractory_periods m) (neuron_refractory_periods_state m) (pre_synaptic_neuron_ids m) (post_synaptic_neuron_ids m) (synaptic_weights m) (synaptic_delays m) (enable_stdp m) (input_spikes m) v (stdp m) (stdp_Apos m) (stdp_Aneg m) (stdp_positive_update m) (stdp_negative_update m).

Definition set_stdp (v : bool) (m : Model) : Model :=
  Build_Model (neuron_thresholds m) (neuron_leaks m) (neuron_states m) (neuron_reset_states m) (neuron_refractory_periods m) (neuron_refractory_periods_state m) (pre_synaptic_neuron_ids m) (post_synaptic_neuron_ids m) (synaptic_weights m) (synaptic_delays m) (enable_stdp m) (input_spikes m) (spike_train m) v (stdp_Apos m) (stdp_Aneg m) (stdp_positive_update m) (stdp_negative_update m).

Definition set_stdp_Apos (v : list F64) (m : Model) : Model :=
  Build_Model (neuron_thresholds m) (neuron_leaks m) (neuron_states m) (neuron_reset_states m) (neuron_refractory_periods m) (neuron_refractory_periods_state m) (pre_synaptic_neuron_ids m) (post_synaptic_neuron_ids m) (synaptic_weights m) (synaptic_delays m) (enable_stdp m) (input_spikes m) (spike_train m) (stdp m) v (stdp_Aneg m) (stdp_positive_update m) (stdp_negative_update m).

Definition set_stdp_Aneg (v : list F64) (m : Model) : Model :=
  Build_Model (neuron_thresholds m) (neuron_leaks m) (neuron_states m) (neuron_reset_states m) (neuron_refractory_periods m) (neuron_refractory_periods_state m) (pre_synaptic_neuron_ids m) (post_synaptic_neuron_ids m) (synaptic_weights m) (synaptic_delays m) (enable_stdp m) (input_spikes m) (spike_train m) (stdp m) (stdp_Apos m) v (stdp_positive_update m) (stdp_negative_update m).

Definition set_stdp_positive_update (v : bool) (m : Model) : Model :=
  Build_Model (neuron_thresholds m) (neuron_leaks m) (neuron_states m) (neuron_reset_states m) (neuron_refractory_periods m) (neuron_refractory_periods_state m) (pre_synaptic_neuron_ids m) (post_synaptic_neuron_ids m) (synaptic_weights m) (synaptic_delays m) (enable_stdp m) (input_spikes m) (spike_train m) (stdp m) (stdp_Apos m) (stdp_Aneg m) v (stdp_negative_update m).

Definition set_stdp_negative_update (v : bool) (m : Model) : Model :=
  Build_Model (neuron_thresholds m) (neuron_leaks m) (neuron_states m) (neuron_reset_states m) (neuron_refractory_periods m) (neuron_refractory_periods_state m) (pre_synaptic_neuron_ids m) (post_synaptic_neuron_ids m) (synaptic_weights m) (synaptic_delays m) (enable_stdp m) (input_spikes m) (spike_train m) (stdp m) (stdp_Apos m) (stdp_Aneg m) (stdp_positive_update m) v.


Definition empty_model : Model :=
  Build_Model [] [] [] [] [] [] [] [] [] [] [] [] [] true [] [] true true.

(** *** Python builtins on these values *)

(** Strings as Python's [int(s)] and [float(s)] read them (base 10): the
    characters are code points 0-255. *)

(** Whitespace stripped around the number: the code points [str.strip()]
    removes, 9-13, 28-32, 133 and 160. *)
Definition is_space_char (c : ascii) : bool :=
  let n := nat_of_ascii c in
  ((9 <=? n) && (n <=? 13)) || ((28 <=? n) && (n <=? 32)) || (n =? 133) || (n =? 160).

Definition is_digit (c : ascii) : bool :=
  let n := nat_of_ascii c in (48 <=? n) && (n <=? 57).

Fixpoint drop_space (l : list ascii) : list ascii :=
  match l with
  | c :: r => if is_space_char c then drop_space r else l
  | [] => []
  end.

Definition strip_spaces (l : list ascii) : list ascii := rev (drop_space (rev (drop_space l))).

(** Underscores are allowed only between two digits ([1_000]). *)
Fixpoint underscores_ok (prev_digit : bool) (l : list ascii) : bool :=
  match l with
  | [] => true
  | c :: r =>
      if Ascii.eqb c "_" then
        prev_digit && match r with d :: _ => is_digit d | [] => false end && underscores_ok false r
      else underscores_ok (is_digit c) r
  end.

Definition drop_underscores (l : list ascii) : list ascii :=
  filter (fun c => negb (Ascii.eqb c "_")) l.

(** An optional sign; [true] for a minus. *)
Definition take_sign (l : list ascii) : bool * list ascii :=
  match l with
  | c :: r => if Ascii.eqb c "-" then (true, r) else if Ascii.eqb c "+" then (false, r) else (false, l)
  | [] => (false, [])
  end.

(** The longest prefix of digits, and the rest. *)
Fixpoint take_digits (l : list ascii) : list ascii * list ascii :=
  match l with
  | c :: r => if is_digit c then let '(ds, rest) := take_digits r in (c :: ds, rest) else ([], l)
  | [] => ([], [])
  end.

Definition digits_value (ds : list ascii) : Z :=
  fold_left (fun acc c => acc * 10 + Z.of_nat (nat_of_ascii c - 48))%Z ds 0%Z.

(** [int(s)]: blanks, a sign, then one or more digits. *)
Definition parse_int (s : string) : option Z :=
  let l := strip_spaces (list_ascii_of_string s) in
  if underscores_ok false l then
    let '(neg, r) := take_sign (drop_underscores l) in
    match r with
    | [] => None
    | _ => if forallb is_digit r then Some (cond_Zopp neg (digits_value r)) else None
    end
  else None.

Definition lower (c : ascii) : ascii :=
  let n := nat_of_ascii c in
  if (65 <=? n) && (n <=? 90) then ascii_of_nat (n + 32) else c.

Definition list_ascii_eqb (l1 l2 : list ascii) : bool :=
  (length l1 =? length l2) && forallb (fun p => Ascii.eqb (fst p) (snd p)) (combine l1 l2).

(** The exponent part of a float string: [e] or [E], a sign, digits. *)
Definition parse_exponent (l : list ascii) : option Z :=
  match l with
  | [] => Some 0%Z
  | c :: r =>
      if Ascii.eqb c "e" || Ascii.eqb c "E" then
        let '(neg, r1) := take_sign r in
        let '(ds, rest) := take_digits r1 in
        match ds, rest with
        | _ :: _, [] => Some (cond_Zopp neg (digits_value ds))
        | _, _ => None
        end
      else None
  end.

(** [float(s)]: blanks, a sign, then [inf], [infinity] or [nan] in any
    case, or digits with an optional point and an optional exponent, with
    at least one digit before the exponent. *)
Definition parse_float (s : string) : option F64 :=
  let l := strip_spaces (list_ascii_of_string s) in
  if underscores_ok false l then
    let '(neg, r) := take_sign (drop_underscores l) in
    let word := map lower r in
    if list_ascii_eqb word (list_ascii_of_string "inf")
       || list_ascii_eqb word (list_ascii_of_string "infinity") then Some (S754_infinity neg)
    else if list_ascii_eqb word (list_ascii_of_string "nan") then Some S754_nan
    else
      let '(ip, r1) := take_digits r in
      let '(fp, r2) := match r1 with
                       | c :: r' => if Ascii.eqb c "." then take_digits r' else ([], r1)
                       | [] => ([], [])
                       end in
      match ip ++ fp with
      | [] => None
      | ds =>
          match parse_exponent r2 with
          | Some e => Some (f64_of_decimal neg (digits_value ds) (e - Z.of_nat (length fp)))
          | None => None
          end
      end
  else None.

(** [int(f)] for a float: truncation toward zero. *)
Definition f64_trunc (f : F64) : PyExc + Z :=
  match f with
  | S754_zero _ => inr 0%Z
  | S754_nan => inl ValueError
  | S754_infinity _ => inl OverflowError
  | S754_finite s m e =>
      if (0 <=? e)%Z then inr (cond_Zopp s (Z.pos m * 2 ^ e))%Z
      else inr (cond_Zopp s (Z.pos m / 2 ^ (- e)))%Z
  end.

(** [f == z] between a float and an int: exact comparison. *)
Definition f64_eq_Z (f : F64) (z : Z) : bool :=
  match f with
  | S754_zero _ => Z.eqb z 0
  | S754_finite s m e =>
      if (0 <=? e)%Z then Z.eqb (cond_Zopp s (Z.pos m * 2 ^ e)) z
      else Z.eqb (cond_Zopp s (Z.pos m)) (z * 2 ^ (- e))
  | _ => false
  end.

(** [int(x)]. *)
Definition py_int (x : PyVal) : PyExc + Z :=
  match x with
  | PyInt z => inr z
  | PyBool b => inr (if b then 1 else 0)%Z
  | PyFloat f => f64_trunc f
  | PyStr s => match parse_int s with Some z => inr z | None => inl ValueError end
  | PyNone | PyNeuron _ => inl TypeError
  end.

Definition f64_is_inf (f : F64) : bool :=
  match f with S754_infinity _ => true | _ => false end.

(** [float(x)]; an int too large for binary64 raises OverflowError. *)
Definition py_float (x : PyVal) : PyExc + F64 :=
  match x with
  | PyInt z => if f64_is_inf (f64_of_Z z) then inl OverflowError else inr (f64_of_Z z)
  | PyBool b => inr (if b then f64_one else f64_zero)
  | PyFloat f => inr f
  | PyStr s => match parse_float s with Some f => inr f | None => inl ValueError end
  | PyNone | PyNeuron _ => inl TypeError
  end.

(** [isinstance(x, (int, float))] ([bool] is a subclass of [int]). *)
Definition isinstance_num (x : PyVal) : bool :=
  match x with PyInt _ | PyFloat _ | PyBool _ => true | _ => false end.

Definition isinstance_int (x : PyVal) : bool :=
  match x with PyInt _ | PyBool _ => true | _ => false end.

(** [is_intlike]: [isinstance(x, int)] or [x == int(x)]; a string never
    equals an int. *)
Definition is_intlike (x : PyVal) : PyExc + bool :=
  if isinstance_int x then inr true
  else match py_int x with
       | inl e => inl e
       | inr z => match x with PyFloat f => inr (f64_eq_Z f z) | _ => inr false end
       end.

(** [x < 0.0] for an int or float. *)
Definition py_lt_zero (x : PyVal) : bool :=
  match x with
  | PyInt z => (z <? 0)%Z
  | PyFloat f => SFltb f f64_zero
  | _ => false
  end.

(** [bool(x)]. *)
Definition py_truthy (x : PyVal) : bool :=
  match x with
  | PyInt z => negb (Z.eqb z 0)
  | PyBool b => b
  | PyFloat f => negb (SFeqb f f64_zero)
  | PyStr s => match s with EmptyString => false | _ => true end
  | PyNone => false
  | PyNeuron _ => true
  end.

(** *** Method calls: state passing with Python exceptions.  An exception
    leaves the model as it is at the point it is raised. *)

Definition PyM (A : Type) : Type := Model -> Model * (PyExc + A).

Definition ret {A} (a : A) : PyM A := fun m => (m, inr a).
Definition raise {A} (e : PyExc) : PyM A := fun m => (m, inl e).
Definition lift {A} (r : PyExc + A) : PyM A := fun m => (m, r).
Definition get : PyM Model := fun m => (m, inr m).
Definition modify (f : Model -> Model) : PyM unit := fun m => (f m, inr tt).
Definition bind {A B} (c : PyM A) (k : A -> PyM B) : PyM B :=
  fun m => let (m1, r) := c m in
           match r with inl e => (m1, inl e) | inr a => k a m1 end.

Notation "x <- c ;; k" := (bind c (fun x => k))
  (at level 61, c at next level, right associativity).

(** [if not cond: raise e]. *)
Definition check (cond : bool) (e : PyExc) : PyM unit :=
  if cond then ret tt else raise e.

Definition num_neurons (m : Model) : Z := Z.of_nat (length (neuron_thresholds m)).
Definition num_synapses (m : Model) : Z := Z.of_nat (length (pre_synaptic_neuron_ids m)).

(** [create_neuron]; returns the new neuron's index. *)
Definition create_neuron (threshold leak reset_state refractory_period
    refractory_state initial_state : PyVal) : PyM Z :=
  _ <- check (isinstance_num threshold) TypeError ;;
  _ <- check (isinstance_num leak) TypeError ;;
  _ <- check (negb (py_lt_zero leak)) ValueError ;;
  b <- lift (is_intlike refractory_period) ;;
  _ <- check b TypeError ;;
  rp <- lift (py_int refractory_period) ;;
  _ <- check (0 <=? rp)%Z ValueError ;;
  b' <- lift (is_intlike refractory_state) ;;
  _ <- check b' TypeError ;;
  rs <- lift (py_int refractory_state) ;;
  _ <- check (0 <=? rs)%Z ValueError ;;
  _ <- check (isinstance_num initial_state) TypeError ;;
  x1 <- lift (py_float threshold) ;;
  _ <- modify (fun m => set_neuron_thresholds (neuron_thresholds m ++ [x1]) m) ;;
  x2 <- lift (py_float leak) ;;
  _ <- modify (fun m => set_neuron_leaks (neuron_leaks m ++ [x2]) m) ;;
  x3 <- lift (py_float reset_state) ;;
  _ <- modify (fun m => set_neuron_reset_states (neuron_reset_states m ++ [x3]) m) ;;
  _ <- modify (fun m => set_neuron_refractory_periods (neuron_refractory_periods m ++ [rp]) m) ;;
  _ <- modify (fun m => set_neuron_refractory_periods_state
                          (neuron_refractory_periods_state m ++ [rs]) m) ;;
  x4 <- lift (py_float initial_state) ;;
  _ <- modify (fun m => set_neuron_states (neuron_states m ++ [x4]) m) ;;
  m <- get ;;
  ret (num_neurons m - 1)%Z.

(** [create_neuron()] with its default arguments. *)
Definition create_neuron_default : PyM Z :=
  create_neuron (PyFloat f64_zero) (PyFloat f64_inf) (PyFloat f64_zero)
                (PyInt 0) (PyInt 0) (PyFloat f64_zero).

(** [if isinstance(x, Neuron): x = x.idx]. *)
Definition unwrap_neuron (x : PyVal) : PyVal :=
  match x with PyNeuron i => PyInt i | _ => x end.

(** [if not isinstance(x, (int, float)) or not is_intlike(x): raise TypeError]
    followed by [x = int(x)]. *)
Definition int_arg (x : PyVal) : PyM Z :=
  _ <- check (isinstance_num x) TypeError ;;
  b <- lift (is_intlike x) ;;
  _ <- check b TypeError ;;
  lift (py_int x).

(** The argument checks of [create_synapse]. *)
Definition synapse_checks (pre_id post_id weight delay : PyVal) : PyM (Z * Z * Z) :=
  pre <- int_arg (unwrap_neuron pre_id) ;;
  post <- int_arg (unwrap_neuron post_id) ;;
  _ <- check (isinstance_num weight) TypeError ;;
  d <- int_arg delay ;;
  _ <- check (0 <=? pre)%Z ValueError ;;
  _ <- check (0 <=? post)%Z ValueError ;;
  _ <- check (0 <? d)%Z ValueError ;;
  ret (pre, post, d).

(** The [delay == 1] branch: five parallel appends. *)
Definition append_synapse (pre post : Z) (weight : PyVal) (delay : Z) (stdp_enabled : PyVal)
    : PyM unit :=
  modify (fun m =>
    set_enable_stdp (enable_stdp m ++ [stdp_enabled])
      (set_synaptic_delays (synaptic_delays m ++ [delay])
        (set_synaptic_weights (synaptic_weights m ++ [weight])
          (set_post_synaptic_neuron_ids (post_synaptic_neuron_ids m ++ [post])
            (set_pre_synaptic_neuron_ids (pre_synaptic_neuron_ids m ++ [pre]) m))))).

(** A call [create_synapse(pre_id, post_id, weight=..., stdp_enabled=...)]
    with the default [delay=1], as the delay-expansion loop makes it. *)
Definition create_synapse_unit (pre_id post_id weight stdp_enabled : PyVal) : PyM Z :=
  pd <- synapse_checks pre_id post_id weight (PyInt 1) ;;
  let '(pre, post, d) := pd in
  _ <- append_synapse pre post weight d stdp_enabled ;;
  m <- get ;;
  ret (num_synapses m - 1)%Z.

(** [for _d in range(delay - 1): temp_id = self.create_neuron();
    self.create_synapse(pre_id, temp_id); pre_id = temp_id]. *)
Fixpoint relay_chain (k : nat) (pre_id : PyVal) : PyM PyVal :=
  match k with
  | O => ret pre_id
  | S k' =>
      temp <- create_neuron_default ;;
      _ <- create_synapse_unit pre_id (PyNeuron temp) (PyFloat f64_one) (PyBool false) ;;
      relay_chain k' (PyNeuron temp)
  end.

(** [create_synapse]; returns the index of the last synapse created. *)
Definition create_synapse (pre_id post_id weight delay stdp_enabled : PyVal) : PyM Z :=
  pd <- synapse_checks pre_id post_id weight delay ;;
  let '(pre, post, d) := pd in
  if (d =? 1)%Z then
    _ <- append_synapse pre post weight d stdp_enabled ;;
    m <- get ;;
    ret (num_synapses m - 1)%Z
  else
    last_pre <- relay_chain (Z.to_nat (d - 1)) (PyInt pre) ;;
    create_synapse_unit last_pre (PyInt post) weight stdp_enabled.

(** [self.input_spikes[time]["nids"].append(...)] when the key exists,
    a new key at the end of the dict otherwise. *)
Fixpoint dict_add_spike (d : list (Z * (list Z * list PyVal))) (t nid : Z) (v : PyVal)
    : list (Z * (list Z * list PyVal)) :=
  match d with
  | [] => [(t, ([nid], [v]))]
  | (k, (ns, vs)) :: rest =>
      if Z.eqb k t then (k, (ns ++ [nid], vs ++ [v])) :: rest
      else (k, (ns, vs)) :: dict_add_spike rest t nid v
  end.

(** [add_spike]. *)
Definition add_spike (time neuron_id value : PyVal) : PyM unit :=
  b <- lift (is_intlike time) ;;
  _ <- check b TypeError ;;
  t <- lift (py_int time) ;;
  b' <- lift (is_intlike (unwrap_neuron neuron_id)) ;;
  _ <- check b' TypeError ;;
  nid <- lift (py_int (unwrap_neuron neuron_id)) ;;
  _ <- check (isinstance_num value) TypeError ;;
  _ <- check (0 <=? t)%Z ValueError ;;
  _ <- check (0 <=? nid)%Z ValueError ;;
  modify (fun m => set_input_spikes (dict_add_spike (input_spikes m) t nid value) m).

(** *** STDP kernels *)

(** Calling a value bound to an int, as in [len(a)] where [len] is an int. *)
Definition py_call_int {A} (f : Z) (arg : A) : PyExc + Z := inl TypeError.

(** [resize_vec(a, len, dtype)]: the parameter [len] shadows the builtin,
    so the first comparison [len(a) < len] calls the int [len]. *)
Definition resize_vec (a : list F64) (len : Z) : PyExc + list F64 :=
  match py_call_int len a with
  | inl e => inl e
  | inr la =>
      if (la <? len)%Z then inr (firstn (Z.to_nat len) a)        (* a[:len].copy() *)
      else if (len <? la)%Z then inl ValueError                  (* np.pad, negative width *)
      else inr a
  end.

(** The [apos] setter (the argument already converted by [np.asarray]). *)
Definition set_apos (value : list F64) : PyM unit :=
  m <- get ;;
  if stdp_negative_update m && negb (Nat.eqb (length value) (length (stdp_Aneg m))) then
    let n := Z.of_nat (Nat.max (length value) (length (stdp_Aneg m))) in
    an <- lift (resize_vec (stdp_Aneg m) n) ;;
    _ <- modify (set_stdp_Aneg an) ;;
    v <- lift (resize_vec value n) ;;
    modify (set_stdp_Apos v)
  else modify (set_stdp_Apos value).

(** The [aneg] setter. *)
Definition set_aneg (value : list F64) : PyM unit :=
  m <- get ;;
  if stdp_positive_update m && negb (Nat.eqb (length value) (length (stdp_Apos m))) then
    let n := Z.of_nat (Nat.max (length value) (length (stdp_Apos m))) in
    ap <- lift (resize_vec (stdp_Apos m) n) ;;
    _ <- modify (set_stdp_Apos ap) ;;
    v <- lift (resize_vec value n) ;;
    modify (set_stdp_Aneg v)
  else modify (set_stdp_Aneg value).

(** *** Derived arrays and the simulation calls *)

(** [l[i] = v] for a list, IndexError out of range. *)
Definition list_set {A} (l : list A) (i : Z) (v : A) : option (list A) :=
  if (0 <=? i)%Z && (i <? Z.of_nat (length l))%Z then
    Some (firstn (Z.to_nat i) l ++ [v] ++ skipn (S (Z.to_nat i)) l)
  else None.

(** [mat[i][j] = v]. *)
Definition mat_set {A} (mat : list (list A)) (i j : Z) (v : A) : option (list (list A)) :=
  match nth_error mat (Z.to_nat i) with
  | Some row =>
      match list_set row j v with
      | Some row' => list_set mat i row'
      | None => None
      end
  | None => None
  end.

Definition sum_to_option {A} (r : PyExc + A) : option A :=
  match r with inl _ => None | inr a => Some a end.

(** [mat[pre_ids, post_ids] = values] into an N x N zero matrix; with
    repeated coordinates the last assignment is the one that stays. *)
Fixpoint assign_coords {A} (mat : list (list A)) (pre post : list Z) (vals : list A)
    : option (list (list A)) :=
  match pre, post, vals with
  | i :: pre', j :: post', v :: vals' =>
      match mat_set mat i j v with
      | Some mat' => assign_coords mat' pre' post' vals'
      | None => None
      end
  | _, _, _ => Some mat
  end.

Definition zeros_mat {A} (z : A) (r c : nat) : list (list A) := repeat (repeat z c) r.

Fixpoint all_some {A} (l : list (option A)) : option (list A) :=
  match l with
  | [] => Some []
  | Some x :: r => match all_some r with Some r' => Some (x :: r') | None => None end
  | None :: _ => None
  end.

(** [weight_mat()] (dense). *)
Definition weight_mat (m : Model) : option (list (list F64)) :=
  let n := length (neuron_thresholds m) in
  match all_some (map (fun w => sum_to_option (py_float w)) (synaptic_weights m)) with
  | Some ws => assign_coords (zeros_mat f64_zero n n) (pre_synaptic_neuron_ids m)
                             (post_synaptic_neuron_ids m) ws
  | None => None
  end.

(** A value stored into an int8 array. *)
Definition int8_of (x : PyVal) : option F64 :=
  match py_int x with
  | inr z => if (-128 <=? z)%Z && (z <=? 127)%Z then Some (f64_of_Z z) else None
  | inl _ => None
  end.

(** [stdp_enabled_mat()] (dense int8). *)
Definition stdp_enabled_mat (m : Model) : option (list (list F64)) :=
  let n := length (neuron_thresholds m) in
  match all_some (map int8_of (enable_stdp m)) with
  | Some es => assign_coords (zeros_mat f64_zero n n) (pre_synaptic_neuron_ids m)
                             (post_synaptic_neuron_ids m) es
  | None => None
  end.

Definition any_f64 (l : list F64) : bool := existsb (@ntruthy F64 _) l.

(** [_setup()]: the working arrays of [simulate_cpu] and
    [simulate_cpu_jit].  The refractory periods and counters are stored
    into float64 arrays first ([np.asarray(..., self.dd)]). *)
Definition setup (m : Model) : option (Engine.Params (R := F64) * Engine.Dyn (R := F64)) :=
  let n := length (neuron_thresholds m) in
  match all_some (map f64_int (neuron_refractory_periods m)),
        all_some (map f64_int (neuron_refractory_periods_state m)), weight_mat m with
  | None, _, _ | _, None, _ | _, _, None => None
  | Some orig, Some refr, Some W =>
      let anystdp := stdp m && existsb py_truthy (enable_stdp m) in
      let do_pos := anystdp && stdp_positive_update m && any_f64 (stdp_Apos m) in
      let do_neg := anystdp && stdp_negative_update m && any_f64 (stdp_Aneg m) in
      let mask := if do_pos || do_neg then stdp_enabled_mat m else Some [] in
      match mask with
      | None => None
      | Some mask =>
          let spikes0 := match spike_train m with
                         | [] => repeat false n
                         | _ => last (spike_train m) []
                         end in
          Some ({| Engine.neuron_thresholds := neuron_thresholds m;
                   Engine.neuron_leaks := neuron_leaks m;
                   Engine.neuron_reset_states := neuron_reset_states m;
                   Engine.neuron_refractory_periods_original := orig;
                   Engine.stdp_enabled_synapses := mask;
                   Engine.stdp_Apos := stdp_Apos m;
                   Engine.stdp_Aneg := stdp_Aneg m;
                   Engine.stdp_positive_update := stdp_positive_update m;
                   Engine.stdp_negative_update := stdp_negative_update m;
                   Engine.do_positive_update := do_pos;
                   Engine.do_negative_update := do_neg |},
                {| Engine.internal_states := neuron_states m;
                   Engine.neuron_refractory_periods := refr;
                   Engine.spikes := spikes0;
                   Engine.weights := W;
                   Engine.spike_train := spike_train m |})
      end
  end.

(** [setup_input_spikes(time_steps)]: a (T+1) x N matrix; ticks beyond [T]
    are skipped. *)
Definition setup_input_spikes (m : Model) (T : nat) : option (list (list F64)) :=
  let n := length (neuron_thresholds m) in
  fold_left (fun acc e =>
      match acc with
      | None => None
      | Some mat =>
          let '(t, (nids, vals)) := e in
          if (Z.of_nat T <? t)%Z then Some mat
          else
            match all_some (map (fun v => sum_to_option (py_float v)) vals) with
            | Some fs => assign_coords mat (repeat t (length nids)) nids fs
            | None => None
            end
      end)
    (input_spikes m) (Some (zeros_mat f64_zero (S T) n)).

(** [consume_input_spikes(time_steps)]. *)
Definition consume_input_spikes (T : Z) (d : list (Z * (list Z * list PyVal)))
    : list (Z * (list Z * list PyVal)) :=
  map (fun e => ((fst e - T)%Z, snd e)) (filter (fun e => (T <=? fst e)%Z) d).

(** [devec()], with the spike log the run appended to. *)
Definition devec (m : Model) (p : Engine.Params (R := F64)) (d : Engine.Dyn (R := F64)) : Model :=
  let m1 := set_spike_train (Engine.spike_train d)
              (set_neuron_refractory_periods_state (Engine.neuron_refractory_periods d)
                (set_neuron_states (Engine.internal_states d) m)) in
  if Engine.do_positive_update p || Engine.do_negative_update p then
    set_synaptic_weights
      (map (fun k => PyFloat (Engine.mat_entry (Engine.weights d)
                                (Z.to_nat (nth k (pre_synaptic_neuron_ids m) 0%Z))
                                (Z.to_nat (nth k (post_synaptic_neuron_ids m) 0%Z))))
           (seq 0 (length (pre_synaptic_neuron_ids m)))) m1
  else m1.

(** [simulate_cpu(time_steps)] and [simulate_cpu_jit(time_steps)] without
    manual setup and without callback, given the tick loop; [None] is a
    raised exception. *)
Definition simulate_with (runner : Engine.Params -> list (list F64) -> Engine.Dyn -> nat
                                   -> option (Engine.Dyn (R := F64)))
    (m : Model) (T : nat) : option Model :=
  match setup m, setup_input_spikes m T with
  | Some (p, d), Some inp =>
      match runner p inp d T with
      | Some d' => Some (set_input_spikes (consume_input_spikes (Z.of_nat T) (input_spikes m))
                                          (devec m p d'))
      | None => None
      end
  | _, _ => None
  end.

Definition simulate_cpu (m : Model) (T : nat) : option Model := simulate_with Engine.run_cpu m T.
(** The parameters of [lif_jit] (numba_jit.py lines 23-38), none with a
    default value, and the arguments [simulate_cpu_jit] passes to it
    (lines 868-879): [delays], [delayed_synapses], [synaptic_delaysT] and
    [delayed_spikes] are missing. *)
Definition lif_jit_params : list string :=
  ["tick"; "input_spikes"; "spikes"; "states"; "thresholds"; "leaks"; "reset_states";
   "refractory_periods"; "refractory_periods_original"; "weights";
   "delays"; "delayed_synapses"; "synaptic_delaysT"; "delayed_spikes"]%string.

Definition lif_jit_call_args : nat := 10.

(** The parameters left without an argument by that call. *)
Definition lif_jit_missing : list string := skipn lif_jit_call_args lif_jit_params.

(** One iteration of the tick loop of [simulate_cpu_jit]: calling the
    dispatcher [lif_jit] binds the arguments to the parameters before
    anything runs, and a parameter without default left without argument
    ([lif_jit_missing] is not empty) raises TypeError. *)
Definition tick_jit (p : Engine.Params (R := F64)) (inp : list (list F64))
    (d : Engine.Dyn (R := F64)) (tick : nat) : option (Engine.Dyn (R := F64)) :=
  None.

(** [simulate_cpu_jit(time_steps)]: [check_numba()] raises ImportError
    when numba is not installed; the tick loop then runs [tick_jit], so the
    STDP kernels called after [lif_jit] are never reached. *)
Definition simulate_cpu_jit (numba : bool) (m : Model) (T : nat) : option Model :=
  if numba then simulate_with (fun p inp d T => Engine.run tick_jit p inp d (seq 0 T)) m T
  else None.

(** The write-back at the end of [simulate_gpu] (lines 1059-1064), after
    the device kernels (module [superneuromat.gpu], not embedded here)
    produced the output spikes, states, counters and weights. *)
Definition simulate_gpu_writeback (m : Model) (output_spikes : list (list bool))
    (states : list F64) (refr : list Z) (W : list (list F64)) (do_stdp : bool) : Model :=
  let m1 := set_spike_train (spike_train m ++ output_spikes)
              (set_neuron_refractory_periods_state refr (set_neuron_states states m)) in
  if do_stdp then
    set_synaptic_weights
      (map (fun k => PyFloat (Engine.mat_entry W
                                (Z.to_nat (nth k (pre_synaptic_neuron_ids m) 0%Z))
                                (Z.to_nat (nth k (post_synaptic_neuron_ids m) 0%Z))))
           (seq 0 (length (pre_synaptic_neuron_ids m)))) m1
  else m1.

Inductive Backend := Cpu | Jit | Gpu.

(** [recommend(time_steps)], given whether a GPU and numba are available. *)
Definition recommend (gpu numba : bool) (m : Model) (T : Z) : Backend :=
  let score := (num_neurons m * 1 + T * 100)%Z in
  if gpu && (10000 <? score)%Z then Gpu
  else if numba && (1000 <? score)%Z then Jit
  else Cpu.

(** [simulate(time_steps)] with [use='auto'] (the default backend) and no
    callback, [time_steps] an int.  [gpu] and [numba] tell whether a CUDA
    device and numba are available; [simulate_gpu] is the gpu backend,
    whose device kernels are not embedded here. *)
Definition simulate_auto (gpu numba : bool) (simulate_gpu : Model -> nat -> option Model)
    (m : Model) (time_steps : Z) : option Model :=
  if (time_steps <=? 0)%Z then None                       (* ValueError *)
  else
    let T := Z.to_nat time_steps in
    match recommend gpu numba m time_steps with
    | Cpu => simulate_cpu m T
    | Jit => simulate_cpu_jit numba m T
    | Gpu => simulate_gpu m T
    end.

(** [stdp_setup(time_steps, Apos, Aneg, positive_update, negative_update)],
    with the kernels given as lists of floats (so their element check
    passes). *)
Definition stdp_setup (time_steps : PyVal) (Apos Aneg : list F64)
    (positive_update negative_update : bool) : PyM unit :=
  _ <- check (isinstance_num time_steps) TypeError ;;
  b <- lift (is_intlike time_steps) ;;
  _ <- check b TypeError ;;
  ts <- lift (py_int time_steps) ;;
  _ <- check (0 <? ts)%Z ValueError ;;
  _ <- check (implb positive_update (Z.of_nat (length Apos) =? ts)%Z) ValueError ;;
  _ <- check (implb negative_update (Z.of_nat (length Aneg) =? ts)%Z) ValueError ;;
  m <- get ;;
  _ <- check (existsb py_truthy (enable_stdp m)) RuntimeError ;;
  modify (fun m => set_stdp_negative_update negative_update
                     (set_stdp_positive_update positive_update
                       (set_stdp_Aneg Aneg (set_stdp_Apos Apos (set_stdp true m))))).

(** The model [create_synapse] leaves behind for [delay = d > 1], in closed
    form: [d - 1] neurons with the [create_neuron()] defaults (threshold
    0.0, leak np.inf, reset 0.0, refractory period and state 0, initial
    state 0.0) at indices [N .. N+d-2], and [d] delay-1 synapses
    [pre -> N -> ... -> N+d-2 -> post]; the relay synapses have weight 1.0
    and STDP False, the last one the requested weight and flag. *)
Definition relay_expansion (m : Model) (pre post : Z) (weight stdp_enabled : PyVal) (d : Z)
    : Model :=
  let N := num_neurons m in
  let k := Z.to_nat (d - 1) in
  let relays := map (fun i => (N + Z.of_nat i)%Z) (seq 0 k) in
  Build_Model
    (neuron_thresholds m ++ repeat f64_zero k)
    (neuron_leaks m ++ repeat f64_inf k)
    (neuron_states m ++ repeat f64_zero k)
    (neuron_reset_states m ++ repeat f64_zero k)
    (neuron_refractory_periods m ++ repeat 0%Z k)
    (neuron_refractory_periods_state m ++ repeat 0%Z k)
    (pre_synaptic_neuron_ids m ++ pre :: relays)
    (post_synaptic_neuron_ids m ++ relays ++ [post])
    (synaptic_weights m ++ repeat (PyFloat f64_one) k ++ [weight])
    (synaptic_delays m ++ repeat 1%Z (S k))
    (enable_stdp m ++ repeat (PyBool false) k ++ [stdp_enabled])
    (input_spikes m) (spike_train m) (stdp m) (stdp_Apos m) (stdp_Aneg m)
    (stdp_positive_update m) (stdp_negative_update m).

(** The model after [k] rounds of the relay loop started at [pre_id = p]:
    [k] default neurons, numbered from [len(neuron_thresholds)], and the
    unit synapses [p -> r0], [r0 -> r1], ... into them. *)
Definition relay_chain_model (m : Model) (p : Z) (k : nat) : Model :=
  let N := num_neurons m in
  let relays := map (fun i => (N + Z.of_nat i)%Z) (seq 0 k) in
  Build_Model
    (neuron_thresholds m ++ repeat f64_zero k)
    (neuron_leaks m ++ repeat f64_inf k)
    (neuron_states m ++ repeat f64_zero k)
    (neuron_reset_states m ++ repeat f64_zero k)
    (neuron_refractory_periods m ++ repeat 0%Z k)
    (neuron_refractory_periods_state m ++ repeat 0%Z k)
    (pre_synaptic_neuron_ids m ++ firstn k (p :: relays))
    (post_synaptic_neuron_ids m ++ relays)
    (synaptic_weights m ++ repeat (PyFloat f64_one) k)
    (synaptic_delays m ++ repeat 1%Z k)
    (enable_stdp m ++ repeat (PyBool false) k)
    (input_spikes m) (spike_train m) (stdp m) (stdp_Apos m) (stdp_Aneg m)
    (stdp_positive_update m) (stdp_negative_update m).

(** ** Concrete scenarios *)

Definition run_calls (c : PyM unit) : Model := fst (c empty_model).

(** [create_neuron(threshold=0, refractory_period=2)]; spikes of amplitude
    1, 3, 4, 1 at ticks 1, 2, 3, 4. *)
Definition refractory_calls : PyM unit :=
  n <- create_neuron (PyInt 0) (PyFloat f64_inf) (PyFloat f64_zero) (PyInt 2) (PyInt 0)
                     (PyFloat f64_zero) ;;
  _ <- add_spike (PyInt 1) (PyNeuron n) (PyInt 1) ;;
  _ <- add_spike (PyInt 2) (PyNeuron n) (PyInt 3) ;;
  _ <- add_spike (PyInt 3) (PyNeuron n) (PyInt 4) ;;
  add_spike (PyInt 4) (PyNeuron n) (PyInt 1).

(** Neuron A with the defaults; neuron B with threshold 0.6, leak 0 and
    initial state 0.1; a synapse A -> B of weight 0.3; a spike of 1 into A
    at tick 0 and of 0.2 into B at tick 1. *)
Definition association_calls : PyM unit :=
  a <- create_neuron_default ;;
  b <- create_neuron (PyFloat (f64_lit 6 1)) (PyInt 0) (PyFloat f64_zero) (PyInt 0) (PyInt 0)
                     (PyFloat (f64_lit 1 1)) ;;
  _ <- create_synapse (PyNeuron a) (PyNeuron b) (PyFloat (f64_lit 3 1)) (PyInt 1)
                      (PyBool false) ;;
  _ <- add_spike (PyInt 0) (PyNeuron a) (PyInt 1) ;;
  add_spike (PyInt 1) (PyNeuron b) (PyFloat (f64_lit 2 1)).

(** One default neuron and a spike of 1 into it at tick 0. *)
Definition one_spike_calls : PyM unit :=
  n <- create_neuron_default ;;
  add_spike (PyInt 0) (PyNeuron n) (PyInt 1).

(** One neuron with the defaults except [initial_state=np.inf]. *)
Definition inf_state_calls : PyM unit :=
  _ <- create_neuron (PyFloat f64_zero) (PyFloat f64_inf) (PyFloat f64_zero) (PyInt 0) (PyInt 0)
                     (PyFloat f64_inf) ;;
  ret tt.

(** [create_neuron(threshold=0, refractory_period=2**53 + 1)] and a spike of
    1 into it at tick 0. *)
Definition big_period_calls : PyM unit :=
  n <- create_neuron (PyInt 0) (PyFloat f64_inf) (PyFloat f64_zero) (PyInt (2 ^ 53 + 1))
                     (PyInt 0) (PyFloat f64_zero) ;;
  add_spike (PyInt 0) (PyNeuron n) (PyInt 1).

(** [create_neuron(threshold=0, refractory_state=2**53 + 2)]. *)
Definition big_counter_calls : PyM unit :=
  _ <- create_neuron (PyInt 0) (PyFloat f64_inf) (PyFloat f64_zero) (PyInt 0)
                     (PyInt (2 ^ 53 + 2)) (PyFloat f64_zero) ;;
  ret tt.



(** Two neurons over exact integers: neuron 0 fired on the previous tick
    and is driven again; neuron 1 has a refractory period of 1. *)
Definition z_params : Engine.Params (R := Z) :=
  {| Engine.neuron_thresholds := [0; 5]%Z;
     Engine.neuron_leaks := [0; 0]%Z;
     Engine.neuron_reset_states := [0; 0]%Z;
     Engine.neuron_refractory_periods_original := [2; 1]%Z;
     Engine.stdp_enabled_synapses := [[1; 1]; [0; 1]]%Z;
     Engine.stdp_Apos := [1; 2; 3]%Z;
     Engine.stdp_Aneg := [1; 1; 1]%Z;
     Engine.stdp_positive_update := true;
     Engine.stdp_negative_update := true;
     Engine.do_positive_update := true;
     Engine.do_negative_update := true |}.

Definition z_dyn : Engine.Dyn (R := Z) :=
  {| Engine.internal_states := [3; 1]%Z;
     Engine.neuron_refractory_periods := [0; 0]%Z;
     Engine.spikes := [true; false];
     Engine.weights := [[0; 2]; [1; 0]]%Z;
     Engine.spike_train := [[true; false]] |}.

Definition z_inputs : list (list Z) := [[1; 0]%Z].

(** The association scenario after one simulated tick. *)
Definition association_after_1 : Model :=
  match simulate_cpu (run_calls association_calls) 1 with
  | Some m => m
  | None => empty_model
  end.

(** The refractory scenario after six simulated ticks. *)
Definition refractory_after_6 : Model :=
  match simulate_cpu (run_calls refractory_calls) 6 with
  | Some m => m
  | None => empty_model
  end.

(** One neuron created in refractory ([refractory_state=2]), threshold 0
    and no leak, with a spike of 1 into it at ticks 0, 1 and 2. *)
Definition delayed_start_calls : PyM unit :=
  n <- create_neuron (PyInt 0) (PyFloat f64_inf) (PyFloat f64_zero) (PyInt 0) (PyInt 2)
                     (PyFloat f64_zero) ;;
  _ <- add_spike (PyInt 0) (PyNeuron n) (PyInt 1) ;;
  _ <- add_spike (PyInt 1) (PyNeuron n) (PyInt 1) ;;
  add_spike (PyInt 2) (PyNeuron n) (PyInt 1).

(** The delayed-start scenario after three simulated ticks. *)
Definition delayed_start_after_3 : Model :=
  match simulate_cpu (run_calls delayed_start_calls) 3 with
  | Some m => m
  | None => empty_model
  end.

(** Two default neurons [a] and [b], two parallel STDP synapses [a -> b]
    of weights 1.0 and 2, a spike of 1 into [a] at tick 0, and
    [stdp_setup(1, [1.0], [1.0], True, True)]. *)
Definition parallel_calls : PyM unit :=
  a <- create_neuron_default ;;
  b <- create_neuron_default ;;
  _ <- create_synapse (PyNeuron a) (PyNeuron b) (PyFloat f64_one) (PyInt 1) (PyBool true) ;;
  _ <- create_synapse (PyNeuron a) (PyNeuron b) (PyInt 2) (PyInt 1) (PyBool true) ;;
  _ <- add_spike (PyInt 0) (PyNeuron a) (PyInt 1) ;;
  stdp_setup (PyInt 1) [f64_one] [f64_one] true true.

Definition parallel_weights : list (list F64) :=
  match weight_mat (run_calls parallel_calls) with Some W => W | None => [] end.

Definition parallel_after_2 : Model :=
  match simulate_cpu (run_calls parallel_calls) 2 with
  | Some m => m
  | None => empty_model
  end.

(** One binary64 neuron with [leak=np.inf], state 0.5 and reset state 0. *)
Definition f64_params : Engine.Params (R := F64) :=
  {| Engine.neuron_thresholds := [f64_one];
     Engine.neuron_leaks := [f64_inf];
     Engine.neuron_reset_states := [f64_zero];
     Engine.neuron_refractory_periods_original := [0%Z];
     Engine.stdp_enabled_synapses := [];
     Engine.stdp_Apos := [];
     Engine.stdp_Aneg := [];
     Engine.stdp_positive_update := false;
     Engine.stdp_negative_update := false;
     Engine.do_positive_update := false;
     Engine.do_negative_update := false |}.

Definition f64_dyn : Engine.Dyn (R := F64) :=
  {| Engine.internal_states := [f64_lit 5 1];
     Engine.neuron_refractory_periods := [0%Z];
     Engine.spikes := [false];
     Engine.weights := [[f64_zero]];
     Engine.spike_train := [] |}.

(** Finite binary64 values (no infinity, no NaN), and the two zeros. *)
Definition f64_is_finite (x : F64) : bool :=
  match x with S754_zero _ | S754_finite _ _ _ => true | _ => false end.

Definition f64_is_zero (x : F64) : bool :=
  match x with S754_zero _ => true | _ => false end.

(** ** Further methods and derived quantities of [NeuromorphicModel] *)

(** [self._do_stdp] as [_setup] computes it. *)
Definition do_stdp (m : Model) : bool :=
  let anystdp := stdp m && existsb py_truthy (enable_stdp m) in
  anystdp && stdp_positive_update m && any_f64 (stdp_Apos m)
  || anystdp && stdp_negative_update m && any_f64 (stdp_Aneg m).

(** One pass of the loop of [setup_input_spikes] over a dict entry, as in
    the fold of [setup_input_spikes]. *)
Definition sis_step (T : nat) (acc : option (list (list F64)))
    (e : Z * (list Z * list PyVal)) : option (list (list F64)) :=
  match acc with
  | None => None
  | Some mat =>
      let '(t, (nids, vals)) := e in
      if (Z.of_nat T <? t)%Z then Some mat
      else
        match all_some (map (fun v => sum_to_option (py_float v)) vals) with
        | Some fs => assign_coords mat (repeat t (length nids)) nids fs
        | None => None
        end
  end.

(** [row[nids] = values] one pair after the other, into one row. *)
Fixpoint assign_row {A} (row : list A) (nids : list Z) (vals : list A) : option (list A) :=
  match nids, vals with
  | j :: nids', v :: vals' =>
      match list_set row j v with
      | Some row' => assign_row row' nids' vals'
      | None => None
      end
  | _, _ => Some row
  end.

(** The entries of tick [r] of the input dict, applied to one row. *)
Definition row_step (r : Z) (acc : option (list F64)) (e : Z * (list Z * list PyVal))
    : option (list F64) :=
  match acc with
  | None => None
  | Some row =>
      if Z.eqb (fst e) r then
        match all_some (map (fun v => sum_to_option (py_float v)) (snd (snd e))) with
        | Some fs => assign_row row (fst (snd e)) fs
        | None => None
        end
      else Some row
  end.

(** Row [r] of the input matrix of [setup_input_spikes], computed alone. *)
Definition input_row (n : nat) (d : list (Z * (list Z * list PyVal))) (r : Z)
    : option (list F64) :=
  fold_left (row_step r) d (Some (repeat f64_zero n)).

(** [l[i] = v] for an index in range. *)
Definition list_upd {A} (l : list A) (i : nat) (v : A) : list A :=
  firstn i l ++ [v] ++ skipn (S i) l.

(** What the ticks of a run keep true of the spike log from index [L0]
    on (the ticks the run appended): each logged vector has one entry per
    neuron; a neuron that spiked at a logged tick [k] still has at least
    [period - (ticks logged after k)] on its refractory counter; and it
    did not spike again within [period] ticks after [k]. *)
Definition refractory_log_ok {R : Type} `{Num R} (L0 : nat) (p : Engine.Params (R := R))
    (d : Engine.Dyn (R := R)) : Prop :=
  let train := Engine.spike_train d in
  let orig := Engine.neuron_refractory_periods_original p in
  (forall k, (L0 <= k < length train)%nat ->
     length (nth k train []) = length (Engine.internal_states d)) /\
  (forall k j, (L0 <= k < length train)%nat -> nth j (nth k train []) false = true ->
     (Engine.nthZ orig j - Z.of_nat (length train - 1 - k)
      <= Engine.nthZ (Engine.neuron_refractory_periods d) j)%Z) /\
  (forall k k' j, (L0 <= k)%nat -> (k < k')%nat -> (k' < length train)%nat ->
     nth j (nth k train []) false = true -> (Z.of_nat (k' - k) <= Engine.nthZ orig j)%Z ->
     nth j (nth k' train []) false = false).

(** The shape [add_spike] keeps the [input_spikes] dict in: distinct,
    non-negative ticks, and as many values as neuron ids under each. *)
Fixpoint input_wf (d : list (Z * (list Z * list PyVal))) : bool :=
  match d with
  | [] => true
  | (k, (ns, vs)) :: rest =>
      (0 <=? k)%Z && Nat.eqb (length ns) (length vs)
      && negb (existsb (fun e => Z.eqb (fst e) k) rest) && input_wf rest
  end.

(** The value [mat[pre_ids, post_ids] = vals] leaves at [(i, j)]: the
    last assignment to that coordinate, [dflt] when there is none. *)
Fixpoint coord_lookup {A : Type} (pre post : list Z) (vals : list A) (i j : Z) (dflt : A) : A :=
  match pre, post, vals with
  | p :: pre', q :: post', v :: vals' =>
      coord_lookup pre' post' vals' i j (if Z.eqb p i && Z.eqb q j then v else dflt)
  | _, _, _ => dflt
  end.

(** * Results *)

(** ** Concrete runs *)

(** C2: one neuron with [threshold=0, refractory_period=2] and the other
    parameters at their defaults, driven by spikes of amplitude 1, 3, 4, 1
    at ticks 1, 2, 3, 4, simulated for 10 ticks.  The cpu backend logs the
    spike train [0,1,0,0,1,0,0,0,0,0], and so does [simulate(10)] when
    numba is not installed.  When it is, [recommend(10)] scores
    [1 + 10 * 100 = 1001 > 1000] and picks the jit backend, which raises:
    [simulate(10)] logs nothing. *)
Theorem refractory_spike_train :
  option_map spike_train (simulate_cpu (run_calls refractory_calls) 10)
    = Some [[false]; [true]; [false]; [false]; [true];
            [false]; [false]; [false]; [false]; [false]] /\
  (forall gpu sim_gpu,
     option_map spike_train (simulate_auto gpu false sim_gpu (run_calls refractory_calls) 10)
     = Some [[false]; [true]; [false]; [false]; [true];
             [false]; [false]; [false]; [false]; [false]]) /\
  (forall gpu sim_gpu,
     recommend gpu true (run_calls refractory_calls) 10 = Jit /\
     simulate_auto gpu true sim_gpu (run_calls refractory_calls) 10 = None).
Proof.
  split; [vm_compute; reflexivity|].
  split; intros [] sim_gpu; vm_compute; [reflexivity | reflexivity | split; reflexivity ..].
Qed.

(** The tick loop of [simulate_cpu_jit] stops at its first tick. *)
Lemma run_tick_jit p inp d (T : nat) :
  (0 < T)%nat -> Engine.run tick_jit p inp d (seq 0 T) = None.
Proof. intros HT. destruct T as [|T]; [lia|]. reflexivity. Qed.

(** C1: the jit backend raises on every call with [time_steps > 0]:
    [simulate_cpu_jit] calls [lif_jit] without its four parameters
    [delays], [delayed_synapses], [synaptic_delaysT] and [delayed_spikes],
    none of which has a default (TypeError), or [check_numba] raises
    ImportError.  It yields no spike train and no weight matrix to compare
    with those of the cpu backend, which runs: on the association scenario
    it logs the spike train [[1,0],[0,1]]. *)
Theorem jit_backend_raises :
  lif_jit_missing = ["delays"; "delayed_synapses"; "synaptic_delaysT"; "delayed_spikes"]%string /\
  (forall numba m T, (0 < T)%nat -> simulate_cpu_jit numba m T = None) /\
  option_map spike_train (simulate_cpu (run_calls association_calls) 2)
    = Some [[true; false]; [false; true]].
Proof.
  split; [reflexivity|].
  split; [|vm_compute; reflexivity].
  intros [] m T HT; [|reflexivity].
  unfold simulate_cpu_jit, simulate_with.
  destruct (setup m) as [[p d]|]; [|reflexivity].
  destruct (setup_input_spikes m T) as [inp|]; [|reflexivity].
  rewrite run_tick_jit by exact HT. reflexivity.
Qed.

Lemma jit_backend_raises_witness :
  (0 < 2)%nat /\ simulate_cpu_jit true (run_calls association_calls) 2 = None.
Proof.
  split; [lia|].
  apply (proj1 (proj2 jit_backend_raises) true (run_calls association_calls) 2). lia.
Defined.

(** C5: after [simulate(1)] the cpu backend drops the spike scheduled at
    tick 0 and the jit backend raises before [consume_input_spikes]; but
    whatever the GPU kernels return, the write-back of [simulate_gpu]
    leaves the schedule as it was: the spike at tick 0 is still scheduled
    at tick 0 and is replayed by the next call. *)
Theorem gpu_keeps_consumed_input_spikes :
  option_map input_spikes (simulate_cpu (run_calls one_spike_calls) 1) = Some [] /\
  simulate_cpu_jit true (run_calls one_spike_calls) 1 = None /\
  (forall out states refr W do_stdp,
     input_spikes (simulate_gpu_writeback (run_calls one_spike_calls) out states refr W do_stdp)
     = [(0%Z, ([0%Z], [PyInt 1]))]).
Proof.
  split; [vm_compute; reflexivity|].
  split; [vm_compute; reflexivity|].
  intros out states refr W [|]; reflexivity.
Qed.

(** C6 (counterexample): a neuron with leak np.inf and reset state 0.0
    whose internal state is np.inf, with no input and no synapse, ends the
    tick of [simulate_cpu] at NaN: [inf - inf] is NaN and [np.maximum]
    propagates it. *)
Lemma leak_inf_from_inf_state_is_nan :
  option_map neuron_states (simulate_cpu (run_calls inf_state_calls) 1) = Some [S754_nan].
Proof. vm_compute. reflexivity. Qed.

(** C7: [create_neuron(reset_state="abc")] raises ValueError only at
    [float(reset_state)], after [neuron_thresholds] and [neuron_leaks] have
    been appended to; a digit string such as ["5"] is not rejected at all,
    and neither is [create_synapse(0, 0, stdp_enabled="yes")]. *)
Theorem create_neuron_bad_reset_state_mutates :
  create_neuron (PyFloat f64_zero) (PyFloat f64_inf) (PyStr "abc") (PyInt 0) (PyInt 0)
                (PyFloat f64_zero) empty_model
    = (set_neuron_leaks [f64_inf] (set_neuron_thresholds [f64_zero] empty_model),
       inl ValueError) /\
  snd (create_neuron (PyFloat f64_zero) (PyFloat f64_inf) (PyStr "5") (PyInt 0) (PyInt 0)
                     (PyFloat f64_zero) empty_model) = inr 0%Z /\
  snd (create_synapse (PyInt 0) (PyInt 0) (PyFloat f64_one) (PyInt 1) (PyStr "yes")
                      empty_model) = inr 0%Z.
Proof. split; [|split]; vm_compute; reflexivity. Qed.

(** C8: on a fresh model (both updates enabled, both kernels empty),
    assigning a one-element kernel through either setter raises TypeError
    from [resize_vec] and resizes nothing. *)
Theorem kernel_setters_raise :
  set_apos [f64_one] empty_model = (empty_model, inl TypeError) /\
  set_aneg [f64_one] empty_model = (empty_model, inl TypeError).
Proof. split; reflexivity. Qed.

(** ** Integers in float64 arrays *)

Lemma digits2_pos_size p : digits2_pos p = Pos.size p.
Proof. induction p; cbn; congruence. Qed.

Lemma size_bounds p : (2 ^ (Zpos (Pos.size p) - 1) <= Zpos p < 2 ^ Zpos (Pos.size p))%Z.
Proof.
  pose proof (Pos.size_gt p) as H1. pose proof (Pos.size_le p) as H2.
  change (Zpos p < Zpos (2 ^ Pos.size p))%Z in H1.
  change (Zpos (2 ^ Pos.size p) <= Zpos (p~0))%Z in H2.
  rewrite (Pos2Z.inj_xO p) in H2. rewrite Pos2Z.inj_pow in H1, H2.
  split; [|exact H1].
  assert (E : (2 ^ Zpos (Pos.size p) = 2 * 2 ^ (Zpos (Pos.size p) - 1))%Z).
  { rewrite <- Z.pow_succ_r by lia. f_equal. lia. }
  lia.
Qed.

Lemma size_eq p k : (0 <= k)%Z -> (2 ^ k <= Zpos p < 2 ^ (k + 1))%Z -> Zpos (Pos.size p) = (k + 1)%Z.
Proof.
  intros Hk [H1 H2]. pose proof (size_bounds p) as [B1 B2].
  destruct (Z.lt_trichotomy (Zpos (Pos.size p)) (k + 1)) as [Hl|[He|Hg]]; [|exact He|].
  - assert (2 ^ Zpos (Pos.size p) <= 2 ^ k)%Z by (apply Z.pow_le_mono_r; lia). lia.
  - assert (2 ^ (k + 1) <= 2 ^ (Zpos (Pos.size p) - 1))%Z by (apply Z.pow_le_mono_r; lia). lia.
Qed.

Lemma iter_xO p d : Zpos (Pos.iter xO p d) = (Zpos p * 2 ^ Zpos d)%Z.
Proof.
  induction d using Pos.peano_ind.
  - cbn. lia.
  - rewrite Pos.iter_succ, Pos2Z.inj_xO, IHd, Pos2Z.inj_succ, Z.pow_succ_r by lia. lia.
Qed.

(** A 53-bit mantissa at a representable exponent rounds to itself. *)
Lemma round_aux_exact (m : positive) (e : Z) :
  Zpos (Pos.size m) = 53%Z -> (-1074 <= e <= 971)%Z ->
  binary_round_aux prec emax false (Zpos m) e loc_Exact = S754_finite false m e.
Proof.
  intros Hm He. unfold binary_round_aux, shr_fexp. cbn [Zdigits2]. rewrite digits2_pos_size, Hm.
  assert (Hf : (fexp prec emax (53 + e) - e)%Z = 0%Z).
  { unfold fexp, emin, prec, emax. lia. }
  rewrite Hf. cbn [shr shr_record_of_loc shr_m loc_of_shr_record round_nearest_even Zdigits2].
  rewrite digits2_pos_size, Hm, Hf. cbn [shr shr_m].
  replace (e <=? emax - prec)%Z with true by (symmetry; apply Z.leb_le; unfold emax, prec; lia).
  reflexivity.
Qed.

Lemma f64_int_small (n : Z) : (0 <= n < 2 ^ 53)%Z -> f64_int n = Some n.
Proof.
  intros Hn. destruct n as [|p|p]; [reflexivity| |lia].
  unfold f64_int, f64_of_Z, binary_normalize, binary_round.
  rewrite digits2_pos_size.
  pose proof (size_bounds p) as [B1 B2].
  assert (Hs : (Zpos (Pos.size p) <= 53)%Z).
  { destruct (Z.le_gt_cases (Zpos (Pos.size p)) 53) as [H|H]; [exact H|].
    assert (2 ^ 53 <= 2 ^ (Zpos (Pos.size p) - 1))%Z by (apply Z.pow_le_mono_r; lia). lia. }
  assert (Hf : fexp prec emax (Zpos (Pos.size p) + 0) = (Zpos (Pos.size p) - 53)%Z).
  { unfold fexp, emin, prec, emax. lia. }
  rewrite Hf. unfold shl_align.
  destruct (Zpos (Pos.size p) - 53 - 0)%Z as [|d|d] eqn:Ed.
  - rewrite round_aux_exact by lia. cbn. f_equal. lia.
  - lia.
  - rewrite round_aux_exact.
    + cbn [f64_int_value cond_Zopp]. rewrite iter_xO.
      replace (0 <=? Zpos (Pos.size p) - 53)%Z with false by (symmetry; apply Z.leb_gt; lia).
      replace (- (Zpos (Pos.size p) - 53))%Z with (Zpos d) by lia.
      rewrite Z.div_mul by (apply Z.pow_nonzero; lia). reflexivity.
    + change 53%Z with (52 + 1)%Z. apply size_eq; [lia|]. rewrite iter_xO.
      replace (Zpos d) with (53 - Zpos (Pos.size p))%Z by lia.
      split.
      * replace 52%Z with ((Zpos (Pos.size p) - 1) + (53 - Zpos (Pos.size p)))%Z at 1 by lia.
        rewrite Z.pow_add_r by lia. apply Z.mul_le_mono_nonneg_r; [apply Z.pow_nonneg; lia | lia].
      * replace (52 + 1)%Z with (Zpos (Pos.size p) + (53 - Zpos (Pos.size p)))%Z by lia.
        rewrite Z.pow_add_r by lia. apply Z.mul_lt_mono_pos_r; [apply Z.pow_pos_nonneg; lia | lia].
    + lia.
Qed.

Lemma f64_int_exact (n : Z) : (0 <= n <= 2 ^ 53)%Z -> f64_int n = Some n.
Proof.
  intros Hn. destruct (Z.eq_dec n (2 ^ 53)) as [->|Hne]; [vm_compute; reflexivity|].
  apply f64_int_small. lia.
Qed.

Lemma round_aux_sign sx mx ex lx :
  match binary_round_aux prec emax sx mx ex lx with
  | S754_zero s | S754_infinity s | S754_finite s _ _ => s = sx
  | S754_nan => True
  end.
Proof.
  unfold binary_round_aux.
  destruct (shr_fexp prec emax mx ex lx) as [mrs e'].
  destruct (shr_fexp prec emax _ e' loc_Exact) as [mrs' e''].
  destruct (shr_m mrs') as [|m|m]; try reflexivity.
  destruct (e'' <=? emax - prec)%Z; reflexivity.
Qed.

Lemma value_nonneg (m : positive) (e : Z) :
  (0 <= cond_Zopp false (if (0 <=? e)%Z then Z.pos m * 2 ^ e else Z.pos m / 2 ^ (- e)))%Z.
Proof.
  unfold cond_Zopp. destruct (0 <=? e)%Z eqn:E.
  - apply Z.mul_nonneg_nonneg; [lia | apply Z.pow_nonneg; lia].
  - apply Z.leb_gt in E. apply Z.div_pos; [lia | apply Z.pow_pos_nonneg; lia].
Qed.

Lemma f64_int_nonneg (z v : Z) : (0 <= z)%Z -> f64_int z = Some v -> (0 <= v)%Z.
Proof.
  intros Hz. destruct z as [|p|p]; [cbn; congruence| |lia].
  unfold f64_int, f64_of_Z, binary_normalize, binary_round.
  destruct (shl_align _ _ _) as [mz ez].
  pose proof (round_aux_sign false (Zpos mz) ez loc_Exact) as Hs.
  destruct (binary_round_aux _ _ _ _ _ _) as [s|s| |s m e]; cbn [f64_int_value];
    intros Hv; try discriminate Hv.
  - injection Hv as <-. lia.
  - subst s. injection Hv as <-. apply value_nonneg.
Qed.

(** [c -= 1] on a float64 counter [0 < c <= 2^53] is exact. *)
Lemma f64_pred_int_exact (c : Z) : (0 < c <= 2 ^ 53)%Z -> f64_pred_int c = (c - 1)%Z.
Proof. intros Hc. unfold f64_pred_int. rewrite f64_int_exact by lia. reflexivity. Qed.

Lemma f64_pred_int_nonneg (c : Z) : (0 < c)%Z -> (0 <= f64_pred_int c)%Z.
Proof.
  intros Hc. unfold f64_pred_int.
  destruct (f64_int (c - 1)) as [v|] eqn:E; [|lia].
  exact (f64_int_nonneg (c - 1) v ltac:(lia) E).
Qed.

Lemma all_some_map_nonneg (l vs : list Z) :
  Forall (fun z => (0 <= z)%Z) l -> all_some (map f64_int l) = Some vs ->
  Forall (fun z => (0 <= z)%Z) vs.
Proof.
  revert vs. induction l as [|z l IH]; intros vs Hl Hs; cbn in Hs.
  - injection Hs as <-. constructor.
  - inversion Hl as [|? ? Hz Hl']; subst.
    destruct (f64_int z) as [v|] eqn:Ez; [|discriminate].
    destruct (all_some (map f64_int l)) as [vs'|] eqn:Er; [|discriminate].
    injection Hs as <-. constructor; [exact (f64_int_nonneg z v Hz Ez) | exact (IH vs' Hl' eq_refl)].
Qed.

(** The counters and periods [_setup] hands to the ticks: the model's,
    stored into float64 arrays. *)
Lemma setup_refractory (m : Model) p d :
  setup m = Some (p, d) ->
  all_some (map f64_int (neuron_refractory_periods m))
    = Some (Engine.neuron_refractory_periods_original p) /\
  all_some (map f64_int (neuron_refractory_periods_state m))
    = Some (Engine.neuron_refractory_periods d).
Proof.
  unfold setup.
  destruct (all_some (map f64_int (neuron_refractory_periods m))) as [orig|]; [|discriminate].
  destruct (all_some (map f64_int (neuron_refractory_periods_state m))) as [refr|]; [|discriminate].
  destruct (weight_mat m) as [W|]; [|discriminate].
  match goal with |- context [match ?mk with Some _ => _ | None => None end] =>
    destruct mk as [mask|] end; [|discriminate].
  intros Hs. injection Hs as <- <-. split; reflexivity.
Qed.

(** ** Refractory counters *)

Lemma nthZ_nonneg (l : list Z) (j : nat) :
  Forall (fun z => (0 <= z)%Z) l -> (0 <= Engine.nthZ l j)%Z.
Proof.
  unfold Engine.nthZ. revert j.
  induction l as [|x l IH]; intros j Hl; destruct j; cbn; try lia;
    inversion Hl; subst; auto.
Qed.

Lemma fire_elem_refr_nonneg {R : Type} `{Num R} (s thr reset : R) (refr orig : Z) :
  (0 <= refr)%Z -> (0 <= orig)%Z ->
  (0 <= Engine.res_refr (Engine.fire_elem s thr reset refr orig))%Z.
Proof.
  intros Hr Ho. unfold Engine.fire_elem, Engine.res_refr; cbn.
  destruct (Z.gtb refr 0) eqn:E; destruct (ngt s thr); cbn; try lia;
    apply Z.gtb_lt in E; apply f64_pred_int_nonneg; lia.
Qed.

(** The counters a tick leaves behind. *)
Lemma tick_refractory_periods {R : Type} `{Num R} p inp d tk d' :
  Engine.tick_cpu p inp d tk = Some d' ->
  Engine.neuron_refractory_periods d'
  = map Engine.res_refr (Engine.lif Engine.integrate_cpu p (nth tk inp []) d).
Proof.
  intros Hs. unfold Engine.tick_cpu in Hs.
  destruct (Engine.stdp_time_steps p); inversion Hs; reflexivity.
Qed.

(** C9 (amended): starting from nonnegative counters and nonnegative
    refractory periods, every tick of the cpu backend leaves the counters
    nonnegative (the jit backend raises before its first tick).  Per
    neuron: a positive counter [c] is decremented to [float(c - 1)] and
    suppresses the spike; the counter is set to the period exactly when
    the neuron spikes after the gate, and is otherwise left decremented or
    unchanged.  The period and the counters are the model's stored into
    float64 arrays by [_setup], so they are the model's integers rounded to
    binary64, which leaves every integer up to [2^53] as it is (and the
    decrement of a counter up to [2^53] exact); both are nonnegative when
    the model's are.  The GPU kernel's refractory stages as the
    specification describes them ([gpu_fire_elem]) keep the same
    invariant with an exact decrement. *)
Theorem refractory_counter_nonneg {R : Type} `{Num R} :
  (forall p inp d tk d',
     Forall (fun z => (0 <= z)%Z) (Engine.neuron_refractory_periods d) ->
     Forall (fun z => (0 <= z)%Z) (Engine.neuron_refractory_periods_original p) ->
     Engine.tick_cpu p inp d tk = Some d' ->
     Forall (fun z => (0 <= z)%Z) (Engine.neuron_refractory_periods d')) /\
  (forall s thr reset refr period,
     (0 <= refr)%Z -> (0 <= period)%Z ->
     let r := Engine.fire_elem s thr reset refr period in
     (0 <= Engine.res_refr r)%Z /\
     ((0 < refr)%Z -> Engine.res_spike r = false /\ Engine.res_refr r = f64_pred_int refr) /\
     (Engine.res_spike r = true -> Engine.res_refr r = period) /\
     (Engine.res_spike r = false ->
        Engine.res_refr r = if Z.gtb refr 0 then f64_pred_int refr else refr)) /\
  (forall m p d, setup m = Some (p, d) ->
     all_some (map f64_int (neuron_refractory_periods m))
       = Some (Engine.neuron_refractory_periods_original p) /\
     all_some (map f64_int (neuron_refractory_periods_state m))
       = Some (Engine.neuron_refractory_periods d)) /\
  (forall z v, (0 <= z)%Z -> f64_int z = Some v -> (0 <= v)%Z) /\
  (forall n, (0 <= n <= 2 ^ 53)%Z -> f64_int n = Some n) /\
  (forall c, (0 < c <= 2 ^ 53)%Z -> f64_pred_int c = (c - 1)%Z) /\
  (forall s thr reset refr period,
     (0 <= refr)%Z -> (0 <= period)%Z ->
     let r := Engine.gpu_fire_elem s thr reset refr period in
     (0 <= Engine.res_refr r)%Z /\
     ((0 < refr)%Z -> Engine.res_spike r = false /\ Engine.res_refr r = (refr - 1)%Z) /\
     (Engine.res_spike r = true -> Engine.res_refr r = period) /\
     (Engine.res_spike r = false ->
        Engine.res_refr r = if Z.gtb refr 0 then (refr - 1)%Z else refr)).
Proof.
  split; [|split; [|split; [|split; [|split; [|split]]]]].
  - intros p inp d tk d' Hd Hp Hs.
    rewrite (tick_refractory_periods p inp d tk d' Hs). unfold Engine.lif.
    rewrite map_map. apply Forall_forall. intros x Hx.
    apply in_map_iff in Hx. destruct Hx as [j [<- _]].
    apply fire_elem_refr_nonneg; apply nthZ_nonneg; assumption.
  - intros s thr reset refr period Hr Hp r. subst r.
    split; [apply fire_elem_refr_nonneg; assumption|].
    unfold Engine.fire_elem, Engine.res_refr, Engine.res_spike; cbn.
    destruct (Z.gtb refr 0) eqn:E; destruct (ngt s thr); cbn;
      repeat split; intros; try discriminate; try reflexivity;
      rewrite Z.gtb_ltb in E; apply Z.ltb_ge in E; lia.
  - exact setup_refractory.
  - exact f64_int_nonneg.
  - exact f64_int_exact.
  - exact f64_pred_int_exact.
  - intros s thr reset refr period Hr Hp r.
    subst r; unfold Engine.gpu_fire_elem, Engine.res_refr, Engine.res_spike; cbn;
      destruct (Z.gtb refr 0) eqn:E; destruct (ngt s thr); cbn;
      repeat split; intros; try discriminate; try lia;
      rewrite Z.gtb_ltb in E;
      first [apply Z.ltb_lt in E | apply Z.ltb_ge in E]; lia.
Qed.

Lemma refractory_counter_nonneg_witness :
  (exists d', Engine.tick_cpu z_params z_inputs z_dyn 0 = Some d' /\
              Forall (fun z => (0 <= z)%Z) (Engine.neuron_refractory_periods d')) /\
  Engine.res_refr (Engine.fire_elem 3%Z 0%Z 0%Z 1%Z 2%Z) = f64_pred_int 1 /\
  f64_int 5 = Some 5%Z /\ f64_pred_int 2 = 1%Z.
Proof.
  destruct (@refractory_counter_nonneg Z _) as [P1 [P2 [_ [_ [P5 [P6 _]]]]]].
  split; [|split; [|split]].
  - destruct (Engine.tick_cpu z_params z_inputs z_dyn 0) as [d'|] eqn:E.
    + exists d'. split; [reflexivity|].
      apply (P1 z_params z_inputs z_dyn 0 d');
        [repeat constructor; cbn; lia | repeat constructor; cbn; lia | exact E].
    + vm_compute in E. discriminate E.
  - destruct (P2 3%Z 0%Z 0%Z 1%Z 2%Z ltac:(lia) ltac:(lia)) as [_ [Hgate _]].
    exact (proj2 (Hgate ltac:(lia))).
  - apply P5. lia.
  - apply P6. lia.
Defined.

(** C9 (counterexample): above [2^53] the counters are rounded.  With
    [refractory_period=2**53 + 1] a spike sets the counter to [2^53] (the
    period stored into a float64 array), and a counter of [2^53 + 2] is
    decremented to [2^53]. *)
Lemma refractory_counter_rounding :
  neuron_refractory_periods (run_calls big_period_calls) = [(2 ^ 53 + 1)%Z] /\
  option_map spike_train (simulate_cpu (run_calls big_period_calls) 1) = Some [[true]] /\
  option_map neuron_refractory_periods_state (simulate_cpu (run_calls big_period_calls) 1)
    = Some [(2 ^ 53)%Z] /\
  neuron_refractory_periods_state (run_calls big_counter_calls) = [(2 ^ 53 + 2)%Z] /\
  option_map neuron_refractory_periods_state (simulate_cpu (run_calls big_counter_calls) 1)
    = Some [(2 ^ 53)%Z].
Proof. repeat split; vm_compute; reflexivity. Qed.

(** ** Previous-tick fired vector *)

(** C10: the working arrays [_setup] hands to the first tick of a
    [simulate] call take the previous fired vector from the last logged
    spike vector when the spike train is non-empty, and the zero (all
    [False]) vector otherwise; the integrate stage of that tick (with the
    cpu summation or any other) adds [weights.T @ spikes] built from exactly that
    vector. *)
Theorem setup_previous_spikes (m : Model) p d :
  setup m = Some (p, d) ->
  let prev := match spike_train m with
              | [] => repeat false (length (neuron_thresholds m))
              | _ => last (spike_train m) []
              end in
  Engine.spikes d = prev /\
  (forall inrow integrate,
    Engine.integrate_stage integrate p inrow d
    = map (fun j => integrate (Engine.nthR (Engine.leak_stage p d) j) (Engine.nthR inrow j)
                              (Engine.nthR (Engine.matvecT (Engine.weights d) prev) j))
          (seq 0 (length (Engine.leak_stage p d)))).
Proof.
  unfold setup.
  destruct (all_some (map f64_int (neuron_refractory_periods m))) as [orig|]; [|discriminate].
  destruct (all_some (map f64_int (neuron_refractory_periods_state m))) as [refr|]; [|discriminate].
  destruct (weight_mat m) as [W|]; [|discriminate].
  match goal with |- context [match ?mk with Some _ => _ | None => None end] =>
    destruct mk as [mask|] end; [|discriminate].
  intros Hs. injection Hs as <- <-. cbn zeta.
  split; [reflexivity|].
  intros inrow integrate. reflexivity.
Qed.

Lemma setup_previous_spikes_witness :
  exists p d, setup association_after_1 = Some (p, d) /\
              spike_train association_after_1 <> [] /\
              Engine.spikes d = [true; false].
Proof.
  destruct (setup association_after_1) as [[p d]|] eqn:E.
  - exists p, d. split; [reflexivity|]. split; [vm_compute; discriminate|].
    destruct (setup_previous_spikes association_after_1 p d E) as [Hsp _].
    rewrite Hsp. vm_compute. reflexivity.
  - vm_compute in E. discriminate E.
Defined.

(** ** Infinite leak *)

Lemma SFcompare_antisym (x y : F64) :
  SFcompare y x = option_map CompOpp (SFcompare x y).
Proof.
  destruct x as [sx|sx| | sx mx ex]; destruct y as [sy|sy| | sy my ey];
    try destruct sx; try destruct sy; cbn; try reflexivity;
    rewrite (Z.compare_antisym ex ey); destruct (Z.compare ex ey); cbn; try reflexivity;
    pose proof (Pos.compare_cont_antisym mx my Eq) as Hc; cbn in Hc; rewrite <- Hc;
    try rewrite CompOpp_involutive; reflexivity.
Qed.

Lemma SFcompare_finite_refl (x : F64) :
  f64_is_finite x = true -> SFcompare x x = Some Eq.
Proof.
  destruct x as [sx|sx| | sx mx ex]; cbn; try discriminate; intros _;
    try reflexivity; destruct sx; rewrite Z.compare_refl, Pos.compare_cont_refl; reflexivity.
Qed.

Lemma SFcompare_finite_some (x y : F64) :
  f64_is_finite x = true -> f64_is_finite y = true -> exists c, SFcompare x y = Some c.
Proof.
  destruct x as [sx|sx| | sx mx ex]; destruct y as [sy|sy| | sy my ey]; cbn;
    try discriminate; intros _ _; eexists; reflexivity.
Qed.

(** With [leak=np.inf] a finite state leaves the leak stage comparing equal
    to a finite reset state. *)
Lemma leak_inf_finite (s r : F64) :
  f64_is_finite s = true -> f64_is_finite r = true ->
  f64_is_finite (Engine.leak_elem s f64_inf r) = true /\
  SFcompare (Engine.leak_elem s f64_inf r) r = Some Eq.
Proof.
  intros Hs Hr. unfold Engine.leak_elem, Engine.np_maximum, Engine.np_minimum; cbn.
  assert (Hsub : f64_sub s f64_inf = S754_infinity true)
    by (destruct s as [[]|[]| |[] ? ?]; try discriminate; reflexivity).
  assert (Hadd : f64_add s f64_inf = f64_inf)
    by (destruct s as [[]|[]| |[] ? ?]; try discriminate; reflexivity).
  assert (Hrinf : SFcompare r (S754_infinity true) = Some Gt /\
                  SFcompare (S754_infinity false) r = Some Gt)
    by (destruct r as [[]|[]| |[] ? ?]; try discriminate; split; reflexivity).
  pose proof (SFcompare_finite_refl r Hr) as Hrr.
  destruct (SFcompare_finite_some s r Hs Hr) as [c Hc].
  unfold SFltb, SFleb. rewrite (SFcompare_antisym s r), Hc, Hsub.
  destruct Hrinf as [Hr1 Hr2].
  destruct c; cbn.
  - rewrite Hc. split; assumption.
  - rewrite Hc. cbn. rewrite Hadd. unfold f64_inf. rewrite Hr2. cbn. split; assumption.
  - rewrite Hr1. cbn. rewrite Hrr. split; assumption.
Qed.

Lemma add_zero_finite (a z : F64) :
  f64_is_finite a = true -> f64_is_zero z = true ->
  f64_is_finite (f64_add a z) = true /\
  (forall b, SFcompare (f64_add a z) b = SFcompare a b).
Proof.
  destruct a as [sa|sa| | sa ma ea]; destruct z as [sz|sz| |]; cbn; try discriminate;
    intros _ _; try destruct sa; try destruct sz; cbn;
    (split; [reflexivity | intros [[]|[]| |[] ? ?]; reflexivity]).
Qed.

Lemma add_zero_zero (i y : F64) :
  f64_is_zero i = true -> f64_is_zero y = true -> f64_is_zero (f64_add i y) = true.
Proof.
  destruct i as [[]|[]| |[] ? ?]; destruct y as [[]|[]| |[] ? ?]; cbn;
    try discriminate; reflexivity.
Qed.

Lemma zero_is_finite (z : F64) : f64_is_zero z = true -> f64_is_finite z = true.
Proof. destruct z; cbn; congruence. Qed.

Lemma nth_map_seq {A : Type} (f : nat -> A) (n j : nat) (x : A) :
  (j < n)%nat -> nth j (map f (seq 0 n)) x = f j.
Proof.
  intros Hj. rewrite nth_indep with (d' := f 0%nat) by (rewrite length_map, length_seq; lia).
  rewrite map_nth, seq_nth by lia. reflexivity.
Qed.

Lemma length_leak_stage {R : Type} `{Num R} p d :
  length (Engine.leak_stage p d) = length (Engine.internal_states d).
Proof. unfold Engine.leak_stage. rewrite length_map, length_seq. reflexivity. Qed.

Lemma length_integrate_stage {R : Type} `{Num R} integrate p inrow d :
  length (Engine.integrate_stage integrate p inrow d) = length (Engine.internal_states d).
Proof.
  unfold Engine.integrate_stage. rewrite length_map, length_seq. apply length_leak_stage.
Qed.

(** Entry [j] of the stages of one tick. *)
Lemma lif_nth {R : Type} `{Num R} integrate p inrow d j x :
  (j < length (Engine.internal_states d))%nat ->
  nth j (Engine.lif integrate p inrow d) x
  = Engine.fire_elem
      (integrate (Engine.leak_elem (Engine.nthR (Engine.internal_states d) j)
                                   (Engine.nthR (Engine.neuron_leaks p) j)
                                   (Engine.nthR (Engine.neuron_reset_states p) j))
                 (Engine.nthR inrow j)
                 (Engine.nthR (Engine.matvecT (Engine.weights d) (Engine.spikes d)) j))
      (Engine.nthR (Engine.neuron_thresholds p) j)
      (Engine.nthR (Engine.neuron_reset_states p) j)
      (Engine.nthZ (Engine.neuron_refractory_periods d) j)
      (Engine.nthZ (Engine.neuron_refractory_periods_original p) j).
Proof.
  intros Hj. unfold Engine.lif. rewrite nth_map_seq by (rewrite length_integrate_stage; exact Hj).
  f_equal. unfold Engine.nthR at 1, Engine.integrate_stage.
  rewrite nth_map_seq by (rewrite length_leak_stage; exact Hj).
  f_equal. unfold Engine.nthR at 1, Engine.leak_stage.
  rewrite nth_map_seq by exact Hj. reflexivity.
Qed.

(** C6 (amended): take a neuron with [leak=np.inf], a finite reset state
    and a finite internal state at the start of the tick, receiving no
    input (its input entry is a zero) and no synaptic contribution (its
    entry of [weights.T @ spikes] is a zero).  At the end of a tick of the
    cpu backend (the jit backend raises before its first tick), its state
    compares equal
    ([==]) to [reset_state], whether or not it fires.  The finiteness of
    the starting state is needed (an infinite state becomes NaN, see
    [leak_inf_from_inf_state_is_nan]). *)
Theorem leak_inf_stays_at_reset
    (p : Engine.Params) (inrow : list F64) (d : Engine.Dyn) (j : nat) :
  (j < length (Engine.internal_states d))%nat ->
  Engine.nthR (Engine.neuron_leaks p) j = f64_inf ->
  f64_is_finite (Engine.nthR (Engine.internal_states d) j) = true ->
  f64_is_finite (Engine.nthR (Engine.neuron_reset_states p) j) = true ->
  f64_is_zero (Engine.nthR inrow j) = true ->
  f64_is_zero (Engine.nthR (Engine.matvecT (Engine.weights d) (Engine.spikes d)) j) = true ->
  SFeqb (Engine.res_state (nth j (Engine.lif Engine.integrate_cpu p inrow d)
                              (f64_zero, 0%Z, false)))
        (Engine.nthR (Engine.neuron_reset_states p) j) = true.
Proof.
  intros Hj Hleak Hs Hr Hi Hy.
  rewrite lif_nth by exact Hj. rewrite Hleak.
  set (r := Engine.nthR (Engine.neuron_reset_states p) j) in *.
  set (s := Engine.nthR (Engine.internal_states d) j) in *.
  set (i := Engine.nthR inrow j) in *.
  set (y := Engine.nthR (Engine.matvecT (Engine.weights d) (Engine.spikes d)) j) in *.
  destruct (leak_inf_finite s r Hs Hr) as [HLf HLr].
  set (L := Engine.leak_elem s f64_inf r) in *.
  assert (Hsum : SFcompare (Engine.integrate_cpu L i y) r = Some Eq).
  { cbn. destruct (add_zero_finite L i HLf Hi) as [HLi HLi'].
    destruct (add_zero_finite (f64_add L i) y HLi Hy) as [_ HLy].
    rewrite HLy, HLi'. exact HLr. }
  revert Hsum. generalize (Engine.integrate_cpu L i y) as v. intros v Hsum.
  unfold Engine.fire_elem, Engine.res_state, SFeqb; cbn.
  destruct (Z.gtb _ 0); [| destruct (SFltb _ _)]; cbn;
    first [rewrite Hsum | rewrite (SFcompare_finite_refl r Hr)]; reflexivity.
Qed.

Lemma leak_inf_stays_at_reset_witness :
  SFeqb (Engine.res_state (nth 0 (Engine.lif Engine.integrate_cpu f64_params [f64_zero] f64_dyn)
                              (f64_zero, 0%Z, false))) f64_zero = true.
Proof.
  apply (leak_inf_stays_at_reset f64_params [f64_zero] f64_dyn 0); vm_compute; reflexivity.
Defined.

(** ** Delay expansion *)

Lemma create_synapse_unit_spec (a b w s : PyVal) (p q : Z) (m : Model) :
  unwrap_neuron a = PyInt p -> unwrap_neuron b = PyInt q ->
  (0 <= p)%Z -> (0 <= q)%Z -> isinstance_num w = true ->
  create_synapse_unit a b w s m
  = (fst (append_synapse p q w 1%Z s m), inr (num_synapses m)).
Proof.
  intros Ha Hb Hp Hq Hw.
  unfold create_synapse_unit, synapse_checks, int_arg. rewrite Ha, Hb, Hw.
  apply Z.leb_le in Hp. apply Z.leb_le in Hq.
  unfold bind, ret, lift, check, get, raise, modify, append_synapse; cbn.
  rewrite Hp, Hq. cbn. f_equal. f_equal.
  unfold num_synapses. cbn. rewrite length_app. cbn. lia.
Qed.

Lemma last_cons_default {A : Type} (x : A) (l : list A) (d d' : A) :
  last (x :: l) d = last (x :: l) d'.
Proof.
  revert x. induction l as [|y l IH]; intros x; [reflexivity|].
  change (last (y :: l) d = last (y :: l) d'). apply IH.
Qed.

Lemma relay_chain_spec (k : nat) : forall (m : Model) (pre_id : PyVal) (p : Z),
  unwrap_neuron pre_id = PyInt p -> (0 <= p)%Z ->
  exists v, relay_chain k pre_id m = (relay_chain_model m p k, inr v) /\
    unwrap_neuron v
    = PyInt (last (p :: map (fun i => (num_neurons m + Z.of_nat i)%Z) (seq 0 k)) p).
Proof.
  induction k as [|k IH]; intros m pre_id p Hu Hp.
  - exists pre_id. split; [|exact Hu].
    unfold relay_chain_model; cbn. rewrite !app_nil_r. destruct m; reflexivity.
  - cbn [relay_chain].
    set (m1 := fst (create_neuron_default m)).
    assert (Hn : create_neuron_default m = (m1, inr (num_neurons m))).
    { subst m1. unfold create_neuron_default, create_neuron. cbn. unfold ret.
      f_equal. f_equal. unfold num_neurons. cbn. rewrite length_app. cbn. lia. }
    unfold bind at 1. rewrite Hn.
    assert (HN : (0 <= num_neurons m)%Z) by (unfold num_neurons; lia).
    unfold bind at 1.
    rewrite (create_synapse_unit_spec pre_id (PyNeuron (num_neurons m)) (PyFloat f64_one) (PyBool false)
               p (num_neurons m) m1
               Hu eq_refl Hp HN eq_refl).
    destruct (IH (fst (append_synapse p (num_neurons m) (PyFloat f64_one) 1%Z (PyBool false) m1))
                 (PyNeuron (num_neurons m)) (num_neurons m) eq_refl HN) as [v [Hv Hvu]].
    exists v. rewrite Hv. split.
    + f_equal. subst m1. unfold relay_chain_model, num_neurons; cbn.
      rewrite !length_app. cbn.
      rewrite <- !app_assoc. cbn.
      rewrite <- seq_shift, map_map. cbn [map]. rewrite Z.add_0_r.
      rewrite (map_ext (fun i => (Z.of_nat (length (neuron_thresholds m) + 1) + Z.of_nat i)%Z)
                       (fun x => (Z.of_nat (length (neuron_thresholds m)) + Z.of_nat (S x))%Z))
        by (intros; lia).
      reflexivity.
    + rewrite Hvu. f_equal. subst m1. unfold num_neurons; cbn.
      rewrite length_app. cbn.
      rewrite <- seq_shift, map_map. cbn [map].
      rewrite Z.add_0_r.
      rewrite (map_ext (fun i => (Z.of_nat (length (neuron_thresholds m) + 1) + Z.of_nat i)%Z)
                       (fun x => (Z.of_nat (length (neuron_thresholds m)) + Z.of_nat (S x))%Z))
        by (intros; lia).
      clear Hv Hvu. destruct (map _ (seq 0 k)) as [|x l]; [reflexivity|].
      apply last_cons_default.
Qed.

Lemma last_nonneg (l : list Z) (p : Z) :
  Forall (fun z => (0 <= z)%Z) (p :: l) -> (0 <= last (p :: l) p)%Z.
Proof.
  revert p. induction l as [|y l IH]; intros p Hl; inversion Hl; subst; [assumption|].
  rewrite (last_cons_default p (y :: l) p y). apply IH. assumption.
Qed.

(** C3 (amended): a call [create_synapse(pre, post, weight, delay=d,
    stdp_enabled=s)] with [d > 1] (valid non-negative ids, a numeric
    weight) appends [d - 1] relay neurons, numbered from the current
    neuron count, with the [create_neuron()] defaults: threshold 0, reset
    state 0, refractory period 0, initial state 0 and leak [np.inf] (not
    0); and [d] synapses of delay 1 chaining [pre -> r0 -> ... -> post],
    the relay synapses with weight 1.0 and STDP off and the last one with
    [weight] and [s].  Nothing else of the model changes, and the index
    of the last synapse is returned. *)
Theorem create_synapse_delay_expansion (m : Model) (pre post d : Z)
    (weight stdp_enabled : PyVal) :
  (0 <= pre)%Z -> (0 <= post)%Z -> (1 < d)%Z -> isinstance_num weight = true ->
  create_synapse (PyInt pre) (PyInt post) weight (PyInt d) stdp_enabled m
  = (relay_expansion m pre post weight stdp_enabled d,
     inr (num_synapses m + d - 1)%Z).
Proof.
  intros Hpre Hpost Hd Hw.
  set (k := Z.to_nat (d - 1)).
  set (relays := map (fun i => (num_neurons m + Z.of_nat i)%Z) (seq 0 k)).
  assert (Hk : Z.of_nat k = (d - 1)%Z) by (subst k; lia).
  assert (Hrel : Forall (fun z => (0 <= z)%Z) (pre :: relays)).
  { constructor; [assumption|]. subst relays. apply Forall_forall.
    intros z Hz. apply in_map_iff in Hz. destruct Hz as [i [<- _]].
    unfold num_neurons. lia. }
  destruct (relay_chain_spec k m (PyInt pre) pre eq_refl Hpre) as [v [Hv Hvu]].
  assert (Hsy : synapse_checks (PyInt pre) (PyInt post) weight (PyInt d) m
                = (m, inr (pre, post, d))).
  { unfold synapse_checks, int_arg. cbn. rewrite Hw.
    apply Z.leb_le in Hpre. apply Z.leb_le in Hpost.
    assert (Hd' : (0 <? d)%Z = true) by (apply Z.ltb_lt; lia).
    unfold bind, ret, lift, check, raise. cbn. rewrite Hpre, Hpost, Hd'. reflexivity. }
  unfold create_synapse. unfold bind at 1. rewrite Hsy.
  replace (d =? 1)%Z with false by (symmetry; apply Z.eqb_neq; lia).
  fold k. unfold bind at 1. rewrite Hv.
  rewrite (create_synapse_unit_spec v (PyInt post) weight stdp_enabled
             (last (pre :: relays) pre) post (relay_chain_model m pre k)
             Hvu eq_refl (last_nonneg relays pre Hrel) Hpost Hw).
  f_equal.
  - unfold relay_expansion, relay_chain_model, append_synapse, modify; cbn.
    fold k. fold relays.
    assert (Hpl : firstn k (pre :: relays) ++ [last (pre :: relays) pre] = pre :: relays).
    { pose proof (@app_removelast_last Z (pre :: relays) pre ltac:(discriminate)) as E.
      rewrite removelast_firstn_len in E. cbn [length pred] in E.
      replace (length relays) with k in E
        by (subst relays; rewrite length_map, length_seq; reflexivity).
      symmetry. exact E. }
    cbn [last] in Hpl. rewrite <- !app_assoc, Hpl.
    rewrite repeat_cons. reflexivity.
  - f_equal. unfold num_synapses, relay_chain_model; cbn.
    rewrite length_app, length_firstn. cbn [length]. subst relays.
    rewrite length_map, length_seq. rewrite Nat.min_l by lia. lia.
Qed.

Lemma create_synapse_delay_expansion_witness :
  create_synapse (PyInt 0) (PyInt 0) (PyFloat f64_one) (PyInt 3) (PyBool true) empty_model
  = (relay_expansion empty_model 0 0 (PyFloat f64_one) (PyBool true) 3, inr 2%Z).
Proof.
  apply (create_synapse_delay_expansion empty_model 0 0 3 (PyFloat f64_one) (PyBool true));
    first [lia | reflexivity].
Defined.

(** C3, the relay leak: [create_synapse(0, 0, delay=2)] on a model with one
    default neuron adds one relay neuron, whose leak is [np.inf], not 0. *)
Lemma relay_neuron_leak_is_inf :
  neuron_leaks (fst (create_synapse (PyInt 0) (PyInt 0) (PyFloat f64_one) (PyInt 2)
                      (PyBool false) (fst (create_neuron_default empty_model))))
  = [f64_inf; f64_inf] /\ f64_inf <> f64_zero.
Proof. split; [vm_compute; reflexivity | discriminate]. Qed.

(** ** Weight matrices *)

Section Matrices.
Context {R : Type} {NR : Num R}.

Lemma mat_update_length (W : list (list R)) f :
  length (Engine.mat_update W f) = length W.
Proof. unfold Engine.mat_update. rewrite length_map, length_seq. reflexivity. Qed.


Lemma mat_update_square (W : list (list R)) f :
  Engine.is_square (Engine.mat_update W f) = true.
Proof.
  unfold Engine.is_square. apply forallb_forall. intros row Hrow.
  rewrite mat_update_length. unfold Engine.mat_update in Hrow.
  apply in_map_iff in Hrow. destruct Hrow as [a [<- _]].
  rewrite length_map, length_seq. apply Nat.eqb_refl.
Qed.

Lemma mat_update_entry (W : list (list R)) f a b :
  (a < length W)%nat -> (b < length W)%nat ->
  Engine.mat_entry (Engine.mat_update W f) a b = f a b (Engine.mat_entry W a b).
Proof.
  intros Ha Hb. unfold Engine.mat_entry at 1, Engine.mat_update.
  rewrite nth_map_seq by exact Ha. rewrite nth_map_seq by exact Hb. reflexivity.
Qed.


(** A step that updates every entry of a matrix by its own rule. *)
Definition entrywise (St : list (list R) -> list (list R)) (e : nat -> nat -> R -> R) : Prop :=
  forall W, length (St W) = length W /\
    (Engine.is_square W = true -> Engine.is_square (St W) = true) /\
    (forall a b, (a < length W)%nat -> (b < length W)%nat ->
       Engine.mat_entry (St W) a b = e a b (Engine.mat_entry W a b)).

Lemma entrywise_update (g : nat -> nat -> R -> R) :
  entrywise (fun W => Engine.mat_update W g) g.
Proof.
  intros W. split; [apply mat_update_length|]. split; [intros; apply mat_update_square|].
  apply mat_update_entry.
Qed.

Lemma entrywise_cond (c : bool) (g : nat -> nat -> R -> R) :
  entrywise (fun W => if c then Engine.mat_update W g else W)
            (fun a b w => if c then g a b w else w).
Proof.
  destruct c; [apply entrywise_update|].
  intros W. split; [reflexivity|]. split; [auto|]. reflexivity.
Qed.

Lemma entrywise_comp S1 e1 S2 e2 :
  entrywise S1 e1 -> entrywise S2 e2 ->
  entrywise (fun W => S2 (S1 W)) (fun a b w => e2 a b (e1 a b w)).
Proof.
  intros E1 E2 W. destruct (E1 W) as [L1 [Q1 N1]]. destruct (E2 (S1 W)) as [L2 [Q2 N2]].
  split; [congruence|]. split; [auto|].
  intros a b Ha Hb. rewrite N2 by lia. rewrite N1 by lia. reflexivity.
Qed.

(** A fold of entrywise steps is the fold of their entry rules. *)
Lemma fold_entrywise (F : list (list R) -> nat -> list (list R)) (e : nat -> nat -> nat -> R -> R)
    (l : list nat) :
  (forall i, entrywise (fun W => F W i) (e i)) ->
  forall W, length (fold_left F l W) = length W /\
    (Engine.is_square W = true -> Engine.is_square (fold_left F l W) = true) /\
    (forall a b, (a < length W)%nat -> (b < length W)%nat ->
       Engine.mat_entry (fold_left F l W) a b
       = fold_left (fun w i => e i a b w) l (Engine.mat_entry W a b)).
Proof.
  intros HS. induction l as [|i l IH]; intros W; cbn [fold_left].
  - split; [reflexivity|]. split; auto.
  - destruct (HS i W) as [L1 [Q1 N1]]. destruct (IH (F W i)) as [L2 [Q2 N2]].
    split; [congruence|]. split; [auto|].
    intros a b Ha Hb. rewrite N2 by lia. rewrite N1 by lia. reflexivity.
Qed.

End Matrices.

(** ** Index lemmas *)

Lemma list_eq_map_seq {A : Type} (L : list A) (t : nat) (h : nat -> A) (d : A) :
  length L = t -> (forall j, (j < t)%nat -> nth j L d = h j) -> L = map h (seq 0 t).
Proof.
  intros Hl Hn. apply nth_ext with (d := d) (d' := h 0%nat).
  - rewrite length_map, length_seq. exact Hl.
  - intros j Hj. rewrite map_nth, seq_nth by lia. apply Hn. lia.
Qed.





Lemma last_as_nth {A : Type} (l : list A) (d : A) : last l d = nth (length l - 1) l d.
Proof.
  induction l as [|x l IH]; [reflexivity|].
  destruct l as [|y l]; [reflexivity|].
  change (last (y :: l) d = nth (length (y :: l)) (x :: y :: l) d).
  rewrite IH. cbn [length]. replace (S (length l) - 1)%nat with (length l) by lia. reflexivity.
Qed.

(** ** STDP in exact arithmetic *)

Section ExactStdp.
Context {R : Type} {NR : Num R} {EN : ExactNum R}.

Lemma exact_semiring : semi_ring_theory nzero none nadd nmul eq.
Proof.
  constructor; intros;
    rewrite ?nadd_assoc, ?nmul_assoc;
    auto using nadd_comm, nmul_comm, nadd_0_r, nmul_0_l, nmul_1_l, nmul_add_distr_r.
  rewrite nadd_comm. apply nadd_0_r.
Qed.

Add Ring exact_ring : exact_semiring.





(** The scalar form of two conditional additions per lag. *)
Lemma fold_two_adds (c1 c2 : bool) (f g : nat -> R) (l : list nat) : forall w0,
  fold_left (fun w i => let w1 := if c1 then nadd w (f i) else w in
                        if c2 then nadd w1 (g i) else w1) l w0
  = nadd (nadd w0 (if c1 then Engine.sumR (map f l) else nzero))
         (if c2 then Engine.sumR (map g l) else nzero).
Proof.
  unfold Engine.sumR.
  induction l as [|i l IH]; intros w0; cbn [fold_left map fold_right].
  - destruct c1, c2; ring.
  - rewrite IH. destruct c1, c2; ring.
Qed.

Lemma stdp_rule_spec_entries p t train (W : list (list R)) :
  length (Engine.stdp_rule_spec p t train W) = length W /\
  (Engine.is_square W = true -> Engine.is_square (Engine.stdp_rule_spec p t train W) = true) /\
  (forall a b, (a < length W)%nat -> (b < length W)%nat ->
     Engine.mat_entry (Engine.stdp_rule_spec p t train W) a b
     = Engine.stdp_entry p t train a b (Engine.mat_entry W a b)).
Proof.
  unfold Engine.stdp_rule_spec.
  match goal with |- context [fold_left ?F (seq 0 t) W] =>
    destruct (fold_entrywise F
      (fun i a b w =>
         let w1 := if Engine.do_positive_update p
                   then nadd w (Engine.stdp_term p train true i a b) else w in
         if Engine.do_negative_update p
         then nadd w1 (Engine.stdp_term p train false i a b) else w1)
      (seq 0 t)) with (W := W) as [L [Q N]]
  end.
  - intros i. exact (entrywise_comp _ _ _ _ (entrywise_cond _ _) (entrywise_cond _ _)).
  - split; [exact L|]. split; [exact Q|].
    intros a b Ha Hb. rewrite N by assumption.
    unfold Engine.stdp_entry. apply fold_two_adds.
Qed.






Lemma rule_spec_square p t train (W : list (list R)) :
  Engine.is_square W = true -> Engine.is_square (Engine.stdp_rule_spec p t train W) = true.
Proof. intros Hs. apply (stdp_rule_spec_entries p t train W), Hs. Qed.




End ExactStdp.




(** * Further properties of the model *)


(** ** Lists and matrices updated by index *)

Lemma list_set_upd {A : Type} (l : list A) (i : Z) (v : A) :
  (0 <= i)%Z -> (Z.to_nat i < length l)%nat ->
  list_set l i v = Some (list_upd l (Z.to_nat i) v).
Proof.
  intros H1 H2. unfold list_set, list_upd.
  replace ((0 <=? i)%Z && (i <? Z.of_nat (length l))%Z) with true; [reflexivity|].
  symmetry. apply andb_true_intro. split; [apply Z.leb_le | apply Z.ltb_lt]; lia.
Qed.

Lemma list_set_out {A : Type} (l : list A) (i : Z) (v : A) :
  ~ ((0 <= i)%Z /\ (Z.to_nat i < length l)%nat) -> list_set l i v = None.
Proof.
  intros Hn. unfold list_set.
  destruct ((0 <=? i)%Z && (i <? Z.of_nat (length l))%Z) eqn:E; [|reflexivity].
  exfalso. apply Hn. apply andb_prop in E. destruct E as [E1 E2].
  apply Z.leb_le in E1. apply Z.ltb_lt in E2. lia.
Qed.

Lemma length_list_upd {A : Type} (l : list A) i v :
  (i < length l)%nat -> length (list_upd l i v) = length l.
Proof.
  intros Hi. unfold list_upd. rewrite !length_app, length_firstn, length_skipn.
  cbn [length]. lia.
Qed.

Lemma nth_list_upd {A : Type} (l : list A) i v j d :
  (i < length l)%nat -> nth j (list_upd l i v) d = if Nat.eqb j i then v else nth j l d.
Proof.
  intros Hi. unfold list_upd.
  assert (Hf : length (firstn i l) = i) by (rewrite length_firstn; lia).
  destruct (Nat.eqb_spec j i) as [->|Hne].
  - rewrite app_nth2 by lia. rewrite Hf, Nat.sub_diag. reflexivity.
  - destruct (Nat.lt_ge_cases j i) as [Hlt|Hge].
    + rewrite app_nth1 by lia. rewrite nth_firstn.
      replace (j <? i)%nat with true by (symmetry; apply Nat.ltb_lt; lia). reflexivity.
    + rewrite app_nth2 by lia. rewrite Hf.
      replace (j - i)%nat with (S (j - S i)) by lia. cbn [app nth].
      rewrite nth_skipn. f_equal. lia.
Qed.

Lemma list_upd_same {A : Type} (l : list A) i d :
  (i < length l)%nat -> list_upd l i (nth i l d) = l.
Proof.
  intros Hi. apply nth_ext with (d := d) (d' := d); [apply length_list_upd; exact Hi|].
  intros j _. rewrite nth_list_upd by exact Hi.
  destruct (Nat.eqb_spec j i) as [->|]; reflexivity.
Qed.

Lemma list_upd_twice {A : Type} (l : list A) i v w :
  (i < length l)%nat -> list_upd (list_upd l i v) i w = list_upd l i w.
Proof.
  intros Hi. assert (Hl : length (list_upd l i v) = length l) by (apply length_list_upd; exact Hi).
  apply nth_ext with (d := v) (d' := v).
  - rewrite !length_list_upd by lia. reflexivity.
  - intros j _. rewrite !nth_list_upd by lia.
    destruct (Nat.eqb j i); reflexivity.
Qed.

Lemma nth_error_nth_lt {A : Type} (l : list A) i d :
  (i < length l)%nat -> nth_error l i = Some (nth i l d).
Proof.
  revert i. induction l as [|x l IH]; intros [|i] Hi; cbn in *; try lia; try reflexivity.
  apply IH. lia.
Qed.

(** [mat[t][nids] = values] for one row [t] in range. *)
Lemma assign_coords_repeat {A : Type} (mat : list (list A)) (t : Z) (nids : list Z)
    (vals : list A) :
  (0 <= t)%Z -> (Z.to_nat t < length mat)%nat ->
  assign_coords mat (repeat t (length nids)) nids vals
  = match assign_row (nth (Z.to_nat t) mat []) nids vals with
    | Some row => Some (list_upd mat (Z.to_nat t) row)
    | None => None
    end.
Proof.
  intros Ht. revert mat vals. induction nids as [|j nids IH]; intros mat vals Hl.
  - cbn. rewrite list_upd_same by exact Hl. reflexivity.
  - destruct vals as [|v vals].
    + cbn. rewrite list_upd_same by exact Hl. reflexivity.
    + cbn [repeat length assign_coords assign_row]. unfold mat_set.
      rewrite (nth_error_nth_lt mat (Z.to_nat t) []) by exact Hl.
      destruct (list_set (nth (Z.to_nat t) mat []) j v) as [row1|] eqn:E1; [|reflexivity].
      rewrite list_set_upd by assumption.
      rewrite IH by (rewrite length_list_upd; assumption).
      rewrite nth_list_upd by assumption. rewrite Nat.eqb_refl.
      destruct (assign_row row1 nids vals); [|reflexivity].
      rewrite list_upd_twice by exact Hl. reflexivity.
Qed.

(** ** [all_some] *)

Lemma all_some_app {A : Type} (l1 l2 : list (option A)) :
  all_some (l1 ++ l2)
  = match all_some l1, all_some l2 with Some a, Some b => Some (a ++ b) | _, _ => None end.
Proof.
  induction l1 as [|[x|] l1 IH]; cbn.
  - destruct (all_some l2); reflexivity.
  - rewrite IH. destruct (all_some l1), (all_some l2); reflexivity.
  - reflexivity.
Qed.

Lemma all_some_length {A : Type} (l : list (option A)) xs :
  all_some l = Some xs -> length xs = length l.
Proof.
  revert xs. induction l as [|[x|] l IH]; cbn; intros xs H.
  - injection H as <-. reflexivity.
  - destruct (all_some l) as [r|] eqn:E; [|discriminate].
    injection H as <-. cbn. f_equal. apply IH. reflexivity.
  - discriminate.
Qed.

Lemma all_some_In_None {A : Type} (l : list (option A)) :
  In None l -> all_some l = None.
Proof.
  induction l as [|[x|] l IH]; cbn; intros H.
  - contradiction.
  - destruct H as [H|H]; [discriminate|]. rewrite (IH H). reflexivity.
  - reflexivity.
Qed.

Lemma all_some_map_Some {A B : Type} (g : A -> B) (l : list A) :
  all_some (map (fun x => Some (g x)) l) = Some (map g l).
Proof. induction l as [|x l IH]; cbn; [reflexivity|]. rewrite IH. reflexivity. Qed.

(** ** The input matrix, row by row *)

Lemma sis_step_some T mat t nids vals :
  sis_step T (Some mat) (t, (nids, vals))
  = if (Z.of_nat T <? t)%Z then Some mat
    else match all_some (map (fun v => sum_to_option (py_float v)) vals) with
         | Some fs => assign_coords mat (repeat t (length nids)) nids fs
         | None => None
         end.
Proof. reflexivity. Qed.

Lemma row_step_some r row t nids vals :
  row_step r (Some row) (t, (nids, vals))
  = if Z.eqb t r then
      match all_some (map (fun v => sum_to_option (py_float v)) vals) with
      | Some fs => assign_row row nids fs
      | None => None
      end
    else Some row.
Proof. reflexivity. Qed.

Lemma fold_sis_step_none T d : fold_left (sis_step T) d None = None.
Proof. induction d; cbn; auto. Qed.

Lemma fold_row_step_none r d : fold_left (row_step r) d None = None.
Proof. induction d; cbn; auto. Qed.

Lemma sis_rows_gen T d : forall mat,
  forallb (fun e => (0 <=? fst e)%Z) d = true -> length mat = S T ->
  fold_left (sis_step T) d (Some mat)
  = all_some (map (fun r => fold_left (row_step (Z.of_nat r)) d (Some (nth r mat [])))
                  (seq 0 (S T))).
Proof.
  induction d as [|[t [nids vals]] d IH]; intros mat Hk Hl.
  - cbn [fold_left]. rewrite (all_some_map_Some (fun r => nth r mat [])).
    f_equal. rewrite <- Hl. apply list_eq_map_seq with (d := []); [reflexivity|].
    intros; reflexivity.
  - cbn [forallb fst] in Hk. apply andb_prop in Hk. destruct Hk as [Ht Hk].
    apply Z.leb_le in Ht. cbn [fold_left]. rewrite sis_step_some.
    destruct (Z.ltb_spec (Z.of_nat T) t) as [Hbig|Hsmall].
    + rewrite IH by assumption. f_equal. apply map_ext_in. intros r Hr.
      apply in_seq in Hr. rewrite row_step_some.
      replace (Z.eqb t (Z.of_nat r)) with false by (symmetry; apply Z.eqb_neq; lia).
      reflexivity.
    + assert (Hin : In (Z.to_nat t) (seq 0 (S T))) by (apply in_seq; lia).
      destruct (all_some (map (fun v => sum_to_option (py_float v)) vals)) as [fs|] eqn:Efs.
      * rewrite assign_coords_repeat by lia.
        destruct (assign_row (nth (Z.to_nat t) mat []) nids fs) as [row|] eqn:Erow.
        -- rewrite IH by (try assumption; rewrite length_list_upd; lia).
           f_equal. apply map_ext_in. intros r Hr. apply in_seq in Hr.
           rewrite nth_list_upd by lia. rewrite row_step_some.
           destruct (Nat.eqb_spec r (Z.to_nat t)) as [->|Hne].
           ++ rewrite Z2Nat.id by lia. rewrite Z.eqb_refl, Efs, Erow. reflexivity.
           ++ replace (Z.eqb t (Z.of_nat r)) with false by (symmetry; apply Z.eqb_neq; lia).
              reflexivity.
        -- rewrite fold_sis_step_none. symmetry. apply all_some_In_None.
           apply in_map_iff. exists (Z.to_nat t). split; [|exact Hin].
           rewrite row_step_some, Z2Nat.id by lia. rewrite Z.eqb_refl, Efs, Erow.
           apply fold_row_step_none.
      * rewrite fold_sis_step_none. symmetry. apply all_some_In_None.
        apply in_map_iff. exists (Z.to_nat t). split; [|exact Hin].
        rewrite row_step_some, Z2Nat.id by lia. rewrite Z.eqb_refl, Efs.
        apply fold_row_step_none.
Qed.

(** [setup_input_spikes] builds each row from the dict entries of its tick
    alone, when no tick is negative. *)
Lemma setup_input_spikes_rows m T :
  forallb (fun e => (0 <=? fst e)%Z) (input_spikes m) = true ->
  setup_input_spikes m T
  = all_some (map (fun r => input_row (length (neuron_thresholds m)) (input_spikes m) (Z.of_nat r))
                  (seq 0 (S T))).
Proof.
  intros Hk.
  change (setup_input_spikes m T)
    with (fold_left (sis_step T) (input_spikes m)
                    (Some (zeros_mat f64_zero (S T) (length (neuron_thresholds m))))).
  rewrite sis_rows_gen by (try assumption; unfold zeros_mat; apply repeat_length).
  f_equal. apply map_ext_in. intros r Hr. apply in_seq in Hr. unfold input_row, zeros_mat.
  rewrite nth_indep with (d' := repeat f64_zero (length (neuron_thresholds m)))
    by (rewrite repeat_length; lia).
  rewrite nth_repeat. reflexivity.
Qed.



(** Consuming [T1] ticks of scheduled input and then [T2 >= 0] more is
    consuming [T1 + T2] ticks at once: the spikes of the first [T1 + T2]
    ticks are dropped, and the later ones are shifted by [T1 + T2], in
    their dict order. *)
Theorem consume_input_spikes_compose (T1 T2 : Z) (d : list (Z * (list Z * list PyVal))) :
  (0 <= T2)%Z ->
  consume_input_spikes T2 (consume_input_spikes T1 d) = consume_input_spikes (T1 + T2) d.
Proof.
  intros H2. unfold consume_input_spikes.
  induction d as [|[t v] d IH]; [reflexivity|].
  cbn [filter fst]. destruct (Z.leb_spec T1 t) as [H1|H1].
  - cbn [map filter fst]. destruct (Z.leb_spec T2 (t - T1)) as [H3|H3];
      destruct (Z.leb_spec (T1 + T2) t) as [H4|H4]; try lia.
    + cbn [map fst snd]. rewrite IH. f_equal. f_equal. lia.
    + exact IH.
  - destruct (Z.leb_spec (T1 + T2) t) as [H4|H4]; [lia|]. exact IH.
Qed.

Lemma consume_input_spikes_compose_witness :
  consume_input_spikes 2 (consume_input_spikes 1 [(0%Z, ([0%Z], [PyInt 1])); (4%Z, ([1%Z], [PyInt 2]))])
  = consume_input_spikes 3 [(0%Z, ([0%Z], [PyInt 1])); (4%Z, ([1%Z], [PyInt 2]))].
Proof. apply (consume_input_spikes_compose 1 2); lia. Defined.

(** ** Runs of the engine *)

Section Runs.
Context {R : Type} `{Num R}.

Local Abbreviation Step :=
  (Engine.Params (R := R) -> list (list R) -> Engine.Dyn (R := R) -> nat -> option (Engine.Dyn (R := R))).




(** What one tick of the cpu backend writes. *)
Lemma tick_shape (step : Step) (p : Engine.Params) (inp : list (list R)) (d : Engine.Dyn) tk d' :
  step = Engine.tick_cpu ->
  step p inp d tk = Some d' ->
  exists integrate,
    Engine.internal_states d' = map Engine.res_state (Engine.lif integrate p (nth tk inp []) d) /\
    Engine.neuron_refractory_periods d'
      = map Engine.res_refr (Engine.lif integrate p (nth tk inp []) d) /\
    Engine.spikes d' = map Engine.res_spike (Engine.lif integrate p (nth tk inp []) d) /\
    Engine.spike_train d'
      = Engine.spike_train d ++ [map Engine.res_spike (Engine.lif integrate p (nth tk inp []) d)] /\
    (Engine.do_positive_update p = false -> Engine.do_negative_update p = false ->
     Engine.weights d' = Engine.weights d).
Proof.
  intros -> Ht.
  unfold Engine.tick_cpu in Ht. destruct (Engine.stdp_time_steps p); [|discriminate].
  injection Ht as <-. exists Engine.integrate_cpu. cbn.
  repeat split. intros Hp Hn. rewrite Hp, Hn. reflexivity.
Qed.

Lemma length_lif integrate (p : Engine.Params) inrow (d : Engine.Dyn) :
  length (Engine.lif integrate p inrow d) = length (Engine.internal_states d).
Proof.
  unfold Engine.lif. rewrite length_map, length_seq. apply length_integrate_stage.
Qed.


Lemma fire_elem_spike_refr (s thr reset : R) (refr orig : Z) :
  (Engine.res_spike (Engine.fire_elem s thr reset refr orig) = true ->
   (refr <= 0)%Z /\ Engine.res_refr (Engine.fire_elem s thr reset refr orig) = orig) /\
  ((refr <= 2 ^ 53)%Z ->
   Engine.res_spike (Engine.fire_elem s thr reset refr orig) = false ->
   (refr - 1 <= Engine.res_refr (Engine.fire_elem s thr reset refr orig))%Z).
Proof.
  unfold Engine.fire_elem, Engine.res_spike, Engine.res_refr; cbn.
  destruct (Z.gtb refr 0) eqn:E; destruct (ngt s thr); cbn;
    rewrite Z.gtb_ltb in E; first [apply Z.ltb_lt in E | apply Z.ltb_ge in E];
    (split; [intros Hs | intros Hb Hs]); try discriminate; try split; try reflexivity; try lia;
    rewrite f64_pred_int_exact by lia; lia.
Qed.

(** Counters in [0, 2^53] stay there when the periods are there too. *)
Lemma fire_elem_refr_ok (s thr reset : R) (refr orig : Z) :
  (0 <= refr <= 2 ^ 53)%Z -> (0 <= orig <= 2 ^ 53)%Z ->
  (0 <= Engine.res_refr (Engine.fire_elem s thr reset refr orig) <= 2 ^ 53)%Z.
Proof.
  intros Hr Ho.
  pose proof (fire_elem_refr_nonneg s thr reset refr orig ltac:(lia) ltac:(lia)) as Hn.
  split; [exact Hn|]. revert Hn.
  unfold Engine.fire_elem, Engine.res_refr; cbn.
  destruct (Z.gtb refr 0) eqn:E; destruct (ngt s thr); cbn; intros Hn; try lia;
    rewrite Z.gtb_ltb in E; apply Z.ltb_lt in E; rewrite f64_pred_int_exact by lia; lia.
Qed.

Lemma nthZ_ok (l : list Z) (j : nat) :
  Forall (fun z => (0 <= z <= 2 ^ 53)%Z) l -> (0 <= Engine.nthZ l j <= 2 ^ 53)%Z.
Proof.
  unfold Engine.nthZ. revert j.
  induction l as [|x l IH]; intros j Hl; destruct j; cbn; try lia;
    inversion Hl; subst; auto.
Qed.

Lemma tick_counters_ok (step : Step) (p : Engine.Params) inp (d : Engine.Dyn) tk d' :
  step = Engine.tick_cpu -> step p inp d tk = Some d' ->
  Forall (fun z => (0 <= z <= 2 ^ 53)%Z) (Engine.neuron_refractory_periods_original p) ->
  Forall (fun z => (0 <= z <= 2 ^ 53)%Z) (Engine.neuron_refractory_periods d) ->
  Forall (fun z => (0 <= z <= 2 ^ 53)%Z) (Engine.neuron_refractory_periods d').
Proof.
  intros -> Ht Ho Hd. rewrite (tick_refractory_periods p inp d tk d' Ht). unfold Engine.lif.
  rewrite map_map. apply Forall_forall. intros x Hx.
  apply in_map_iff in Hx. destruct Hx as [j [<- _]].
  apply fire_elem_refr_ok; apply nthZ_ok; assumption.
Qed.


(** Neuron [j] in one tick: a spike needs an empty refractory counter and
    sets it to the period; otherwise a counter up to [2^53] drops by at
    most 1. *)
Lemma tick_neuron integrate (p : Engine.Params) inrow (d : Engine.Dyn) j :
  (j < length (Engine.internal_states d))%nat ->
  let res := Engine.lif integrate p inrow d in
  (nth j (map Engine.res_spike res) false = true ->
   (Engine.nthZ (Engine.neuron_refractory_periods d) j <= 0)%Z /\
   Engine.nthZ (map Engine.res_refr res) j
   = Engine.nthZ (Engine.neuron_refractory_periods_original p) j) /\
  ((Engine.nthZ (Engine.neuron_refractory_periods d) j <= 2 ^ 53)%Z ->
   nth j (map Engine.res_spike res) false = false ->
   (Engine.nthZ (Engine.neuron_refractory_periods d) j - 1
    <= Engine.nthZ (map Engine.res_refr res) j)%Z).
Proof.
  intros Hj res.
  assert (Hl : (j < length res)%nat) by (unfold res; rewrite length_lif; exact Hj).
  set (x0 := (nzero, 0%Z, false) : R * Z * bool).
  assert (E1 : nth j (map Engine.res_spike res) false = Engine.res_spike (nth j res x0)).
  { rewrite nth_indep with (d' := Engine.res_spike x0) by (rewrite length_map; exact Hl).
    apply map_nth. }
  assert (E2 : Engine.nthZ (map Engine.res_refr res) j = Engine.res_refr (nth j res x0)).
  { unfold Engine.nthZ.
    rewrite nth_indep with (d' := Engine.res_refr x0) by (rewrite length_map; exact Hl).
    apply map_nth. }
  rewrite E1, E2. unfold res. rewrite lif_nth by exact Hj. apply fire_elem_spike_refr.
Qed.

Lemma spike_in_range (row : list bool) j :
  nth j row false = true -> (j < length row)%nat.
Proof.
  intros Hs. destruct (Nat.lt_ge_cases j (length row)) as [Hl|Hg]; [exact Hl|].
  rewrite nth_overflow in Hs by exact Hg. discriminate.
Qed.

Lemma refractory_step (step : Step) (p : Engine.Params) inp (d : Engine.Dyn) tk d' L0 :
  step = Engine.tick_cpu ->
  step p inp d tk = Some d' ->
  Forall (fun z => (0 <= z <= 2 ^ 53)%Z) (Engine.neuron_refractory_periods d) ->
  refractory_log_ok L0 p d -> refractory_log_ok L0 p d'.
Proof.
  intros Hs Ht Hb [Hrows [Hcnt Hexc]].
  destruct (tick_shape step p inp d tk d' Hs Ht) as [integ [Hst [Hrf [_ [Htr _]]]]].
  set (res := Engine.lif integ p (nth tk inp []) d) in *.
  set (L := length (Engine.spike_train d)).
  assert (Hlr : length res = length (Engine.internal_states d)) by apply length_lif.
  assert (Hn' : length (Engine.internal_states d') = length (Engine.internal_states d))
    by (rewrite Hst, length_map; exact Hlr).
  assert (HL' : length (Engine.spike_train d') = S L)
    by (rewrite Htr, length_app; cbn [length]; unfold L; lia).
  assert (Hold : forall k, (k < L)%nat ->
            nth k (Engine.spike_train d') [] = nth k (Engine.spike_train d) []).
  { intros k Hk. rewrite Htr. apply app_nth1. exact Hk. }
  assert (Hnew : nth L (Engine.spike_train d') [] = map Engine.res_spike res).
  { rewrite Htr. rewrite app_nth2 by (unfold L; lia). unfold L. rewrite Nat.sub_diag. reflexivity. }
  unfold refractory_log_ok. cbv zeta. rewrite HL', Hn', Hrf.
  split; [|split].
  - intros k Hk. destruct (Nat.eq_dec k L) as [->|Hne].
    + rewrite Hnew, length_map. exact Hlr.
    + rewrite Hold by lia. apply Hrows. unfold L in *. lia.
  - intros k j Hk Hsp. destruct (Nat.eq_dec k L) as [->|Hne].
    + rewrite Hnew in Hsp. pose proof (spike_in_range _ _ Hsp) as Hj.
      rewrite length_map, Hlr in Hj.
      destruct (tick_neuron integ p (nth tk inp []) d j Hj) as [Hyes _]. fold res in Hyes.
      destruct (Hyes Hsp) as [_ ->]. lia.
    + rewrite Hold in Hsp by lia.
      assert (Hk' : (L0 <= k < L)%nat) by (unfold L in *; lia).
      pose proof (Hrows k Hk') as Hrk. pose proof (spike_in_range _ _ Hsp) as Hj.
      rewrite Hrk in Hj. pose proof (Hcnt k j Hk' Hsp) as Hc.
      destruct (tick_neuron integ p (nth tk inp []) d j Hj) as [Hyes Hno].
      fold res in Hyes, Hno.
      destruct (nth j (map Engine.res_spike res) false) eqn:Esp.
      * destruct (Hyes eq_refl) as [_ ->]. lia.
      * specialize (Hno (proj2 (nthZ_ok _ j Hb)) eq_refl). fold L in Hc. lia.
  - intros k k' j Hk Hkk Hk' Hsp Hper. destruct (Nat.eq_dec k' L) as [->|Hne].
    + rewrite Hold in Hsp by lia. rewrite Hnew.
      assert (Hk2 : (L0 <= k < L)%nat) by lia.
      pose proof (Hrows k Hk2) as Hrk. pose proof (spike_in_range _ _ Hsp) as Hj.
      rewrite Hrk in Hj. pose proof (Hcnt k j Hk2 Hsp) as Hc.
      destruct (tick_neuron integ p (nth tk inp []) d j Hj) as [Hyes _]. fold res in Hyes.
      destruct (nth j (map Engine.res_spike res) false) eqn:Esp; [|reflexivity].
      destruct (Hyes eq_refl) as [Hle _]. fold L in Hc. lia.
    + rewrite !Hold in * by lia. apply (Hexc k k' j); try assumption; lia.
Qed.

Lemma refractory_run (step : Step) (p : Engine.Params) inp L0 :
  step = Engine.tick_cpu ->
  Forall (fun z => (0 <= z <= 2 ^ 53)%Z) (Engine.neuron_refractory_periods_original p) ->
  forall l d d', Engine.run step p inp d l = Some d' ->
  Forall (fun z => (0 <= z <= 2 ^ 53)%Z) (Engine.neuron_refractory_periods d) ->
  refractory_log_ok L0 p d -> refractory_log_ok L0 p d'.
Proof.
  intros Hs Ho l. induction l as [|tk l IH]; intros d d' Hr Hb Hok; cbn in Hr.
  - injection Hr as <-. exact Hok.
  - destruct (step p inp d tk) as [d1|] eqn:E; [|discriminate].
    apply (IH d1 d' Hr (tick_counters_ok step p inp d tk d1 Hs E Ho Hb)).
    exact (refractory_step step p inp d tk d1 L0 Hs E Hb Hok).
Qed.

Lemma refractory_log_start (p : Engine.Params) (d : Engine.Dyn) :
  refractory_log_ok (length (Engine.spike_train d)) p d.
Proof.
  unfold refractory_log_ok. cbv zeta.
  split; [intros k Hk; lia | split; [intros k j Hk; lia | intros k k' j Hk Hkk Hk'; lia]].
Qed.

End Runs.

(** ** [_setup], [devec] and the simulation calls *)

Lemma setup_shape m p d :
  setup m = Some (p, d) ->
  Engine.internal_states d = neuron_states m /\
  all_some (map f64_int (neuron_refractory_periods_state m))
    = Some (Engine.neuron_refractory_periods d) /\
  Engine.spike_train d = spike_train m /\
  Engine.spikes d = match spike_train m with
                    | [] => repeat false (length (neuron_thresholds m))
                    | _ => last (spike_train m) []
                    end /\
  weight_mat m = Some (Engine.weights d) /\
  all_some (map f64_int (neuron_refractory_periods m))
    = Some (Engine.neuron_refractory_periods_original p) /\
  (Engine.do_positive_update p || Engine.do_negative_update p) = do_stdp m.
Proof.
  intros Hs. unfold setup in Hs.
  destruct (all_some (map f64_int (neuron_refractory_periods m))) as [orig|]; [|discriminate].
  destruct (all_some (map f64_int (neuron_refractory_periods_state m))) as [refr|];
    [|discriminate].
  destruct (weight_mat m) as [W|] eqn:EW; [|discriminate].
  cbv zeta in Hs.
  match type of Hs with
  | context [match ?x with Some _ => _ | None => _ end] => destruct x as [mask|]
  end; [|discriminate].
  injection Hs as <- <-. cbn. repeat split; reflexivity.
Qed.

(** Integers in [0, 2^53] are stored into float64 arrays as they are. *)
Lemma all_some_f64_int_exact (l : list Z) :
  Forall (fun z => (0 <= z <= 2 ^ 53)%Z) l -> all_some (map f64_int l) = Some l.
Proof.
  induction l as [|z l IH]; intros Hl; [reflexivity|].
  inversion Hl as [|? ? Hz Hl']; subst. cbn.
  rewrite f64_int_exact by exact Hz. rewrite (IH Hl'). reflexivity.
Qed.

Lemma forallb_counters (l : list Z) :
  forallb (fun z => (0 <=? z)%Z && (z <=? 2 ^ 53)%Z) l = true ->
  Forall (fun z => (0 <= z <= 2 ^ 53)%Z) l.
Proof.
  intros H. apply Forall_forall. intros z Hz.
  rewrite forallb_forall in H. specialize (H z Hz).
  apply andb_true_iff in H. destruct H as [H1 H2].
  apply Z.leb_le in H1. apply Z.leb_le in H2. lia.
Qed.

(** With periods and counters in [0, 2^53], [_setup] hands them to the
    ticks unchanged. *)
Lemma setup_exact m p d :
  Forall (fun z => (0 <= z <= 2 ^ 53)%Z) (neuron_refractory_periods m) ->
  Forall (fun z => (0 <= z <= 2 ^ 53)%Z) (neuron_refractory_periods_state m) ->
  setup m = Some (p, d) ->
  Engine.neuron_refractory_periods_original p = neuron_refractory_periods m /\
  Engine.neuron_refractory_periods d = neuron_refractory_periods_state m.
Proof.
  intros Hp Hc Hs. destruct (setup_refractory m p d Hs) as [E1 E2].
  rewrite all_some_f64_int_exact in E1, E2 by assumption.
  injection E1 as ->. injection E2 as ->. split; reflexivity.
Qed.


Lemma devec_nostdp m (p : Engine.Params) d :
  Engine.do_positive_update p = false -> Engine.do_negative_update p = false ->
  devec m p d
  = set_spike_train (Engine.spike_train d)
      (set_neuron_refractory_periods_state (Engine.neuron_refractory_periods d)
        (set_neuron_states (Engine.internal_states d) m)).
Proof. intros H1 H2. unfold devec. rewrite H1, H2. reflexivity. Qed.

Ltac devec_field := unfold devec; destruct (_ || _); reflexivity.

Lemma simulate_shape (step : Engine.Params (R := F64) -> list (list F64) -> Engine.Dyn -> nat -> option Engine.Dyn)
    m T m' :
  simulate_with (fun p inp d T => Engine.run step p inp d (seq 0 T)) m T = Some m' ->
  exists p d inp d', setup m = Some (p, d) /\ setup_input_spikes m T = Some inp /\
    Engine.run step p inp d (seq 0 T) = Some d' /\
    m' = set_input_spikes (consume_input_spikes (Z.of_nat T) (input_spikes m)) (devec m p d').
Proof.
  unfold simulate_with. destruct (setup m) as [[p d]|]; [|discriminate].
  destruct (setup_input_spikes m T) as [inp|]; [|discriminate].
  destruct (Engine.run step p inp d (seq 0 T)) as [d'|] eqn:E; [|discriminate].
  intros Hm. injection Hm as <-. exists p, d, inp, d'. repeat split; assumption.
Qed.

Lemma simulate_cpu_with m T :
  simulate_cpu m T = simulate_with (fun p inp d T => Engine.run Engine.tick_cpu p inp d (seq 0 T)) m T.
Proof. reflexivity. Qed.

Lemma cpu_step_cases :
  exists step, step = Engine.tick_cpu /\
    forall m T, simulate_cpu m T = simulate_with (fun p inp d T => Engine.run step p inp d (seq 0 T)) m T.
Proof. exists Engine.tick_cpu. split; [reflexivity | intros; reflexivity]. Qed.

Section Runs2.
Context {R : Type} `{Num R}.

Local Abbreviation Step :=
  (Engine.Params (R := R) -> list (list R) -> Engine.Dyn (R := R) -> nat -> option (Engine.Dyn (R := R))).


(** A run of [k] ticks appends [k] spike vectors, one entry per neuron,
    and keeps the number of neurons. *)
Lemma run_growth (step : Step) (p : Engine.Params) inp :
  step = Engine.tick_cpu ->
  forall l d d', Engine.run step p inp d l = Some d' ->
  (exists rows, Engine.spike_train d' = Engine.spike_train d ++ rows /\
     length rows = length l /\
     Forall (fun row => length row = length (Engine.internal_states d)) rows) /\
  length (Engine.internal_states d') = length (Engine.internal_states d).
Proof.
  intros Hs l. induction l as [|tk l IH]; intros d d' Hr; cbn in Hr.
  - injection Hr as <-. split; [exists []; rewrite app_nil_r; repeat split; constructor | reflexivity].
  - destruct (step p inp d tk) as [d1|] eqn:E; [|discriminate].
    destruct (tick_shape step p inp d tk d1 Hs E) as [integ [Hst [_ [_ [Ht1 _]]]]].
    assert (Hl1 : length (Engine.internal_states d1) = length (Engine.internal_states d))
      by (rewrite Hst, length_map; apply length_lif).
    destruct (IH d1 d' Hr) as [[rows [Htr [Hlen Hall]]] Hl'].
    split; [|congruence].
    exists (map Engine.res_spike (Engine.lif integ p (nth tk inp []) d) :: rows).
    rewrite Htr, Ht1, <- app_assoc. split; [reflexivity|]. split; [cbn; congruence|].
    constructor; [rewrite length_map; apply length_lif|].
    rewrite Hl1 in Hall. exact Hall.
Qed.

(** A neuron whose refractory counter is [c] when a run starts stays
    silent in the first [c] ticks of the run. *)
Lemma run_initial_silence (step : Step) (p : Engine.Params) inp :
  step = Engine.tick_cpu ->
  Forall (fun z => (0 <= z <= 2 ^ 53)%Z) (Engine.neuron_refractory_periods_original p) ->
  forall l d d' i j, Engine.run step p inp d l = Some d' ->
  Forall (fun z => (0 <= z <= 2 ^ 53)%Z) (Engine.neuron_refractory_periods d) ->
  (i < length l)%nat -> (j < length (Engine.internal_states d))%nat ->
  (Z.of_nat i < Engine.nthZ (Engine.neuron_refractory_periods d) j)%Z ->
  nth j (nth (length (Engine.spike_train d) + i) (Engine.spike_train d') []) false = false.
Proof.
  intros Hs Ho l. induction l as [|tk l IH]; intros d d' i j Hr Hb Hi Hj Hc; cbn in Hi; [lia|].
  cbn in Hr. destruct (step p inp d tk) as [d1|] eqn:E; [|discriminate].
  destruct (tick_shape step p inp d tk d1 Hs E) as [integ [Hst [Hrf [_ [Ht1 _]]]]].
  set (res := Engine.lif integ p (nth tk inp []) d) in *.
  destruct (tick_neuron integ p (nth tk inp []) d j Hj) as [Hyes Hno]. fold res in Hyes, Hno.
  assert (Hsil : nth j (map Engine.res_spike res) false = false).
  { destruct (nth j (map Engine.res_spike res) false); [|reflexivity].
    destruct (Hyes eq_refl) as [Hle _]. lia. }
  destruct i as [|i].
  - destruct (run_growth step p inp Hs l d1 d' Hr) as [[rows [Htr _]] _].
    rewrite Htr, Ht1, <- app_assoc, Nat.add_0_r, app_nth2 by lia.
    rewrite Nat.sub_diag. exact Hsil.
  - assert (Hj1 : (j < length (Engine.internal_states d1))%nat)
      by (rewrite Hst, length_map; unfold res; rewrite length_lif; exact Hj).
    assert (Hc1 : (Z.of_nat i < Engine.nthZ (Engine.neuron_refractory_periods d1) j)%Z)
      by (rewrite Hrf; specialize (Hno (proj2 (nthZ_ok _ j Hb)) Hsil); lia).
    pose proof (IH d1 d' i j Hr (tick_counters_ok step p inp d tk d1 Hs E Ho Hb)
                   ltac:(lia) Hj1 Hc1) as Hrow.
    rewrite Ht1, length_app in Hrow. cbn [length] in Hrow.
    replace (length (Engine.spike_train d) + S i)%nat
      with (length (Engine.spike_train d) + 1 + i)%nat by lia.
    exact Hrow.
Qed.

End Runs2.






(** A neuron that spikes at a tick of a simulation stays silent for its
    [refractory_period] ticks after it: if the spike vector the call
    logged at index [k] of [spike_train] has neuron [j] spiking, the one at
    any later index [k'] with [k' - k <= neuron_refractory_periods[j]] has
    it silent; on the cpu backend, whatever the weights, the input and the
    STDP settings, for refractory periods and counters in [0, 2^53]
    (which the float64 arrays of [_setup] hold as they are). *)
Theorem simulate_refractory_silence m T m' k k' j :
  Forall (fun z => (0 <= z <= 2 ^ 53)%Z) (neuron_refractory_periods m) ->
  Forall (fun z => (0 <= z <= 2 ^ 53)%Z) (neuron_refractory_periods_state m) ->
  simulate_cpu m T = Some m' ->
  (length (spike_train m) <= k)%nat -> (k < k')%nat -> (k' < length (spike_train m'))%nat ->
  nth j (nth k (spike_train m') []) false = true ->
  (Z.of_nat (k' - k) <= nth j (neuron_refractory_periods m) 0)%Z ->
  nth j (nth k' (spike_train m') []) false = false.
Proof.
  intros Hpm Hcm Hm Hk Hkk Hk' Hsp Hper.
  destruct cpu_step_cases as [step [Hstep Heq]]. rewrite Heq in Hm.
  destruct (simulate_shape step m T m' Hm) as [p [d [inp [d' [Hs [_ [Hr ->]]]]]]].
  destruct (setup_shape m p d Hs) as [_ [_ [Htr _]]].
  destruct (setup_exact m p d Hpm Hcm Hs) as [Horig Hcnt].
  destruct (refractory_run step p inp (length (Engine.spike_train d)) Hstep
              ltac:(rewrite Horig; exact Hpm) (seq 0 T) d d' Hr
              ltac:(rewrite Hcnt; exact Hcm)
              (refractory_log_start p d)) as [_ [_ Hexc]].
  assert (Etr : spike_train (set_input_spikes (consume_input_spikes (Z.of_nat T) (input_spikes m))
                                              (devec m p d')) = Engine.spike_train d')
    by devec_field.
  rewrite Etr in *. apply (Hexc k k' j); try assumption.
  - rewrite Htr. exact Hk.
  - unfold Engine.nthZ. rewrite Horig. exact Hper.
Qed.

Lemma simulate_refractory_silence_witness :
  nth 0 (nth 3 (spike_train refractory_after_6) []) false = false.
Proof.
  apply (simulate_refractory_silence (run_calls refractory_calls) 6
           refractory_after_6 1 3 0);
    [apply forallb_counters; vm_compute; reflexivity
    | apply forallb_counters; vm_compute; reflexivity
    | vm_compute; reflexivity | vm_compute; lia | lia | vm_compute; lia
    | vm_compute; reflexivity | apply Z.leb_le; vm_compute; reflexivity].
Defined.

(** A simulation of [T] ticks on the cpu backend appends
    exactly [T] spike vectors to [spike_train], each with one entry per
    neuron state, and keeps the number of neuron states; the neuron
    parameters and the synapse endpoints, delays and STDP flags are left
    as they were. *)
Theorem simulate_appends_spike_train m T m' :
  simulate_cpu m T = Some m' ->
  (exists rows, spike_train m' = spike_train m ++ rows /\ length rows = T /\
     Forall (fun row => length row = length (neuron_states m)) rows) /\
  length (neuron_states m') = length (neuron_states m) /\
  neuron_thresholds m' = neuron_thresholds m /\ neuron_leaks m' = neuron_leaks m /\
  neuron_reset_states m' = neuron_reset_states m /\
  neuron_refractory_periods m' = neuron_refractory_periods m /\
  pre_synaptic_neuron_ids m' = pre_synaptic_neuron_ids m /\
  post_synaptic_neuron_ids m' = post_synaptic_neuron_ids m /\
  synaptic_delays m' = synaptic_delays m /\ enable_stdp m' = enable_stdp m.
Proof.
  intros Hm.
  destruct cpu_step_cases as [step [Hstep Heq]]. rewrite Heq in Hm.
  destruct (simulate_shape step m T m' Hm) as [p [d [inp [d' [Hs [_ [Hr ->]]]]]]].
  destruct (setup_shape m p d Hs) as [Hst [_ [Htr _]]].
  destruct (run_growth step p inp Hstep (seq 0 T) d d' Hr) as [[rows [Ht [Hl Hall]]] Hn].
  rewrite length_seq in Hl. rewrite Hst in Hall, Hn.
  split; [exists rows; split; [|split; assumption]|].
  { rewrite <- Htr, <- Ht. devec_field. }
  split; [rewrite <- Hn; devec_field|].
  repeat split; devec_field.
Qed.

Lemma simulate_appends_spike_train_witness :
  (exists rows, spike_train refractory_after_6 = spike_train (run_calls refractory_calls) ++ rows /\
     length rows = 6%nat /\
     Forall (fun row => length row = length (neuron_states (run_calls refractory_calls))) rows) /\
  length (neuron_states refractory_after_6) = length (neuron_states (run_calls refractory_calls)) /\
  neuron_thresholds refractory_after_6 = neuron_thresholds (run_calls refractory_calls) /\
  neuron_leaks refractory_after_6 = neuron_leaks (run_calls refractory_calls) /\
  neuron_reset_states refractory_after_6 = neuron_reset_states (run_calls refractory_calls) /\
  neuron_refractory_periods refractory_after_6
    = neuron_refractory_periods (run_calls refractory_calls) /\
  pre_synaptic_neuron_ids refractory_after_6 = pre_synaptic_neuron_ids (run_calls refractory_calls) /\
  post_synaptic_neuron_ids refractory_after_6
    = post_synaptic_neuron_ids (run_calls refractory_calls) /\
  synaptic_delays refractory_after_6 = synaptic_delays (run_calls refractory_calls) /\
  enable_stdp refractory_after_6 = enable_stdp (run_calls refractory_calls).
Proof.
  apply (simulate_appends_spike_train (run_calls refractory_calls) 6 refractory_after_6);
    vm_compute; reflexivity.
Defined.

(** When [_setup] finds no STDP update to do ([stdp] off, no synapse with
    STDP enabled, or only all-zero kernels for the enabled update kinds), a
    simulation on the cpu backend leaves [synaptic_weights] as they
    were. *)
Theorem simulate_nostdp_keeps_weights m T m' :
  do_stdp m = false ->
  simulate_cpu m T = Some m' ->
  synaptic_weights m' = synaptic_weights m.
Proof.
  intros Hd Hm.
  destruct cpu_step_cases as [step [Hstep Heq]]. rewrite Heq in Hm.
  destruct (simulate_shape step m T m' Hm) as [p [d [inp [d' [Hs [_ [_ ->]]]]]]].
  destruct (setup_shape m p d Hs) as [_ [_ [_ [_ [_ [_ Ef]]]]]].
  rewrite Hd in Ef. apply orb_false_iff in Ef. destruct Ef as [Ep En].
  rewrite devec_nostdp by assumption. reflexivity.
Qed.

Lemma simulate_nostdp_keeps_weights_witness :
  synaptic_weights association_after_1 = synaptic_weights (run_calls association_calls).
Proof.
  apply (simulate_nostdp_keeps_weights (run_calls association_calls) 1 association_after_1);
    vm_compute; reflexivity.
Defined.

(** ** [add_spike] and the input matrix *)

Lemma assign_row_snoc {A : Type} (row : list A) ns fs j f :
  length ns = length fs ->
  assign_row row (ns ++ [j]) (fs ++ [f])
  = match assign_row row ns fs with Some r => list_set r j f | None => None end.
Proof.
  revert row fs. induction ns as [|j0 ns IH]; intros row [|f0 fs] Hl; cbn in Hl; try discriminate.
  - cbn. destruct (list_set row j f); reflexivity.
  - cbn [app assign_row]. destruct (list_set row j0 f0); [|reflexivity].
    apply IH. lia.
Qed.

Lemma existsb_dict_add_spike d t nid v k :
  existsb (fun e => Z.eqb (fst e) k) (dict_add_spike d t nid v)
  = existsb (fun e => Z.eqb (fst e) k) d || Z.eqb t k.
Proof.
  induction d as [|[k' [ns vs]] d IH]; cbn [dict_add_spike existsb fst].
  - rewrite orb_false_r. reflexivity.
  - destruct (Z.eqb_spec k' t) as [->|Hne]; cbn [existsb fst].
    + destruct (Z.eqb t k); cbn; [reflexivity|]. rewrite orb_false_r. reflexivity.
    + rewrite IH, orb_assoc. reflexivity.
Qed.

Lemma input_wf_dict_add_spike d t nid v :
  input_wf d = true -> (0 <= t)%Z -> input_wf (dict_add_spike d t nid v) = true.
Proof.
  intros Hw Ht. induction d as [|[k [ns vs]] d IH]; cbn [dict_add_spike].
  - cbn. apply Z.leb_le in Ht. rewrite Ht. reflexivity.
  - cbn [input_wf] in Hw. apply andb_prop in Hw as [Hw Hr].
    apply andb_prop in Hw as [Hw Hn]. apply andb_prop in Hw as [Hk Hl].
    destruct (Z.eqb_spec k t) as [->|Hne]; cbn [input_wf].
    + rewrite !length_app. cbn [length]. apply Nat.eqb_eq in Hl. rewrite Hl, Nat.eqb_refl.
      rewrite Hk, Hn, Hr. reflexivity.
    + rewrite existsb_dict_add_spike, IH by exact Hr.
      replace (Z.eqb t k) with false by (symmetry; apply Z.eqb_neq; lia).
      rewrite orb_false_r, Hk, Hl, Hn. reflexivity.
Qed.

Lemma input_wf_keys_nonneg d :
  input_wf d = true -> forallb (fun e => (0 <=? fst e)%Z) d = true.
Proof.
  induction d as [|[k [ns vs]] d IH]; cbn; [reflexivity|]. intros Hw.
  apply andb_prop in Hw as [Hw Hr]. apply andb_prop in Hw as [Hw _].
  apply andb_prop in Hw as [Hk _]. rewrite Hk, IH by exact Hr. reflexivity.
Qed.

Lemma fold_row_step_skip r d acc :
  existsb (fun e => Z.eqb (fst e) r) d = false -> fold_left (row_step r) d acc = acc.
Proof.
  revert acc. induction d as [|e d IH]; intros acc H; [reflexivity|].
  cbn [existsb] in H. apply orb_false_iff in H as [He Hd]. cbn [fold_left].
  rewrite IH by exact Hd. destruct acc as [row|]; [|reflexivity].
  unfold row_step. rewrite He. reflexivity.
Qed.

(** Row [r] of the input matrix after [dict_add_spike]: row [t] gets the
    new assignment after those it had, the other rows are as before. *)
Lemma row_add_spike d t nid v r : input_wf d = true -> forall acc,
  fold_left (row_step r) (dict_add_spike d t nid v) acc
  = if Z.eqb r t then
      match fold_left (row_step r) d acc with
      | Some row => match sum_to_option (py_float v) with
                    | Some f => list_set row nid f
                    | None => None
                    end
      | None => None
      end
    else fold_left (row_step r) d acc.
Proof.
  induction d as [|[k [ns vs]] d IH]; intros Hw acc.
  - cbn [dict_add_spike fold_left]. destruct acc as [row|].
    + unfold row_step. cbn [fst snd map all_some].
      destruct (Z.eqb_spec t r), (Z.eqb_spec r t); try lia.
      * destruct (py_float v); cbn; [reflexivity|]. destruct (list_set row nid f); reflexivity.
      * reflexivity.
    + destruct (Z.eqb r t); reflexivity.
  - cbn [input_wf] in Hw. apply andb_prop in Hw as [Hw Hr].
    apply andb_prop in Hw as [Hw Hn]. apply andb_prop in Hw as [_ Hl].
    apply negb_true_iff in Hn. apply Nat.eqb_eq in Hl.
    cbn [dict_add_spike]. destruct (Z.eqb_spec k t) as [Ekt|Hne]; [subst k|].
    + cbn [fold_left]. destruct (Z.eqb_spec r t) as [Ert|Hrt]; [subst r|].
      * rewrite !fold_row_step_skip by exact Hn.
        destruct acc as [row|]; [|reflexivity]. unfold row_step. cbn [fst snd].
        rewrite Z.eqb_refl, map_app, all_some_app.
        destruct (all_some (map (fun v0 => sum_to_option (py_float v0)) vs)) as [fs|] eqn:Efs;
          [|reflexivity].
        cbn [map all_some]. destruct (py_float v) as [e|f]; cbn [sum_to_option].
        -- destruct (assign_row row ns fs); reflexivity.
        -- rewrite assign_row_snoc; [reflexivity|].
           rewrite (all_some_length _ _ Efs), length_map. exact Hl.
      * f_equal. destruct acc as [row|]; [|reflexivity]. unfold row_step. cbn [fst].
        replace (Z.eqb t r) with false by (symmetry; apply Z.eqb_neq; lia). reflexivity.
    + cbn [fold_left]. apply IH. exact Hr.
Qed.

(** Changing one row, in range, of a matrix built row by row. *)
Lemma all_some_map_seq_upd {A : Type} (g g' : nat -> option A) (h : A -> option A) i :
  (forall r, r <> i -> g' r = g r) -> g' i = match g i with Some x => h x | None => None end ->
  forall k b M, all_some (map g (seq b k)) = Some M ->
  all_some (map g' (seq b k))
  = if (b <=? i) && (i <? b + k) then
      match nth_error M (i - b) with
      | Some x => match h x with Some y => Some (list_upd M (i - b) y) | None => None end
      | None => None
      end
    else Some M.
Proof.
  intros Hne Hi k. induction k as [|k IH]; intros b M HM.
  - cbn in HM. injection HM as <-. cbn [seq map all_some].
    destruct (Nat.leb_spec b i), (Nat.ltb_spec i (b + 0)); try lia; reflexivity.
  - cbn [seq map all_some] in HM |- *.
    destruct (g b) as [x|] eqn:Eg; [|discriminate].
    destruct (all_some (map g (seq (S b) k))) as [M'|] eqn:EM; [|discriminate].
    injection HM as <-.
    destruct (Nat.eq_dec b i) as [<-|Hbi].
    + rewrite Hi, Eg. rewrite Nat.leb_refl, Nat.sub_diag.
      replace (b <? b + S k) with true by (symmetry; apply Nat.ltb_lt; lia). cbn [andb nth_error].
      replace (all_some (map g' (seq (S b) k))) with (Some M').
      2: { rewrite <- EM. f_equal. apply map_ext_in. intros r Hr. apply in_seq in Hr.
           symmetry. apply Hne. lia. }
      destruct (h x); reflexivity.
    + rewrite (Hne b Hbi), Eg, (IH (S b) M' EM).
      destruct (Nat.leb_spec (S b) i) as [Hlt|Hge].
      * replace (b <=? i) with true by (symmetry; apply Nat.leb_le; lia).
        replace (i <? b + S k) with (i <? S b + k) by (f_equal; lia). cbn [andb].
        destruct (i <? S b + k); [|reflexivity].
        replace (i - b) with (S (i - S b)) by lia. cbn [nth_error].
        destruct (nth_error M' (i - S b)) as [y|]; [|reflexivity].
        destruct (h y); reflexivity.
      * replace (b <=? i) with false by (symmetry; apply Nat.leb_gt; lia). reflexivity.
Qed.

Lemma add_spike_success time neuron_id value m m' :
  add_spike time neuron_id value m = (m', inr tt) ->
  exists t nid, py_int time = inr t /\ py_int (unwrap_neuron neuron_id) = inr nid /\
    (0 <= t)%Z /\ (0 <= nid)%Z /\ isinstance_num value = true /\
    m' = set_input_spikes (dict_add_spike (input_spikes m) t nid value) m.
Proof.
  unfold add_spike, bind, lift, check, ret, raise, modify.
  destruct (is_intlike time) as [e|[|]]; try discriminate.
  destruct (py_int time) as [e|t]; try discriminate.
  destruct (is_intlike (unwrap_neuron neuron_id)) as [e|[|]]; try discriminate.
  destruct (py_int (unwrap_neuron neuron_id)) as [e|nid]; try discriminate.
  destruct (isinstance_num value) eqn:Ev; try discriminate.
  destruct (Z.leb_spec 0 t); try discriminate.
  destruct (Z.leb_spec 0 nid); try discriminate.
  intros Hm. injection Hm as <-. exists t, nid. repeat split; assumption.
Qed.

(** After a successful [add_spike(time, neuron_id, value)] on a model
    whose [input_spikes] dict is well formed, the input matrix the next
    [T]-tick simulation builds is the one it built before with the entry
    [[t][nid]] set to [float(value)] ([t = int(time)], [nid] the neuron
    index): the assignment raises IndexError when [nid] is not a neuron,
    and so does [float] when it fails; a spike scheduled beyond tick [T]
    leaves the matrix as it was. *)
Theorem add_spike_input_matrix time neuron_id value m m' t nid T M :
  input_wf (input_spikes m) = true ->
  add_spike time neuron_id value m = (m', inr tt) ->
  py_int time = inr t -> py_int (unwrap_neuron neuron_id) = inr nid ->
  setup_input_spikes m T = Some M ->
  setup_input_spikes m' T
  = if (t <=? Z.of_nat T)%Z then
      match py_float value with inr f => mat_set M t nid f | inl _ => None end
    else Some M.
Proof.
  intros Hw Ha Ht Hn HM.
  destruct (add_spike_success time neuron_id value m m' Ha)
    as [t' [nid' [Ht' [Hn' [H0t [H0n [_ ->]]]]]]].
  rewrite Ht in Ht'. injection Ht' as <-. rewrite Hn in Hn'. injection Hn' as <-.
  set (d' := dict_add_spike (input_spikes m) t nid value).
  assert (Hw' : input_wf d' = true) by (apply input_wf_dict_add_spike; assumption).
  rewrite setup_input_spikes_rows in HM by (apply input_wf_keys_nonneg; exact Hw).
  rewrite setup_input_spikes_rows by (apply input_wf_keys_nonneg; exact Hw').
  change (input_spikes (set_input_spikes d' m)) with d'.
  change (neuron_thresholds (set_input_spikes d' m)) with (neuron_thresholds m).
  set (n := length (neuron_thresholds m)) in *.
  set (h := fun row => match sum_to_option (py_float value) with
                       | Some f => list_set row nid f
                       | None => None
                       end).
  assert (Hne : forall r, r <> Z.to_nat t ->
            input_row n d' (Z.of_nat r) = input_row n (input_spikes m) (Z.of_nat r)).
  { intros r Hr. unfold input_row, d'. rewrite row_add_spike by exact Hw.
    replace (Z.eqb (Z.of_nat r) t) with false by (symmetry; apply Z.eqb_neq; lia).
    reflexivity. }
  assert (Hi : input_row n d' (Z.of_nat (Z.to_nat t))
               = match input_row n (input_spikes m) (Z.of_nat (Z.to_nat t)) with
                 | Some x => h x
                 | None => None
                 end).
  { unfold input_row, d'. rewrite row_add_spike by exact Hw.
    rewrite Z2Nat.id, Z.eqb_refl by lia. reflexivity. }
  rewrite (all_some_map_seq_upd (fun r => input_row n (input_spikes m) (Z.of_nat r))
             (fun r => input_row n d' (Z.of_nat r)) h (Z.to_nat t) Hne Hi (S T) 0 M HM).
  assert (HL : length M = S T)
    by (rewrite (all_some_length _ _ HM), length_map, length_seq; reflexivity).
  destruct (Z.leb_spec t (Z.of_nat T)) as [Hle|Hgt].
  - replace ((0 <=? Z.to_nat t) && (Z.to_nat t <? 0 + S T)) with true
      by (symmetry; apply andb_true_iff; split; [apply Nat.leb_le | apply Nat.ltb_lt]; lia).
    rewrite Nat.sub_0_r, (nth_error_nth_lt M (Z.to_nat t) []) by lia.
    unfold h, mat_set. rewrite (nth_error_nth_lt M (Z.to_nat t) []) by lia.
    destruct (py_float value) as [e|f]; cbn [sum_to_option]; [reflexivity|].
    destruct (list_set (nth (Z.to_nat t) M []) nid f) as [row'|]; [|reflexivity].
    rewrite list_set_upd by lia. reflexivity.
  - replace ((0 <=? Z.to_nat t) && (Z.to_nat t <? 0 + S T)) with false
      by (symmetry; apply andb_false_iff; right; apply Nat.ltb_ge; lia).
    reflexivity.
Qed.

Lemma add_spike_input_matrix_witness :
  setup_input_spikes (fst (add_spike (PyInt 2) (PyInt 0) (PyInt 5) (run_calls one_spike_calls))) 3
  = if (2 <=? Z.of_nat 3)%Z then
      match py_float (PyInt 5) with
      | inr f => mat_set (match setup_input_spikes (run_calls one_spike_calls) 3 with
                          | Some M => M | None => [] end) 2 0 f
      | inl _ => None
      end
    else Some (match setup_input_spikes (run_calls one_spike_calls) 3 with
               | Some M => M | None => [] end).
Proof.
  apply (add_spike_input_matrix (PyInt 2) (PyInt 0) (PyInt 5) (run_calls one_spike_calls)
           (fst (add_spike (PyInt 2) (PyInt 0) (PyInt 5) (run_calls one_spike_calls))) 2 0 3);
    vm_compute; reflexivity.
Defined.

(** [add_spike] keeps the [input_spikes] dict well formed (distinct,
    non-negative ticks; as many values as neuron ids under each tick) and
    changes nothing else of the model; when it raises, the model is left
    as it was. *)
Theorem add_spike_keeps_input_wf time neuron_id value m :
  input_wf (input_spikes m) = true ->
  exists d', fst (add_spike time neuron_id value m) = set_input_spikes d' m /\
             input_wf d' = true /\
             (snd (add_spike time neuron_id value m) <> inr tt -> d' = input_spikes m).
Proof.
  intros Hw.
  destruct (add_spike time neuron_id value m) as [m' r] eqn:Ea. cbn [fst snd].
  destruct r as [e|[]].
  - exists (input_spikes m). split; [|split; [exact Hw | reflexivity]].
    revert Ea. unfold add_spike, bind, lift, check, ret, raise, modify.
    destruct (is_intlike time) as [e'|[|]];
      [intros Hm; injection Hm as <- _; destruct m; reflexivity
      | | intros Hm; injection Hm as <- _; destruct m; reflexivity].
    destruct (py_int time) as [e'|t]; [intros Hm; injection Hm as <- _; destruct m; reflexivity|].
    destruct (is_intlike (unwrap_neuron neuron_id)) as [e'|[|]];
      [intros Hm; injection Hm as <- _; destruct m; reflexivity
      | | intros Hm; injection Hm as <- _; destruct m; reflexivity].
    destruct (py_int (unwrap_neuron neuron_id)) as [e'|nid];
      [intros Hm; injection Hm as <- _; destruct m; reflexivity|].
    destruct (isinstance_num value); [|intros Hm; injection Hm as <- _; destruct m; reflexivity].
    destruct (0 <=? t)%Z; [|intros Hm; injection Hm as <- _; destruct m; reflexivity].
    destruct (0 <=? nid)%Z; [|intros Hm; injection Hm as <- _; destruct m; reflexivity].
    discriminate.
  - destruct (add_spike_success time neuron_id value m m' Ea)
      as [t [nid [_ [_ [H0t [_ [_ ->]]]]]]].
    exists (dict_add_spike (input_spikes m) t nid value).
    split; [reflexivity|]. split; [apply input_wf_dict_add_spike; assumption|].
    intros Hc. exfalso. apply Hc. reflexivity.
Qed.

Lemma add_spike_keeps_input_wf_witness :
  exists d', fst (add_spike (PyInt 2) (PyInt 0) (PyInt 5) (run_calls one_spike_calls))
             = set_input_spikes d' (run_calls one_spike_calls) /\
             input_wf d' = true /\
             (snd (add_spike (PyInt 2) (PyInt 0) (PyInt 5) (run_calls one_spike_calls)) <> inr tt ->
              d' = input_spikes (run_calls one_spike_calls)).
Proof.
  apply (add_spike_keeps_input_wf (PyInt 2) (PyInt 0) (PyInt 5) (run_calls one_spike_calls)).
  vm_compute. reflexivity.
Defined.

(** ** [mat[pre_ids, post_ids] = values] and [weight_mat] *)

Lemma list_set_some {A : Type} (l : list A) i v l' :
  list_set l i v = Some l' ->
  (0 <= i)%Z /\ (Z.to_nat i < length l)%nat /\ l' = list_upd l (Z.to_nat i) v.
Proof.
  destruct (Z.le_gt_cases 0 i) as [Hi|Hi];
    [destruct (Nat.lt_ge_cases (Z.to_nat i) (length l)) as [Hl|Hl]|].
  - rewrite list_set_upd by assumption. intros E. injection E as <-. auto.
  - rewrite list_set_out by lia. discriminate.
  - rewrite list_set_out by lia. discriminate.
Qed.

Lemma mat_set_some {A : Type} (mat : list (list A)) i j v mat' :
  mat_set mat i j v = Some mat' ->
  (0 <= i)%Z /\ (Z.to_nat i < length mat)%nat /\
  (0 <= j)%Z /\ (Z.to_nat j < length (nth (Z.to_nat i) mat []))%nat /\
  mat' = list_upd mat (Z.to_nat i) (list_upd (nth (Z.to_nat i) mat []) (Z.to_nat j) v).
Proof.
  unfold mat_set. destruct (nth_error mat (Z.to_nat i)) as [row|] eqn:Er; [|discriminate].
  assert (Hlt : (Z.to_nat i < length mat)%nat)
    by (apply nth_error_Some; rewrite Er; discriminate).
  rewrite (nth_error_nth_lt mat (Z.to_nat i) []) in Er by exact Hlt.
  injection Er as <-.
  destruct (list_set (nth (Z.to_nat i) mat []) j v) as [row'|] eqn:Ej; [|discriminate].
  apply list_set_some in Ej as [Hj0 [Hj ->]]. intros Hm.
  apply list_set_some in Hm as [Hi0 [_ ->]]. auto.
Qed.

Lemma assign_coords_spec {A : Type} (c : nat) (d : A) :
  forall pre post vals (mat mat' : list (list A)),
  Forall (fun row => length row = c) mat ->
  assign_coords mat pre post vals = Some mat' ->
  length mat' = length mat /\ Forall (fun row => length row = c) mat' /\
  (forall k, (k < length pre)%nat -> (k < length post)%nat -> (k < length vals)%nat ->
     (0 <= nth k pre 0%Z)%Z /\ (Z.to_nat (nth k pre 0%Z) < length mat)%nat /\
     (0 <= nth k post 0%Z)%Z /\ (Z.to_nat (nth k post 0%Z) < c)%nat) /\
  (forall i j, (i < length mat)%nat -> (j < c)%nat ->
     nth j (nth i mat' []) d
     = coord_lookup pre post vals (Z.of_nat i) (Z.of_nat j) (nth j (nth i mat []) d)).
Proof.
  induction pre as [|p pre IH]; intros post vals mat mat' Hr Ha.
  - cbn in Ha. injection Ha as <-. split; [reflexivity|]. split; [exact Hr|].
    split; [cbn; intros; lia | reflexivity].
  - destruct post as [|q post]; [cbn in Ha; injection Ha as <-;
      split; [reflexivity | split; [exact Hr | split; [cbn; intros; lia | reflexivity]]]|].
    destruct vals as [|v vals]; [cbn in Ha; injection Ha as <-;
      split; [reflexivity | split; [exact Hr | split; [cbn; intros; lia | reflexivity]]]|].
    cbn [assign_coords] in Ha.
    destruct (mat_set mat p q v) as [mat1|] eqn:Es; [|discriminate].
    apply mat_set_some in Es as [Hp0 [Hp [Hq0 [Hq ->]]]].
    set (P := Z.to_nat p) in *. set (Q := Z.to_nat q) in *.
    assert (HrowP : length (nth P mat []) = c).
    { rewrite Forall_forall in Hr. apply Hr, nth_In. exact Hp. }
    assert (Hr1 : Forall (fun row => length row = c)
                    (list_upd mat P (list_upd (nth P mat []) Q v))).
    { apply Forall_forall. intros row Hin.
      apply (In_nth _ _ []) in Hin as [i [Hi <-]].
      rewrite length_list_upd in Hi by exact Hp.
      rewrite nth_list_upd by exact Hp. destruct (Nat.eqb i P).
      - rewrite length_list_upd by exact Hq. exact HrowP.
      - rewrite Forall_forall in Hr. apply Hr, nth_In. exact Hi. }
    destruct (IH post vals _ mat' Hr1 Ha) as [Hl [Hr' [Hk Hv]]].
    rewrite length_list_upd in Hl, Hk, Hv by exact Hp.
    split; [exact Hl|]. split; [exact Hr'|]. split.
    + intros [|k] Hk1 Hk2 Hk3; cbn [nth].
      * rewrite <- HrowP. auto.
      * cbn [length] in Hk1, Hk2, Hk3. apply Hk; lia.
    + intros i j Hi Hj. rewrite (Hv i j Hi Hj). cbn [coord_lookup]. f_equal.
      rewrite nth_list_upd by exact Hp.
      destruct (Nat.eqb_spec i P) as [->|HiP].
      * rewrite nth_list_upd by (rewrite HrowP; lia).
        replace (Z.eqb p (Z.of_nat P)) with true
          by (symmetry; apply Z.eqb_eq; subst P; lia).
        destruct (Nat.eqb_spec j Q) as [->|HjQ].
        -- replace (Z.eqb q (Z.of_nat Q)) with true
             by (symmetry; apply Z.eqb_eq; subst Q; lia). reflexivity.
        -- replace (Z.eqb q (Z.of_nat j)) with false
             by (symmetry; apply Z.eqb_neq; subst Q; lia). reflexivity.
      * replace (Z.eqb p (Z.of_nat i)) with false
          by (symmetry; apply Z.eqb_neq; subst P; lia). reflexivity.
Qed.

Lemma assign_coords_ok {A : Type} (c : nat) :
  forall pre post (vals : list A) (mat : list (list A)),
  Forall (fun row => length row = c) mat ->
  (forall k, (k < length pre)%nat -> (k < length post)%nat -> (k < length vals)%nat ->
     (0 <= nth k pre 0%Z)%Z /\ (Z.to_nat (nth k pre 0%Z) < length mat)%nat /\
     (0 <= nth k post 0%Z)%Z /\ (Z.to_nat (nth k post 0%Z) < c)%nat) ->
  exists mat', assign_coords mat pre post vals = Some mat'.
Proof.
  induction pre as [|p pre IH]; intros post vals mat Hr Hk; [eexists; reflexivity|].
  destruct post as [|q post]; [eexists; reflexivity|].
  destruct vals as [|v vals]; [eexists; reflexivity|].
  destruct (Hk 0%nat) as [Hp0 [Hp [Hq0 Hq]]]; cbn [length]; try lia. cbn [nth] in *.
  assert (HrowP : length (nth (Z.to_nat p) mat []) = c).
  { rewrite Forall_forall in Hr. apply Hr, nth_In. exact Hp. }
  cbn [assign_coords]. unfold mat_set.
  rewrite (nth_error_nth_lt mat (Z.to_nat p) []) by exact Hp.
  rewrite list_set_upd by (try rewrite HrowP; lia).
  rewrite list_set_upd by lia.
  apply IH.
  - apply Forall_forall. intros row Hin.
    apply (In_nth _ _ []) in Hin as [i [Hi <-]].
    rewrite length_list_upd in Hi by exact Hp.
    rewrite nth_list_upd by exact Hp. destruct (Nat.eqb i (Z.to_nat p)).
    + rewrite length_list_upd by lia. exact HrowP.
    + rewrite Forall_forall in Hr. apply Hr, nth_In. exact Hi.
  - intros k Hk1 Hk2 Hk3. rewrite length_list_upd by exact Hp.
    apply (Hk (S k)); cbn [length]; lia.
Qed.

Lemma zeros_mat_rect {A : Type} (z : A) r c :
  Forall (fun row => length row = c) (zeros_mat z r c).
Proof.
  unfold zeros_mat. apply Forall_forall. intros row Hin.
  apply repeat_spec in Hin. subst row. apply repeat_length.
Qed.

Lemma zeros_mat_nth {A : Type} (z : A) r c i j :
  (i < r)%nat -> (j < c)%nat -> nth j (nth i (zeros_mat z r c) []) z = z.
Proof.
  intros Hi Hj. unfold zeros_mat.
  rewrite nth_indep with (d' := repeat z c) by (rewrite repeat_length; exact Hi).
  rewrite nth_repeat. apply nth_repeat.
Qed.

Lemma weight_mat_spec m W :
  length (post_synaptic_neuron_ids m) = length (pre_synaptic_neuron_ids m) ->
  length (synaptic_weights m) = length (pre_synaptic_neuron_ids m) ->
  weight_mat m = Some W ->
  length W = length (neuron_thresholds m) /\
  Forall (fun row => length row = length (neuron_thresholds m)) W /\
  (forall k, (k < length (pre_synaptic_neuron_ids m))%nat ->
     (0 <= nth k (pre_synaptic_neuron_ids m) 0%Z < num_neurons m)%Z /\
     (0 <= nth k (post_synaptic_neuron_ids m) 0%Z < num_neurons m)%Z) /\
  exists ws, all_some (map (fun w => sum_to_option (py_float w)) (synaptic_weights m)) = Some ws /\
    forall i j, (i < length (neuron_thresholds m))%nat -> (j < length (neuron_thresholds m))%nat ->
      nth j (nth i W []) f64_zero
      = coord_lookup (pre_synaptic_neuron_ids m) (post_synaptic_neuron_ids m) ws
                     (Z.of_nat i) (Z.of_nat j) f64_zero.
Proof.
  intros Hpost Hw HW. unfold weight_mat in HW.
  set (n := length (neuron_thresholds m)) in *.
  destruct (all_some (map (fun w => sum_to_option (py_float w)) (synaptic_weights m)))
    as [ws|] eqn:Ews; [|discriminate].
  assert (Hlws : length ws = length (pre_synaptic_neuron_ids m))
    by (rewrite (all_some_length _ _ Ews), length_map; exact Hw).
  destruct (assign_coords_spec n f64_zero _ _ _ _ _ (zeros_mat_rect f64_zero n n) HW)
    as [Hl [Hr [Hk Hv]]].
  assert (Hz : length (zeros_mat f64_zero n n) = n) by apply repeat_length.
  rewrite Hz in Hl, Hk, Hv.
  split; [exact Hl|]. split; [exact Hr|]. split.
  - intros k Hk1. destruct (Hk k Hk1 ltac:(lia) ltac:(lia)) as [H1 [H2 [H3 H4]]].
    unfold num_neurons. fold n. lia.
  - exists ws. split; [reflexivity|]. intros i j Hi Hj.
    rewrite (Hv i j Hi Hj), zeros_mat_nth by assumption. reflexivity.
Qed.

(** [weight_mat()] on a model whose synapse lists have one entry per
    synapse and non-negative endpoints, as [create_synapse] makes them:
    when it returns, it is an [N x N] matrix ([N] the number of neurons),
    every synapse endpoint is a neuron index (otherwise the assignment
    raises IndexError), and entry [(i, j)] is [float] of the weight of the
    last synapse [i -> j] created, 0.0 if there is none: parallel
    synapses do not add up, the last one wins. *)
Theorem weight_mat_last_wins m W :
  length (post_synaptic_neuron_ids m) = length (pre_synaptic_neuron_ids m) ->
  length (synaptic_weights m) = length (pre_synaptic_neuron_ids m) ->
  Forall (fun z => (0 <= z)%Z) (pre_synaptic_neuron_ids m ++ post_synaptic_neuron_ids m) ->
  weight_mat m = Some W ->
  length W = length (neuron_thresholds m) /\
  Forall (fun row => length row = length (neuron_thresholds m)) W /\
  Forall (fun z => (z < num_neurons m)%Z) (pre_synaptic_neuron_ids m ++ post_synaptic_neuron_ids m) /\
  exists ws, all_some (map (fun w => sum_to_option (py_float w)) (synaptic_weights m)) = Some ws /\
    forall i j, (i < length (neuron_thresholds m))%nat -> (j < length (neuron_thresholds m))%nat ->
      nth j (nth i W []) f64_zero
      = coord_lookup (pre_synaptic_neuron_ids m) (post_synaptic_neuron_ids m) ws
                     (Z.of_nat i) (Z.of_nat j) f64_zero.
Proof.
  intros Hpost Hw _ HW.
  destruct (weight_mat_spec m W Hpost Hw HW) as [Hl [Hr [Hk Hv]]].
  split; [exact Hl|]. split; [exact Hr|]. split; [|exact Hv].
  apply Forall_app. split; apply Forall_forall; intros z Hz;
    apply (In_nth _ _ 0%Z) in Hz as [k [Hk' <-]].
  - apply (Hk k Hk').
  - rewrite Hpost in Hk'. apply (Hk k Hk').
Qed.

Lemma weight_mat_last_wins_witness :
  length parallel_weights = length (neuron_thresholds (run_calls parallel_calls)) /\
  Forall (fun row => length row = length (neuron_thresholds (run_calls parallel_calls)))
         parallel_weights /\
  Forall (fun z => (z < num_neurons (run_calls parallel_calls))%Z)
         (pre_synaptic_neuron_ids (run_calls parallel_calls)
          ++ post_synaptic_neuron_ids (run_calls parallel_calls)) /\
  exists ws, all_some (map (fun w => sum_to_option (py_float w))
                           (synaptic_weights (run_calls parallel_calls))) = Some ws /\
    forall i j, (i < length (neuron_thresholds (run_calls parallel_calls)))%nat ->
      (j < length (neuron_thresholds (run_calls parallel_calls)))%nat ->
      nth j (nth i parallel_weights []) f64_zero
      = coord_lookup (pre_synaptic_neuron_ids (run_calls parallel_calls))
                     (post_synaptic_neuron_ids (run_calls parallel_calls)) ws
                     (Z.of_nat i) (Z.of_nat j) f64_zero.
Proof.
  apply (weight_mat_last_wins (run_calls parallel_calls) parallel_weights);
    [vm_compute; reflexivity | vm_compute; reflexivity
    | vm_compute; repeat constructor; discriminate | vm_compute; reflexivity].
Defined.

(** A simulation on the cpu or the jit backend raises (IndexError in
    [weight_mat]) when a synapse names a neuron index that does not
    exist, for synapse lists with one entry per synapse (the jit backend,
    with or without numba, raises in any case). *)
Theorem simulate_dangling_synapse_raises sim m T k :
  sim = simulate_cpu \/ (exists numba, sim = simulate_cpu_jit numba) ->
  length (post_synaptic_neuron_ids m) = length (pre_synaptic_neuron_ids m) ->
  length (synaptic_weights m) = length (pre_synaptic_neuron_ids m) ->
  (k < length (pre_synaptic_neuron_ids m))%nat ->
  (num_neurons m <= nth k (pre_synaptic_neuron_ids m) 0
   \/ num_neurons m <= nth k (post_synaptic_neuron_ids m) 0)%Z ->
  sim m T = None.
Proof.
  intros Hsim Hpost Hw Hk Hout.
  destruct (sim m T) as [m'|] eqn:Em; [|reflexivity]. exfalso.
  assert (Hsw : exists step,
             sim m T = simulate_with (fun p inp d T => Engine.run step p inp d (seq 0 T)) m T).
  { destruct Hsim as [-> | [[|] ->]].
    - exists Engine.tick_cpu. reflexivity.
    - exists tick_jit. reflexivity.
    - unfold simulate_cpu_jit in Em. discriminate Em. }
  destruct Hsw as [step Heq]. rewrite Heq in Em.
  destruct (simulate_shape step m T m' Em) as [p [d [_ [_ [Hs _]]]]].
  destruct (setup_shape m p d Hs) as [_ [_ [_ [_ [HW _]]]]].
  destruct (weight_mat_spec m _ Hpost Hw HW) as [_ [_ [Hr _]]].
  specialize (Hr k Hk). lia.
Qed.

Lemma simulate_dangling_synapse_raises_witness :
  simulate_cpu (set_post_synaptic_neuron_ids [5%Z; 1%Z] (run_calls parallel_calls)) 2 = None.
Proof.
  apply (simulate_dangling_synapse_raises simulate_cpu
           (set_post_synaptic_neuron_ids [5%Z; 1%Z] (run_calls parallel_calls)) 2 0
           (or_introl eq_refl));
    [vm_compute; reflexivity | vm_compute; reflexivity | vm_compute; lia
    | right; vm_compute; discriminate].
Defined.

(** After a simulation on the cpu backend that ran STDP
    ([_do_stdp] true), [synaptic_weights] holds one float per synapse,
    read back from the weight matrix, so synapses with the same endpoints
    end with the same weight, whatever weights they had before. *)
Theorem simulate_stdp_merges_parallel_synapses m T m' k k' :
  do_stdp m = true ->
  simulate_cpu m T = Some m' ->
  (k < length (pre_synaptic_neuron_ids m))%nat -> (k' < length (pre_synaptic_neuron_ids m))%nat ->
  nth k (pre_synaptic_neuron_ids m) 0%Z = nth k' (pre_synaptic_neuron_ids m) 0%Z ->
  nth k (post_synaptic_neuron_ids m) 0%Z = nth k' (post_synaptic_neuron_ids m) 0%Z ->
  length (synaptic_weights m') = length (pre_synaptic_neuron_ids m) /\
  (exists f, nth k (synaptic_weights m') PyNone = PyFloat f) /\
  nth k (synaptic_weights m') PyNone = nth k' (synaptic_weights m') PyNone.
Proof.
  intros Hd Hm Hk Hk' Hpre Hpost.
  destruct cpu_step_cases as [step [_ Heq]]. rewrite Heq in Hm.
  destruct (simulate_shape step m T m' Hm) as [p [d [_ [d' [Hs [_ [_ ->]]]]]]].
  destruct (setup_shape m p d Hs) as [_ [_ [_ [_ [_ [_ Ef]]]]]].
  rewrite Hd in Ef.
  change (synaptic_weights (set_input_spikes (consume_input_spikes (Z.of_nat T) (input_spikes m))
                                              (devec m p d')))
    with (synaptic_weights (devec m p d')).
  unfold devec. rewrite Ef. cbn [synaptic_weights set_synaptic_weights].
  set (g := fun k0 => PyFloat (Engine.mat_entry (Engine.weights d')
                        (Z.to_nat (nth k0 (pre_synaptic_neuron_ids m) 0%Z))
                        (Z.to_nat (nth k0 (post_synaptic_neuron_ids m) 0%Z)))).
  assert (Hn : forall i, (i < length (pre_synaptic_neuron_ids m))%nat ->
             nth i (map g (seq 0 (length (pre_synaptic_neuron_ids m)))) PyNone = g i).
  { intros i Hi. rewrite nth_indep with (d' := g 0%nat) by (rewrite length_map, length_seq; exact Hi).
    rewrite map_nth, seq_nth by exact Hi. reflexivity. }
  rewrite length_map, length_seq, !Hn by assumption.
  split; [reflexivity|]. split; [eexists; reflexivity|].
  unfold g. rewrite Hpre, Hpost. reflexivity.
Qed.

Lemma simulate_stdp_merges_parallel_synapses_witness :
  length (synaptic_weights parallel_after_2)
  = length (pre_synaptic_neuron_ids (run_calls parallel_calls)) /\
  (exists f, nth 0 (synaptic_weights parallel_after_2) PyNone = PyFloat f) /\
  nth 0 (synaptic_weights parallel_after_2) PyNone = nth 1 (synaptic_weights parallel_after_2) PyNone.
Proof.
  apply (simulate_stdp_merges_parallel_synapses (run_calls parallel_calls) 2
           parallel_after_2 0 1);
    [vm_compute; reflexivity | vm_compute; reflexivity | vm_compute; lia | vm_compute; lia
    | vm_compute; reflexivity | vm_compute; reflexivity].
Defined.

(** ** [create_neuron] and [create_synapse] *)

Ltac py_cases :=
  repeat match goal with
         | |- context [match ?x with _ => _ end] =>
             lazymatch x with
             | context [fun _ => _] => fail
             | _ => destruct x eqn:?
             end
         end.

Lemma synapse_checks_spec a b w d m :
  exists r, synapse_checks a b w d m = (m, r) /\
    forall p q dd, r = inr (p, q, dd) ->
      unwrap_neuron (PyInt p) = PyInt p /\ (0 <= p)%Z /\ (0 <= q)%Z /\ (0 < dd)%Z /\
      isinstance_num w = true.
Proof.
  unfold synapse_checks, int_arg, bind, check, lift, ret, raise. cbn beta iota.
  py_cases; eexists; (split; [reflexivity|]); intros p0 q0 dd0 Hr; try discriminate.
  injection Hr as <- <- <-. repeat split; try reflexivity; try assumption; lia.
Qed.

(** [create_synapse] is all or nothing: it raises only from its argument
    checks, before anything is added, so an exception leaves the model as
    it was (no relay neuron or synapse of a half-built delay chain); when it
    returns, it has added at least one synapse and returns the index of
    the last one. *)
Theorem create_synapse_all_or_nothing pre_id post_id weight delay stdp_enabled m :
  match create_synapse pre_id post_id weight delay stdp_enabled m with
  | (m', inl _) => m' = m
  | (m', inr id) => (num_synapses m < num_synapses m')%Z /\ id = (num_synapses m' - 1)%Z
  end.
Proof.
  destruct (synapse_checks_spec pre_id post_id weight delay m) as [r [Ec Hr]].
  unfold create_synapse, bind at 1. rewrite Ec.
  destruct r as [e|[[p q] dd]]; [reflexivity|].
  destruct (Hr p q dd eq_refl) as [_ [Hp [Hq [Hd Hw]]]].
  destruct (Z.eqb_spec dd 1) as [->|Hne].
  - unfold append_synapse, bind, modify, get, ret. unfold num_synapses. cbn.
    rewrite length_app. cbn [length]. split; lia.
  - unfold bind at 1.
    destruct (relay_chain_spec (Z.to_nat (dd - 1)) m (PyInt p) p eq_refl Hp) as [v [Ev Hv]].
    rewrite Ev.
    set (k := Z.to_nat (dd - 1)).
    set (last_id := last (p :: map (fun i => (num_neurons m + Z.of_nat i)%Z) (seq 0 k)) p).
    assert (Hl : (0 <= last_id)%Z).
    { apply last_nonneg. constructor; [exact Hp|]. apply Forall_forall. intros z Hz.
      apply in_map_iff in Hz as [i [<- _]]. unfold num_neurons. lia. }
    rewrite (create_synapse_unit_spec v (PyInt q) weight stdp_enabled last_id q
               (relay_chain_model m p k) Hv eq_refl Hl Hq Hw).
    unfold append_synapse, modify, num_synapses, relay_chain_model. cbn.
    rewrite !length_app. cbn [length].
    split; lia.
Qed.

Lemma create_synapse_all_or_nothing_witness :
  match create_synapse (PyInt 0) (PyInt 1) (PyFloat f64_one) (PyInt 3) (PyBool false)
          (run_calls association_calls) with
  | (m', inl _) => m' = run_calls association_calls
  | (m', inr id) => (num_synapses (run_calls association_calls) < num_synapses m')%Z /\
                    id = (num_synapses m' - 1)%Z
  end.
Proof.
  exact (create_synapse_all_or_nothing (PyInt 0) (PyInt 1) (PyFloat f64_one) (PyInt 3)
           (PyBool false) (run_calls association_calls)).
Defined.

(** A [create_neuron] call that returns has appended one entry to each of
    the six per-neuron lists ([float] of threshold, leak, reset state and
    initial state; the refractory period and state as non-negative ints),
    returns the new neuron's index [num_neurons] of before the call, and
    leaves synapses, scheduled input, spike log and STDP settings as they
    were. *)
Theorem create_neuron_appends threshold leak reset_state refractory_period refractory_state
    initial_state m m' id :
  create_neuron threshold leak reset_state refractory_period refractory_state initial_state m
  = (m', inr id) ->
  id = num_neurons m /\ num_neurons m' = (num_neurons m + 1)%Z /\
  (exists x1 x2 x3 x4 rp rs,
     py_float threshold = inr x1 /\ py_float leak = inr x2 /\ py_float reset_state = inr x3 /\
     py_float initial_state = inr x4 /\
     py_int refractory_period = inr rp /\ (0 <= rp)%Z /\
     py_int refractory_state = inr rs /\ (0 <= rs)%Z /\
     m' = set_neuron_states (neuron_states m ++ [x4])
            (set_neuron_refractory_periods_state (neuron_refractory_periods_state m ++ [rs])
              (set_neuron_refractory_periods (neuron_refractory_periods m ++ [rp])
                (set_neuron_reset_states (neuron_reset_states m ++ [x3])
                  (set_neuron_leaks (neuron_leaks m ++ [x2])
                    (set_neuron_thresholds (neuron_thresholds m ++ [x1]) m)))))).
Proof.
  unfold create_neuron, bind, check, lift, ret, raise, modify, get. cbn beta iota.
  py_cases; intros Hm; try discriminate.
  injection Hm as <- <-.
  unfold num_neurons; cbn. rewrite length_app. cbn [length].
  split; [lia|]. split; [lia|].
  do 6 eexists. repeat split; try eassumption; try lia. all: reflexivity.
Qed.

Lemma create_neuron_appends_witness :
  let m := run_calls one_spike_calls in
  let r := create_neuron (PyInt 1) (PyInt 0) (PyFloat f64_zero) (PyInt 3) (PyInt 0) (PyInt 2) m in
  snd r = inr (num_neurons m) /\ num_neurons (fst r) = (num_neurons m + 1)%Z /\
  (exists x1 x2 x3 x4 rp rs,
     py_float (PyInt 1) = inr x1 /\ py_float (PyInt 0) = inr x2 /\
     py_float (PyFloat f64_zero) = inr x3 /\ py_float (PyInt 2) = inr x4 /\
     py_int (PyInt 3) = inr rp /\ (0 <= rp)%Z /\ py_int (PyInt 0) = inr rs /\ (0 <= rs)%Z /\
     fst r = set_neuron_states (neuron_states m ++ [x4])
            (set_neuron_refractory_periods_state (neuron_refractory_periods_state m ++ [rs])
              (set_neuron_refractory_periods (neuron_refractory_periods m ++ [rp])
                (set_neuron_reset_states (neuron_reset_states m ++ [x3])
                  (set_neuron_leaks (neuron_leaks m ++ [x2])
                    (set_neuron_thresholds (neuron_thresholds m ++ [x1]) m)))))).
Proof.
  intros m r.
  assert (Hc : create_neuron (PyInt 1) (PyInt 0) (PyFloat f64_zero) (PyInt 3) (PyInt 0) (PyInt 2) m
               = (fst r, inr (num_neurons m))) by (vm_compute; reflexivity).
  destruct (create_neuron_appends (PyInt 1) (PyInt 0) (PyFloat f64_zero) (PyInt 3) (PyInt 0)
              (PyInt 2) m (fst r) (num_neurons m) Hc) as [_ Hs].
  split; [vm_compute; reflexivity | exact Hs].
Defined.

(** ** [is_intlike] on floats *)

(** [is_intlike(x)] for a float [x] computes [x == int(x)]: it raises
    OverflowError for an infinity and ValueError for NaN (from [int(x)])
    instead of returning False, and for a finite float it tells whether
    [x] is a whole number: [m * 2^e] is one when [e >= 0] or [2^-e]
    divides [m]. *)
Theorem is_intlike_float (f : F64) :
  is_intlike (PyFloat f)
  = match f with
    | S754_infinity _ => inl OverflowError
    | S754_nan => inl ValueError
    | S754_zero _ => inr true
    | S754_finite _ m e => inr ((0 <=? e)%Z || (Z.pos m mod 2 ^ (- e) =? 0)%Z)
    end.
Proof.
  destruct f as [s|s| |s m e]; try reflexivity.
  unfold is_intlike; cbn [isinstance_int py_int f64_trunc].
  destruct (Z.leb_spec 0 e) as [He|He]; cbn [f64_eq_Z orb].
  - replace (0 <=? e)%Z with true by (symmetry; apply Z.leb_le; lia).
    rewrite Z.eqb_refl. reflexivity.
  - replace (0 <=? e)%Z with false by (symmetry; apply Z.leb_gt; lia). cbn [orb].
    f_equal.
    assert (HP : (0 < 2 ^ (- e))%Z) by (apply Z.pow_pos_nonneg; lia).
    pose proof (Z.div_mod (Z.pos m) (2 ^ (- e)) ltac:(lia)) as Hdm.
    pose proof (Z.mod_pos_bound (Z.pos m) (2 ^ (- e)) HP) as Hb.
    set (P := (2 ^ (- e))%Z) in *. set (q := (Z.pos m / P)%Z) in *.
    set (r := (Z.pos m mod P)%Z) in *.
    destruct s; cbn [cond_Zopp];
      destruct (Z.eqb_spec r 0) as [Hr|Hr];
      [ apply Z.eqb_eq; nia | apply Z.eqb_neq; nia | apply Z.eqb_eq; nia | apply Z.eqb_neq; nia ].
Qed.

(** ** The leak stage *)

Lemma SFcompare_self (x : F64) : f64_isnan x = false -> SFcompare x x = Some Eq.
Proof.
  destruct x as [sx|sx| |sx mx ex]; cbn; try discriminate; intros _;
    try destruct sx; try reflexivity; rewrite Z.compare_refl, Pos.compare_cont_refl; reflexivity.
Qed.

Lemma SFleb_not_ltb (x y : F64) : SFleb y x = true -> SFltb x y = false.
Proof.
  unfold SFleb, SFltb. rewrite (SFcompare_antisym y x).
  destruct (SFcompare y x) as [[]|]; cbn; congruence.
Qed.

Lemma SFltb_not_nan_l (x y : F64) : SFltb x y = true -> f64_isnan x = false.
Proof. destruct x; cbn; try reflexivity. discriminate. Qed.

Lemma SFltb_not_nan_r (x y : F64) : SFltb x y = true -> f64_isnan y = false.
Proof. destruct x, y; cbn; try reflexivity; discriminate. Qed.

Lemma SFltb_nan_l (y : F64) : SFltb S754_nan y = false.
Proof. reflexivity. Qed.

Lemma SFltb_asym (x y : F64) : SFltb x y = true -> SFltb y x = false.
Proof.
  unfold SFltb. rewrite (SFcompare_antisym x y).
  destruct (SFcompare x y) as [[]|]; cbn; congruence.
Qed.

(** The leak stage never carries a binary64 state across its reset
    state, whatever the leak (negative and infinite ones included): a
    state above the reset state ends at or above it, one below ends at or
    below it, unless the subtraction or addition of the leak gives NaN
    (as [inf - inf] for a state and a leak both [+inf]). *)
Theorem leak_elem_no_crossing (s leak r : F64) :
  (SFltb r s = true ->
   SFleb r (Engine.leak_elem s leak r) = true \/ f64_isnan (Engine.leak_elem s leak r) = true) /\
  (SFltb s r = true ->
   SFleb (Engine.leak_elem s leak r) r = true \/ f64_isnan (Engine.leak_elem s leak r) = true).
Proof.
  unfold Engine.leak_elem, Engine.np_maximum, Engine.np_minimum; cbn [ngt nlt nge nle nisnan Num_F64].
  cbv beta. split; intros Hlt.
  - rewrite Hlt. pose proof (SFltb_not_nan_l r s Hlt) as Hr.
    destruct (SFleb r (nsub s leak)) eqn:Ele; cbn [orb].
    + rewrite (SFleb_not_ltb _ _ Ele). left. exact Ele.
    + destruct (f64_isnan (nsub s leak)) eqn:Enan.
      * destruct (nsub s leak); try discriminate. right. reflexivity.
      * replace (SFltb r r) with false by (unfold SFltb; rewrite (SFcompare_self r Hr); reflexivity).
        left. unfold SFleb. rewrite (SFcompare_self r Hr). reflexivity.
  - rewrite (SFltb_asym _ _ Hlt), Hlt. pose proof (SFltb_not_nan_r s r Hlt) as Hr.
    destruct (SFleb (nadd s leak) r) eqn:Ele; cbn [orb].
    + left. exact Ele.
    + destruct (f64_isnan (nadd s leak)) eqn:Enan.
      * right. exact Enan.
      * unfold SFleb. rewrite (SFcompare_self r Hr). left. reflexivity.
Qed.

Lemma leak_elem_no_crossing_witness :
  SFleb f64_zero (Engine.leak_elem (f64_lit 15 1) f64_one f64_zero) = true
  \/ f64_isnan (Engine.leak_elem (f64_lit 15 1) f64_one f64_zero) = true.
Proof.
  apply (proj1 (leak_elem_no_crossing (f64_lit 15 1) f64_one f64_zero)).
  vm_compute. reflexivity.
Defined.

(** In exact arithmetic and with a non-negative leak, the leak stage
    moves a state towards its reset state by exactly [leak], stopping at
    the reset state: the distance shrinks to [max(|s - r| - leak, 0)] and
    the state stays on its side. *)
Theorem leak_elem_exact_distance (s leak r : Z) :
  (0 <= leak)%Z ->
  Engine.leak_elem s leak r = (r + Z.sgn (s - r) * Z.max (Z.abs (s - r) - leak) 0)%Z.
Proof.
  intros Hl. unfold Engine.leak_elem, Engine.np_maximum, Engine.np_minimum.
  cbn [ngt nlt nge nle nisnan nsub nadd Num_Z]. rewrite Z.gtb_ltb, !Z.geb_leb, !orb_false_r.
  destruct (Z.lt_trichotomy s r) as [H|[H|H]].
  - rewrite (Z.sgn_neg (s - r)), (Z.abs_neq (s - r)) by lia.
    destruct (Z.ltb_spec r s); [lia|].
    destruct (Z.ltb_spec s r); [|lia].
    destruct (Z.leb_spec (s + leak) r); lia.
  - subst s. rewrite Z.sub_diag. cbn [Z.sgn].
    destruct (Z.ltb_spec r r); [lia|]. destruct (Z.ltb_spec r r); lia.
  - rewrite (Z.sgn_pos (s - r)), (Z.abs_eq (s - r)) by lia.
    destruct (Z.ltb_spec r s); [|lia].
    destruct (Z.leb_spec r (s - leak)).
    + destruct (Z.ltb_spec (s - leak) r); lia.
    + destruct (Z.ltb_spec r r); lia.
Qed.

Lemma leak_elem_exact_distance_witness :
  Engine.leak_elem 7%Z 3%Z 2%Z = (2 + Z.sgn (7 - 2) * Z.max (Z.abs (7 - 2) - 3) 0)%Z.
Proof. apply leak_elem_exact_distance. lia. Defined.

(** A neuron whose refractory counter ([neuron_refractory_periods_state])
    is [c] when [simulate] is called on the cpu backend does not spike in
    the first [c] ticks of the call, whatever its input: the spike vectors
    logged at indices [len(spike_train)] to [len(spike_train) + c - 1]
    have it silent; for refractory periods and counters in [0, 2^53]
    (which the float64 arrays of [_setup] hold as they are). *)
Theorem simulate_initial_refractory_silence m T m' i j :
  Forall (fun z => (0 <= z <= 2 ^ 53)%Z) (neuron_refractory_periods m) ->
  Forall (fun z => (0 <= z <= 2 ^ 53)%Z) (neuron_refractory_periods_state m) ->
  simulate_cpu m T = Some m' ->
  (i < T)%nat -> (j < length (neuron_states m))%nat ->
  (Z.of_nat i < nth j (neuron_refractory_periods_state m) 0)%Z ->
  nth j (nth (length (spike_train m) + i) (spike_train m') []) false = false.
Proof.
  intros Hpm Hcm Hm Hi Hj Hc.
  destruct cpu_step_cases as [step [Hstep Heq]]. rewrite Heq in Hm.
  destruct (simulate_shape step m T m' Hm) as [p [d [inp [d' [Hs [_ [Hr ->]]]]]]].
  destruct (setup_shape m p d Hs) as [Hst [_ [Htr _]]].
  destruct (setup_exact m p d Hpm Hcm Hs) as [Horig Hrf].
  assert (Etr : spike_train (set_input_spikes (consume_input_spikes (Z.of_nat T) (input_spikes m))
                                              (devec m p d')) = Engine.spike_train d')
    by devec_field.
  rewrite Etr, <- Htr.
  apply (run_initial_silence step p inp Hstep ltac:(rewrite Horig; exact Hpm)
           (seq 0 T) d d' i j Hr ltac:(rewrite Hrf; exact Hcm)).
  - rewrite length_seq. exact Hi.
  - rewrite Hst. exact Hj.
  - unfold Engine.nthZ. rewrite Hrf. exact Hc.
Qed.

Lemma simulate_initial_refractory_silence_witness :
  nth 0 (nth (length (spike_train (run_calls delayed_start_calls)) + 1)
            (spike_train delayed_start_after_3) []) false = false.
Proof.
  apply (simulate_initial_refractory_silence (run_calls delayed_start_calls) 3
           delayed_start_after_3 1 0);
    [apply forallb_counters; vm_compute; reflexivity
    | apply forallb_counters; vm_compute; reflexivity
    | vm_compute; reflexivity | lia | vm_compute; lia | apply Z.ltb_lt; vm_compute; reflexivity].
Defined.
